(** * goryu-docsite: the documentation migration scripts

    The repository is a VitePress documentation site together with two
    one-shot Node scripts:

    - the primary migration script, which walks
      [documentation/middleware], copies every [<topic>/README.md] to
      [docs/middleware/<topic>.md], writes [docs/middleware/index.md] and
      logs the list of migrated topics;
    - [migrate_remaining.js], which copies a fixed list of
      [{src, dest}] pairs.

    Both scripts are sequences of synchronous calls to Node's [fs],
    [path] and [console] modules.  They are embedded as programs over
    those calls; the calls are interpreted over a tree model of the
    filesystem, and, where a statement does not depend on what the
    filesystem does, over an arbitrary interpretation. *)

From Stdlib Require Import Ascii String NArith Lia.
From stdpp Require Import base tactics option list strings.

Local Open Scope string_scope.
Local Open Scope list_scope.
Local Set Warnings "-register-all".

(** ** Text as the runtime sees it *)

(** A JavaScript string is held as the UTF-8 encoding of its text, one
    [ascii] per byte; file contents are the bytes on disk. *)

Definition LF : string := String (ascii_of_nat 10) "".
Definition DQUOTE : ascii := ascii_of_nat 34.
Definition BACKSLASH : ascii := ascii_of_nat 92.

Definition code (c : ascii) : N := N_of_ascii c.

Definition in_range (lo hi : N) (c : ascii) : bool :=
  ((lo <=? code c) && (code c <=? hi))%N.

(** [Array.prototype.join] on strings. *)
Fixpoint join (sep : string) (l : list string) : string :=
  match l with
  | [] => ""
  | [x] => x
  | x :: r => x +:+ sep +:+ join sep r
  end.

Module Utf8.

(** U+FFFD REPLACEMENT CHARACTER, encoded. *)
Definition FFFD : string :=
  String (ascii_of_nat 239) (String (ascii_of_nat 191) (String (ascii_of_nat 189) "")).

Definition cont (c : ascii) : bool := in_range 128 191 c.

(** Bounds for the byte after a three-byte lead (no overlong forms, no
    surrogates) and after a four-byte lead (no overlong forms, nothing
    above U+10FFFF). *)
Definition second3 (b0 c : ascii) : bool :=
  in_range (if (code b0 =? 224)%N then 160 else 128)
           (if (code b0 =? 237)%N then 159 else 191) c.

Definition second4 (b0 c : ascii) : bool :=
  in_range (if (code b0 =? 240)%N then 144 else 128)
           (if (code b0 =? 244)%N then 143 else 191) c.

(** The text that [readFileSync(p, 'utf-8')] returns for the bytes [s],
    re-encoded: every well-formed sequence is kept, every maximal
    ill-formed prefix of a sequence becomes U+FFFD and decoding resumes
    at the offending byte. *)
Fixpoint to_text (s : string) : string :=
  match s with
  | "" => ""
  | String b0 r0 =>
    if in_range 0 127 b0 then String b0 (to_text r0)
    else if in_range 194 223 b0 then
      match r0 with
      | "" => FFFD
      | String b1 r1 =>
        if cont b1 then String b0 (String b1 (to_text r1))
        else FFFD +:+ to_text r0
      end
    else if in_range 224 239 b0 then
      match r0 with
      | "" => FFFD
      | String b1 r1 =>
        if second3 b0 b1 then
          match r1 with
          | "" => FFFD
          | String b2 r2 =>
            if cont b2 then String b0 (String b1 (String b2 (to_text r2)))
            else FFFD +:+ to_text r1
          end
        else FFFD +:+ to_text r0
      end
    else if in_range 240 244 b0 then
      match r0 with
      | "" => FFFD
      | String b1 r1 =>
        if second4 b0 b1 then
          match r1 with
          | "" => FFFD
          | String b2 r2 =>
            if cont b2 then
              match r2 with
              | "" => FFFD
              | String b3 r3 =>
                if cont b3
                then String b0 (String b1 (String b2 (String b3 (to_text r3))))
                else FFFD +:+ to_text r2
              end
            else FFFD +:+ to_text r1
          end
        else FFFD +:+ to_text r0
      end
    else FFFD +:+ to_text r0
  end.

(** Well-formed UTF-8. *)
Fixpoint valid (s : string) : bool :=
  match s with
  | "" => true
  | String b0 r0 =>
    if in_range 0 127 b0 then valid r0
    else if in_range 194 223 b0 then
      match r0 with
      | String b1 r1 => cont b1 && valid r1
      | _ => false
      end
    else if in_range 224 239 b0 then
      match r0 with
      | String b1 (String b2 r2) => second3 b0 b1 && cont b2 && valid r2
      | _ => false
      end
    else if in_range 240 244 b0 then
      match r0 with
      | String b1 (String b2 (String b3 r3)) =>
        second4 b0 b1 && cont b2 && cont b3 && valid r3
      | _ => false
      end
    else false
  end.

End Utf8.

(** ** Paths *)

(** A resolved absolute path is the list of its components below the
    root. *)
Definition path := list string.

Module Path.

Definition SLASH : ascii := ascii_of_nat 47.

(** The pieces of [s] between slashes; [cur] is the piece being read. *)
Fixpoint segments (cur s : string) : list string :=
  match s with
  | "" => [cur]
  | String c r =>
    if Ascii.eqb c SLASH then cur :: segments "" r
    else segments (cur +:+ String c "") r
  end.

(** Normalisation: empty and [.] pieces vanish, [..] drops the last
    component (and stays at the root). *)
Definition step (p : path) (seg : string) : path :=
  if String.eqb seg "" then p
  else if String.eqb seg "." then p
  else if String.eqb seg ".." then removelast p
  else p ++ [seg].

Definition normalize (p : path) (segs : list string) : path :=
  fold_left step segs p.

Definition absolute (s : string) : bool :=
  match s with String c _ => Ascii.eqb c SLASH | "" => false end.

(** [path.resolve(...args)].  Every call in the two scripts passes an
    absolute first argument, so the working directory is never
    consulted; it is taken to be the root. *)
Definition resolve (args : list string) : path :=
  fold_left (fun acc a =>
               normalize (if absolute a then [] else acc) (segments "" a))
            args [].

(** [path.join(p, s)] for a resolved [p]. *)
Definition join (p : path) (s : string) : path :=
  normalize p (segments "" s).

(** [path.dirname(p)] for a resolved [p]. *)
Definition dirname (p : path) : path := removelast p.

(** What a directory entry can be called. *)
Definition entry_name (s : string) : bool :=
  negb (String.eqb s "") && negb (String.eqb s ".") && negb (String.eqb s "..")
  && forallb (fun c => negb (Ascii.eqb c SLASH)) (list_ascii_of_string s).

End Path.

(** ** Outcomes of a call *)

(** The error codes of a failed [fs] call.  The tree model below raises the
    first four; the others stand for what a real filesystem can add
    (permissions, quotas, devices). *)
Inductive errno := ENOENT | ENOTDIR | EISDIR | EEXIST | EACCES | ENOSPC | EIO.

Inductive outcome (A : Type) : Type :=
| Return (a : A)
| Throw (e : errno).
Arguments Return {A} a.
Arguments Throw {A} e.

Definition thrown {A} (r : outcome A) : option errno :=
  match r with Return _ => None | Throw e => Some e end.

(** ** The filesystem as a tree *)

(** The tree is what the runtime shows of the disk: entry names are the
    strings [readdirSync] reports, regular files and directories are the
    only kinds of node, and every node can be read and written.  Symbolic
    links, permissions and quotas are not modelled; the errors they cause
    are covered where a statement is made for every interpretation of the
    calls. *)

Module Fs.

(** A regular file holds its bytes; a directory holds its entries in the
    order in which a listing reports them. *)
Inductive node :=
| File (data : string)
| Dir (entries : list (string * node)).

Fixpoint assoc (c : string) (es : list (string * node)) : option node :=
  match es with
  | [] => None
  | (k, n) :: r => if String.eqb k c then Some n else assoc c r
  end.

(** Replace the entry called [c], or add it at the end. *)
Fixpoint set_entry (c : string) (n : node) (es : list (string * node))
  : list (string * node) :=
  match es with
  | [] => [(c, n)]
  | (k, m) :: r => if String.eqb k c then (k, n) :: r else (k, m) :: set_entry c n r
  end.

(** Path resolution from the node [n]. *)
Fixpoint walk (p : path) (n : node) : outcome node :=
  match p with
  | [] => Return n
  | c :: p' =>
    match n with
    | File _ => Throw ENOTDIR
    | Dir es =>
      match assoc c es with
      | Some n' => walk p' n'
      | None => Throw ENOENT
      end
    end
  end.

(** [fs.existsSync]: never throws. *)
Definition existsSync (p : path) (n : node) : bool :=
  match walk p n with Return _ => true | Throw _ => false end.

(** [fs.statSync(p).isDirectory()]. *)
Definition statIsDirectory (p : path) (n : node) : outcome bool :=
  match walk p n with
  | Return (Dir _) => Return true
  | Return (File _) => Return false
  | Throw e => Throw e
  end.

(** [fs.readdirSync(p)]. *)
Definition readdirSync (p : path) (n : node) : outcome (list string) :=
  match walk p n with
  | Return (Dir es) => Return (map fst es)
  | Return (File _) => Throw ENOTDIR
  | Throw e => Throw e
  end.

(** [fs.readFileSync(p, 'utf-8')]. *)
Definition readFileSync (p : path) (n : node) : outcome string :=
  match walk p n with
  | Return (File d) => Return (Utf8.to_text d)
  | Return (Dir _) => Throw EISDIR
  | Throw e => Throw e
  end.

(** Store [d] as the file called [c] in the directory at [p]: the file is
    created or its content replaced. *)
Fixpoint put (p : path) (c : string) (d : string) (n : node) : outcome node :=
  match n with
  | File _ => Throw ENOTDIR
  | Dir es =>
    match p with
    | [] =>
      match assoc c es with
      | Some (Dir _) => Throw EISDIR
      | _ => Return (Dir (set_entry c (File d) es))
      end
    | x :: p' =>
      match assoc x es with
      | None => Throw ENOENT
      | Some n' =>
        match put p' c d n' with
        | Return n'' => Return (Dir (set_entry x n'' es))
        | Throw e => Throw e
        end
      end
    end
  end.

Fixpoint unsnoc (p : path) : option (path * string) :=
  match p with
  | [] => None
  | c :: r =>
    match unsnoc r with
    | None => Some ([], c)
    | Some (q, l) => Some (c :: q, l)
    end
  end.

(** [fs.writeFileSync(p, d)] with a string [d]: the bytes written are the
    string's UTF-8 encoding, which is how strings are held. *)
Definition writeFileSync (p : path) (d : string) (n : node) : outcome node :=
  match unsnoc p with
  | None => Throw EISDIR
  | Some (dir, c) => put dir c d n
  end.

(** [fs.mkdirSync(p, { recursive: true })]: missing directories along [p]
    are created; a regular file in the way is an error. *)
Fixpoint mkdirSync (p : path) (n : node) : outcome node :=
  match n with
  | File _ => Throw (match p with [] => EEXIST | _ => ENOTDIR end)
  | Dir es =>
    match p with
    | [] => Return n
    | c :: p' =>
      match mkdirSync p' (match assoc c es with Some n' => n' | None => Dir [] end) with
      | Return n'' => Return (Dir (set_entry c n'' es))
      | Throw e => Throw e
      end
    end
  end.

(** The content of the regular file at [p], if there is one. *)
Definition file_at (p : path) (n : node) : option string :=
  match walk p n with Return (File d) => Some d | _ => None end.

Definition is_dir (p : path) (n : node) : bool :=
  match walk p n with Return (Dir _) => true | _ => false end.

(** Entry names are proper names and no name is listed twice, in every
    directory of the tree. *)
Fixpoint wf (n : node) : bool :=
  match n with
  | File _ => true
  | Dir es =>
    forallb Path.entry_name (map fst es)
    && bool_decide (NoDup (map fst es))
    && forallb (fun e => wf (snd e)) es
  end.

End Fs.

(** ** Programs over the runtime's calls *)

(** The calls the two scripts make, indexed by what they return. *)
Inductive call : Type -> Type :=
| ExistsSync (p : path) : call bool
| MkdirSync (p : path) : call unit
| ReaddirSync (p : path) : call (list string)
| StatIsDirectory (p : path) : call bool
| ReadFileSync (p : path) : call string
| WriteFileSync (p : path) (data : string) : call unit
| ConsoleLog (line : string) : call unit.

(** A script is a tree of calls, each continued with its result.  There is
    no constructor for catching an error: neither script has a [try]. *)
Inductive prog (A : Type) : Type :=
| Pure (a : A)
| Vis {R : Type} (c : call R) (k : R -> prog A).
Arguments Pure {A} a.
Arguments Vis {A R} c k.

Fixpoint prog_bind {A B} (m : prog A) (f : A -> prog B) : prog B :=
  match m with
  | Pure a => f a
  | Vis c k => Vis c (fun r => prog_bind (k r) f)
  end.

#[export] Instance prog_ret : MRet prog := fun A a => Pure a.
#[export] Instance prog_mbind : MBind prog := fun A B f m => prog_bind m f.

Definition perform {R} (c : call R) : prog R := Vis c Pure.

(** [l.forEach(x => body)], where [body] updates a value the loop carries
    (the array the callback pushes to). *)
Fixpoint forEach {A S} (l : list A) (body : A -> S -> prog S) (s : S) : prog S :=
  match l with
  | [] => Pure s
  | x :: r => s' ← body x s; forEach r body s'
  end.

(** What a run leaves behind: one event per call made, with its result. *)
Inductive event :=
| EvExists (p : path) (r : outcome bool)
| EvMkdir (p : path) (r : outcome unit)
| EvReaddir (p : path) (r : outcome (list string))
| EvStat (p : path) (r : outcome bool)
| EvRead (p : path) (r : outcome string)
| EvWrite (p : path) (data : string) (r : outcome unit)
| EvLog (line : string) (r : outcome unit).

Definition event_of {R} (c : call R) : outcome R -> event :=
  match c with
  | ExistsSync p => EvExists p
  | MkdirSync p => EvMkdir p
  | ReaddirSync p => EvReaddir p
  | StatIsDirectory p => EvStat p
  | ReadFileSync p => EvRead p
  | WriteFileSync p d => EvWrite p d
  | ConsoleLog l => EvLog l
  end.

(** The error of a failed call. *)
Definition failure (ev : event) : option errno :=
  match ev with
  | EvExists _ r => thrown r
  | EvMkdir _ r => thrown r
  | EvReaddir _ r => thrown r
  | EvStat _ r => thrown r
  | EvRead _ r => thrown r
  | EvWrite _ _ r => thrown r
  | EvLog _ r => thrown r
  end.

(** The file writes that went through, oldest first. *)
Definition write_of (ev : event) : option (path * string) :=
  match ev with
  | EvWrite p d (Return _) => Some (p, d)
  | _ => None
  end.

Definition writes (t : list event) : list (path * string) :=
  omap write_of t.

(** The lines printed, oldest first. *)
Definition line_of (ev : event) : option string :=
  match ev with
  | EvLog l (Return _) => Some l
  | _ => None
  end.

Definition printed (t : list event) : list string := omap line_of t.

Section Run.

(** Any world and any interpretation of the calls in it. *)
Context {W : Type}.
Variable handle : forall R, call R -> W -> outcome R * W.

(** Running a script: the first call that throws ends the run. *)
Fixpoint run {A} (m : prog A) (w : W) : list event * outcome A * W :=
  match m with
  | Pure a => ([], Return a, w)
  | Vis c k =>
    match handle _ c w with
    | (Return x, w') =>
      let '(t, r, w'') := run (k x) w' in (event_of c (Return x) :: t, r, w'')
    | (Throw e, w') => ([event_of c (Throw e)], Throw e, w')
    end
  end.

End Run.

(** ** The tree model as an interpretation *)

Record world := World { fs : Fs.node; stdout : list string }.

Definition set_fs (w : world) (n : Fs.node) : world :=
  {| fs := n; stdout := stdout w |}.

Definition node_handle (R : Type) (c : call R) (w : world) : outcome R * world :=
  match c in call R return outcome R * world with
  | ExistsSync p => (Return (Fs.existsSync p (fs w)), w)
  | MkdirSync p =>
    match Fs.mkdirSync p (fs w) with
    | Return n => (Return tt, set_fs w n)
    | Throw e => (Throw e, w)
    end
  | ReaddirSync p => (Fs.readdirSync p (fs w), w)
  | StatIsDirectory p => (Fs.statIsDirectory p (fs w), w)
  | ReadFileSync p => (Fs.readFileSync p (fs w), w)
  | WriteFileSync p d =>
    match Fs.writeFileSync p d (fs w) with
    | Return n => (Return tt, set_fs w n)
    | Throw e => (Throw e, w)
    end
  | ConsoleLog l => (Return tt, {| fs := fs w; stdout := stdout w ++ [l] |})
  end.

Definition exec {A} (m : prog A) (w : world) : list event * outcome A * world :=
  run node_handle m w.

(** ** The tree model with directories that cannot be searched *)

(** [p] lies below one of the directories [locked].  These are directories
    whose search permission is taken away: the directory itself can be
    looked at, nothing below it can be reached. *)
Definition blocked (locked : list path) (p : path) : bool :=
  existsb (fun d => bool_decide (d `prefix_of` p) && negb (bool_decide (d = p))) locked.

(** A call on a path that cannot be reached fails with [EACCES]; but
    [fs.existsSync] reports a failure, whatever it is, as [false]. *)
Definition guarded_handle (locked : list path) (R : Type) (c : call R) (w : world)
  : outcome R * world :=
  match c in call R return outcome R * world with
  | ExistsSync p =>
    if blocked locked p then (Return false, w) else node_handle _ (ExistsSync p) w
  | MkdirSync p =>
    if blocked locked p then (Throw EACCES, w) else node_handle _ (MkdirSync p) w
  | ReaddirSync p =>
    if blocked locked p then (Throw EACCES, w) else node_handle _ (ReaddirSync p) w
  | StatIsDirectory p =>
    if blocked locked p then (Throw EACCES, w) else node_handle _ (StatIsDirectory p) w
  | ReadFileSync p =>
    if blocked locked p then (Throw EACCES, w) else node_handle _ (ReadFileSync p) w
  | WriteFileSync p d =>
    if blocked locked p then (Throw EACCES, w) else node_handle _ (WriteFileSync p d) w
  | ConsoleLog l => node_handle _ (ConsoleLog l) w
  end.

(** ** String helpers of the scripts *)

(** [s.toUpperCase()] follows the Unicode case mappings of the runtime,
    which are not written out here: the function is taken as the runtime
    gives it.  What is used of it is what the language fixes for a string
    of one ASCII character: a lower-case letter becomes the upper-case
    letter, any other ASCII character stays. *)
Definition upper (c : ascii) : ascii :=
  if in_range 97 122 c then ascii_of_N (code c - 32) else c.

Class CaseMapping := {
  toUpperCase : string -> string;
  toUpperCase_ascii :
    forall c : ascii,
      in_range 0 127 c = true -> toUpperCase (String c "") = String (upper c) ""
}.



(** [s.charAt(0)] and [s.slice(1)] count in UTF-16 units.  A character of
    the Basic Multilingual Plane is one unit, encoded here in one to three
    bytes: [head_unit] gives that character and what follows it.  There is
    none when [s] is empty or starts with a character beyond the plane,
    whose first unit is half of a surrogate pair. *)
Definition head_unit (s : string) : option (string * string) :=
  match s with
  | "" => None
  | String b0 r0 =>
    if in_range 0 127 b0 then Some (String b0 "", r0)
    else if in_range 194 223 b0 then
      match r0 with
      | String b1 r1 =>
        if Utf8.cont b1 then Some (String b0 (String b1 ""), r1) else None
      | "" => None
      end
    else if in_range 224 239 b0 then
      match r0 with
      | String b1 (String b2 r2) =>
        if Utf8.second3 b0 b1 && Utf8.cont b2
        then Some (String b0 (String b1 (String b2 "")), r2)
        else None
      | _ => None
      end
    else None
  end.

(** [s.charAt(0).toUpperCase() + s.slice(1)].  For the empty string both
    parts are empty.  For a string that starts with a character beyond the
    plane, [charAt(0)] is a lone surrogate, which no case mapping changes,
    and the sum is [s] again. *)
Definition capitalized `{CaseMapping} (s : string) : string :=
  match head_unit s with
  | Some (c, rest) => toUpperCase c +:+ rest
  | None => s
  end.

(** [JSON.stringify] of an array of strings. *)
Definition hex_digit (n : N) : ascii :=
  ascii_of_N (if (n <? 10)%N then 48 + n else 87 + n).

Definition json_char (c : ascii) : string :=
  let esc (x : string) := String BACKSLASH x in
  if Ascii.eqb c DQUOTE then esc (String DQUOTE "")
  else if Ascii.eqb c BACKSLASH then esc (String BACKSLASH "")
  else if (code c =? 8)%N then esc "b"
  else if (code c =? 9)%N then esc "t"
  else if (code c =? 10)%N then esc "n"
  else if (code c =? 12)%N then esc "f"
  else if (code c =? 13)%N then esc "r"
  else if (code c <? 32)%N
  then esc ("u00" +:+ String (hex_digit (code c / 16)) (String (hex_digit (code c mod 16)) ""))
  else String c "".

Fixpoint json_chars (s : string) : string :=
  match s with
  | "" => ""
  | String c r => json_char c +:+ json_chars r
  end.

Definition json_string (s : string) : string :=
  String DQUOTE (json_chars s) +:+ String DQUOTE "".

Definition JSON_stringify (l : list string) : string :=
  "[" +:+ join "," (map json_string l) +:+ "]".

(** ** The primary migration script *)

Module Migrate.

Definition sourceDir : path :=
  Path.resolve ["/Users/arthur/Documents/personal/goryudoc/documentation/middleware"].
Definition targetDir : path :=
  Path.resolve ["/Users/arthur/Documents/personal/goryudoc/docs/middleware"].
Definition configPath : path :=
  Path.resolve ["/Users/arthur/Documents/personal/goryudoc/docs/.vitepress/config.mts"].

(** The callback of [middlewares.forEach]; [middlewareList] is the array
    it pushes to. *)
Definition migrate_one (mw : string) (middlewareList : list string)
  : prog (list string) :=
  let mwPath := Path.join sourceDir mw in
  isDirectory ← perform (StatIsDirectory mwPath);
  if isDirectory : bool then
    let readmePath := Path.join mwPath "README.md" in
    found ← perform (ExistsSync readmePath);
    if found : bool then
      content ← perform (ReadFileSync readmePath);
      let targetPath := Path.join targetDir (mw +:+ ".md") in
      perform (WriteFileSync targetPath content);;
      perform (ConsoleLog ("Migrated " +:+ mw));;
      mret (middlewareList ++ [mw])
    else mret middlewareList
  else mret middlewareList.

(** Lines 7 to 27: make sure the target directory is there, list the
    source directory, copy. *)
Definition collect : prog (list string) :=
  found ← perform (ExistsSync targetDir);
  (if negb found then perform (MkdirSync targetDir) else mret tt);;
  middlewares ← perform (ReaddirSync sourceDir);
  forEach middlewares migrate_one [].

Definition link (mw : string) : string :=
  "- [" +:+ mw +:+ "](/middleware/" +:+ mw +:+ ")".

Definition heading : string :=
  "# Middleware" +:+ LF +:+ LF
  +:+ "Goryu comes with a rich set of built-in middlewares." +:+ LF +:+ LF
  +:+ "## Available Middleware" +:+ LF +:+ LF.

Definition indexContent (middlewareList : list string) : string :=
  heading +:+ join LF (map link middlewareList) +:+ LF.

(** Lines 29 to 39. *)
Definition write_index (middlewareList : list string) : prog unit :=
  perform (WriteFileSync (Path.join targetDir "index.md") (indexContent middlewareList)).

(** Lines 45 to 55: the block for the site configuration. *)
Section Sidebar.

Context `{CaseMapping}.

Definition sidebarItem (mw : string) : string :=
  "            { text: '" +:+ capitalized mw
  +:+ "', link: '/middleware/" +:+ mw +:+ "' },".

Definition sidebarItems (middlewareList : list string) : string :=
  join LF (map sidebarItem middlewareList).

Definition sidebarTitle : string :=
  "      '/middleware/': [" +:+ LF
  +:+ "        {" +:+ LF
  +:+ "          text: 'Middleware'," +:+ LF
  +:+ "          items: [" +:+ LF
  +:+ "            { text: 'Overview', link: '/middleware/' }," +:+ LF.

Definition sidebarClose : string :=
  LF +:+ "          ]" +:+ LF +:+ "        }" +:+ LF +:+ "      ],".

Definition newSidebarSection (middlewareList : list string) : string :=
  sidebarTitle +:+ sidebarItems middlewareList +:+ sidebarClose.

End Sidebar.

(** Lines 41 to 65.  [configContent] and [newSidebarSection] are bound
    and not used.  The block is what the runtime's case mapping makes of
    the list; building it calls nothing. *)
Definition sidebar (middlewareList : list string) : prog unit :=
  configContent ← perform (ReadFileSync configPath);
  let newSidebarSection :=
    fun runtime : CaseMapping => @newSidebarSection runtime middlewareList in
  perform (ConsoleLog "Middleware List for Sidebar:");;
  perform (ConsoleLog (JSON_stringify middlewareList)).

Definition main : prog unit :=
  middlewareList ← collect;
  write_index middlewareList;;
  sidebar middlewareList.

End Migrate.

(** ** [migrate_remaining.js] *)

Module MigrateRemaining.

Record mapping := Mapping { src : string; dest : string }.

Definition mappings : list mapping :=
  [ Mapping "documentation/client/README.md" "docs/core/client.md";
    Mapping "documentation/config/README.md" "docs/core/config.md";
    Mapping "documentation/db/README.md" "docs/core/db.md";
    Mapping "documentation/goryuctx/README.md" "docs/core/context.md";
    Mapping "documentation/monitoring/README.md" "docs/monitoring/index.md";
    Mapping "documentation/monitoring/UI_README.md" "docs/monitoring/ui.md";
    Mapping "documentation/plugins/README.md" "docs/plugins/index.md";
    Mapping "documentation/router/builder/README.md" "docs/router/builder.md";
    Mapping "documentation/tutorial.md" "docs/guide/tutorial.md";
    Mapping "documentation/route/README.md" "docs/router/route.md" ].

Definition root : string := "/Users/arthur/Documents/personal/goryudoc".

Definition srcPath (m : mapping) : path := Path.resolve [root; src m].
Definition destPath (m : mapping) : path := Path.resolve [root; dest m].
Definition destDir (m : mapping) : path := Path.dirname (destPath m).

Definition migrated (m : mapping) : string :=
  "Migrated " +:+ src m +:+ " -> " +:+ dest m.
Definition warning (m : mapping) : string :=
  "WARNING: Source not found: " +:+ src m.

(** The callback of [mappings.forEach]. *)
Definition copy_one (m : mapping) (_ : unit) : prog unit :=
  found ← perform (ExistsSync (destDir m));
  (if negb found then perform (MkdirSync (destDir m)) else mret tt);;
  found ← perform (ExistsSync (srcPath m));
  if found : bool then
    content ← perform (ReadFileSync (srcPath m));
    perform (WriteFileSync (destPath m) content);;
    perform (ConsoleLog (migrated m))
  else
    perform (ConsoleLog (warning m)).

Definition main : prog unit := forEach mappings copy_one tt.

End MigrateRemaining.

(** * Vocabulary of the statements *)

(** ** Paths and traces *)

Definition no_slash (s : string) : bool :=
  forallb (fun c => negb (Ascii.eqb c Path.SLASH)) (list_ascii_of_string s).

(** Two paths are apart when neither leads to the other. *)
Definition apart (p q : path) : Prop :=
  ~ p `prefix_of` q /\ ~ q `prefix_of` p.

#[export] Instance apart_dec (p q : path) : Decision (apart p q).
Proof. unfold apart. apply _. Defined.

(** The content the writes [ws] leave at [q], given what was there. *)
Definition last_write (ws : list (path * string)) (q : path) (o : option string)
  : option string :=
  fold_left (fun acc pd => if decide (q = pd.1) then Some pd.2 else acc) ws o.

(** The directories a run created. *)
Definition mkdir_of (ev : event) : option path :=
  match ev with
  | EvMkdir p (Return _) => Some p
  | _ => None
  end.

Definition mkdirs (t : list event) : list path := omap mkdir_of t.

(** ** The primary script *)

(** The topic [mw] of the source directory is a directory that holds
    something called [README.md]. *)
Definition migrated (n : Fs.node) (mw : string) : bool :=
  Fs.is_dir (Migrate.sourceDir ++ [mw]) n
  && Fs.existsSync (Migrate.sourceDir ++ [mw; "README.md"]) n.

(** The topic's [README.md] is a regular file. *)
Definition has_readme (n : Fs.node) (mw : string) : Prop :=
  is_Some (Fs.file_at (Migrate.sourceDir ++ [mw; "README.md"]) n).

(** The text of the topic's [README.md]. *)
Definition page (n : Fs.node) (mw : string) : string :=
  match Fs.file_at (Migrate.sourceDir ++ [mw; "README.md"]) n with
  | Some d => Utf8.to_text d
  | None => ""
  end.

(** Where the page of the topic goes: [<target>/<mw>.md]. *)
Definition page_path (mw : string) : path := Migrate.targetDir ++ [mw +:+ ".md"].

Definition index_md : path := Migrate.targetDir ++ ["index.md"].

Definition sidebar_header : string := "Middleware List for Sidebar:".

Definition proper (names : list string) : Prop :=
  Forall (fun x => Path.entry_name x = true) names.

Definition proper_source (n : Fs.node) : Prop :=
  forall names, Fs.readdirSync Migrate.sourceDir n = Return names -> proper names.

(** Listing the source directory and copying. *)
Definition scan : prog (list string) :=
  middlewares ← perform (ReaddirSync Migrate.sourceDir);
  forEach middlewares Migrate.migrate_one [].

(** All that follows the scan. *)
Definition publish (middlewareList : list string) : prog unit :=
  Migrate.write_index middlewareList;; Migrate.sidebar middlewareList.

(** All that follows the making of the target directory. *)
Definition finish : prog unit := middlewareList ← scan; publish middlewareList.

(** The target directory is made when it is not there; the rest follows. *)
Definition setup {A} (rest : world -> list event * outcome A * world) (w : world)
  : list event * outcome A * world :=
  if Fs.existsSync Migrate.targetDir (fs w) then
    let '(t, r, w') := rest w in
    (EvExists Migrate.targetDir (Return true) :: t, r, w')
  else
    match Fs.mkdirSync Migrate.targetDir (fs w) with
    | Throw e =>
      ([EvExists Migrate.targetDir (Return false);
        EvMkdir Migrate.targetDir (Throw e)], Throw e, w)
    | Return n =>
      let '(t, r, w') := rest (set_fs w n) in
      (EvExists Migrate.targetDir (Return false)
         :: EvMkdir Migrate.targetDir (Return tt) :: t, r, w')
    end.

(** Agreement apart from the target directory. *)
Definition outside (s t : Fs.node) : Prop :=
  forall q, apart q Migrate.targetDir -> Fs.walk q s = Fs.walk q t.

(** Two filesystems are alike when they agree apart from the target
    directory, on whether the target is a directory, and on which of its
    entries are directories. *)
Definition alike (s t : Fs.node) : Prop :=
  (forall q, apart q Migrate.targetDir -> Fs.walk q s = Fs.walk q t)
  /\ Fs.statIsDirectory Migrate.targetDir s = Fs.statIsDirectory Migrate.targetDir t
  /\ (forall c, Fs.is_dir (Migrate.targetDir ++ [c]) s
                = Fs.is_dir (Migrate.targetDir ++ [c]) t).

(** A write lands on an entry of the target directory. *)
Definition in_target (pd : path * string) : Prop :=
  exists c, pd.1 = Migrate.targetDir ++ [c].

(** A trace that writes only into the target directory and makes no
    directory. *)
Definition tidy (t : list event) : Prop :=
  Forall in_target (writes t) /\ mkdirs t = [].

(** ** [migrate_remaining.js] *)

(** Making sure a directory is there. *)
Definition ensure_dir (p : path) (w : world) : list event * outcome unit * world :=
  if Fs.existsSync p (fs w) then ([EvExists p (Return true)], Return tt, w)
  else
    match Fs.mkdirSync p (fs w) with
    | Return n => ([EvExists p (Return false); EvMkdir p (Return tt)], Return tt, set_fs w n)
    | Throw e => ([EvExists p (Return false); EvMkdir p (Throw e)], Throw e, w)
    end.

(** All destinations are below [docs]; all sources are apart from it. *)
Definition docs : path := ["Users"; "arthur"; "Documents"; "personal"; "goryudoc"; "docs"].

Definition placed (m : MigrateRemaining.mapping) : Prop :=
  (exists r c, MigrateRemaining.destDir m = docs ++ r
               /\ MigrateRemaining.destPath m = MigrateRemaining.destDir m ++ [c])
  /\ apart (MigrateRemaining.srcPath m) docs.

Definition placedb (m : MigrateRemaining.mapping) : bool :=
  match Fs.unsnoc (MigrateRemaining.destPath m) with
  | Some (dir, c) =>
    bool_decide (dir = MigrateRemaining.destDir m)
    && bool_decide (take (length docs) dir = docs)
    && bool_decide (apart (MigrateRemaining.srcPath m) docs)
  | None => false
  end.

(** Agreement apart from [docs]. *)
Definition beside (s t : Fs.node) : Prop :=
  forall q, apart q docs -> Fs.walk q s = Fs.walk q t.

Definition src_exists (n : Fs.node) (m : MigrateRemaining.mapping) : bool :=
  Fs.existsSync (MigrateRemaining.srcPath m) n.

(** The text of the source of a pair. *)
Definition src_text (n : Fs.node) (m : MigrateRemaining.mapping) : string :=
  match Fs.file_at (MigrateRemaining.srcPath m) n with
  | Some d => Utf8.to_text d
  | None => ""
  end.

(** The line a pair gets. *)
Definition pair_line (n : Fs.node) (m : MigrateRemaining.mapping) : string :=
  if src_exists n m then MigrateRemaining.migrated m else MigrateRemaining.warning m.

(** ** Sample filesystems *)

Module Sample.

(** [goryudoc] holding the given [documentation] and [docs] entries. *)
Definition goryudoc (entries : list (string * Fs.node)) : Fs.node :=
  Fs.Dir [("Users", Fs.Dir [("arthur", Fs.Dir [("Documents", Fs.Dir
    [("personal", Fs.Dir [("goryudoc", Fs.Dir entries)])])])])].

(** The site configuration, as an entry of [docs]. *)
Definition config : string * Fs.node :=
  (".vitepress", Fs.Dir [("config.mts", Fs.File "export default {}")]).

(** The byte 233, which is e-acute in Latin-1 and no UTF-8 on its own. *)
Definition LATIN1_E_ACUTE : string := String (ascii_of_nat 233) "".

(** The example of the specification: [auth/README.md] and an empty
    [empty/]. *)
Definition auth_and_empty : world :=
  World (goryudoc
           [("documentation", Fs.Dir [("middleware", Fs.Dir
              [("auth", Fs.Dir [("README.md", Fs.File "# Auth")]);
               ("empty", Fs.Dir [])])]);
            ("docs", Fs.Dir [config])]) [].


(** A [README.md] saved as Latin-1: [caf] and the byte 233. *)
Definition latin1_topic : world :=
  World (goryudoc
           [("documentation", Fs.Dir [("middleware", Fs.Dir
              [("notes", Fs.Dir [("README.md", Fs.File ("caf" +:+ LATIN1_E_ACUTE))])])]);
            ("docs", Fs.Dir [config])]) [].

(** A checkout without the [.vitepress] directory. *)
Definition no_config : world :=
  World (goryudoc
           [("documentation", Fs.Dir [("middleware", Fs.Dir
              [("auth", Fs.Dir [("README.md", Fs.File "# Auth")])])]);
            ("docs", Fs.Dir [])]) [].

(** A topic whose [README.md] is a directory, after a good one. *)
Definition readme_is_directory : world :=
  World (goryudoc
           [("documentation", Fs.Dir [("middleware", Fs.Dir
              [("auth", Fs.Dir [("README.md", Fs.File "# Auth")]);
               ("cors", Fs.Dir [("README.md", Fs.Dir [])]);
               ("csrf", Fs.Dir [("README.md", Fs.File "# CSRF")])])]);
            ("docs", Fs.Dir [config])]) [].

(** The example of the specification after a first run. *)
Definition after_first_run : world :=
  (exec Migrate.main auth_and_empty).2.

(** Two of the ten sources are there. *)
Definition two_sources : world :=
  World (goryudoc
           [("documentation", Fs.Dir
              [("goryuctx", Fs.Dir [("README.md", Fs.File "# Context")]);
               ("tutorial.md", Fs.File "# Tutorial")]);
            ("docs", Fs.Dir [])]) [].

(** The tutorial saved as Latin-1. *)
Definition latin1_source : world :=
  World (goryudoc
           [("documentation", Fs.Dir
              [("tutorial.md", Fs.File ("caf" +:+ LATIN1_E_ACUTE))]);
            ("docs", Fs.Dir [])]) [].



Definition tutorial : MigrateRemaining.mapping :=
  MigrateRemaining.Mapping "documentation/tutorial.md" "docs/guide/tutorial.md".

Definition monitoring : MigrateRemaining.mapping :=
  MigrateRemaining.Mapping "documentation/monitoring/README.md" "docs/monitoring/index.md".

End Sample.

(** ** Kinds of node and outcomes *)

(** There is a regular file at [p]. *)
Definition is_file (p : path) (n : Fs.node) : bool :=
  match Fs.file_at p n with Some _ => true | None => false end.

(** The run did not throw. *)
Definition completes {A} (x : list event * outcome A * world) : bool :=
  match x.1.2 with Return _ => true | Throw _ => false end.

(** ** What the primary script touches *)

(** What the listing of the source directory reports, when it can be
    listed. *)
Definition listing (n : Fs.node) : list string :=
  match Fs.readdirSync Migrate.sourceDir n with
  | Return names => names
  | Throw _ => []
  end.

(** The calls the primary script can make on the filesystem [n]: it looks
    for the target directory and may make it, lists the source directory,
    asks of a listed entry whether it is a directory, looks for and reads
    the entry's [README.md], reads the site configuration, and writes the
    text of the [README.md] of an entry that is a directory to the
    entry's page, or an index to [index.md]. *)
Definition footprint (n : Fs.node) (ev : event) : Prop :=
  match ev with
  | EvExists p _ =>
    p = Migrate.targetDir
    \/ exists mw, mw ∈ listing n /\ p = Migrate.sourceDir ++ [mw; "README.md"]
  | EvMkdir p _ => p = Migrate.targetDir
  | EvReaddir p _ => p = Migrate.sourceDir
  | EvStat p _ => exists mw, mw ∈ listing n /\ p = Migrate.sourceDir ++ [mw]
  | EvRead p _ =>
    p = Migrate.configPath
    \/ exists mw, mw ∈ listing n /\ p = Migrate.sourceDir ++ [mw; "README.md"]
  | EvWrite p d _ =>
    (exists l, p = index_md /\ d = Migrate.indexContent l)
    \/ exists mw, mw ∈ listing n /\ migrated n mw = true
                  /\ p = page_path mw /\ d = page n mw
  | EvLog _ _ => True
  end.

(** ** When the primary script completes *)

(** Nothing stands in the way of the topic: if it is a directory that
    holds something called [README.md], that is a regular file, and the
    topic's page is not a directory. *)
Definition topic_ok (n : Fs.node) (mw : string) : bool :=
  negb (migrated n mw)
  || (is_file (Migrate.sourceDir ++ [mw; "README.md"]) n
      && negb (Fs.is_dir (page_path mw) n)).

(** The target directory is there or can be made, the source directory
    can be listed, nothing stands in the way of any topic, [index.md] is
    not a directory and the site configuration is a regular file. *)
Definition ready (n : Fs.node) : bool :=
  match Fs.mkdirSync Migrate.targetDir n, Fs.readdirSync Migrate.sourceDir n with
  | Return _, Return names =>
    forallb (topic_ok n) names
    && negb (Fs.is_dir index_md n)
    && is_file Migrate.configPath n
  | _, _ => false
  end.

(** ** What [migrate_remaining.js] touches *)

(** The calls [migrate_remaining.js] can make on the filesystem [n]: for a
    pair of the list, it looks for the destination directory and may make
    it, looks for the source and reads it, writes the text of the source
    to the destination, and prints the pair's success line or its
    warning. *)
Definition pair_call (n : Fs.node) (ev : event) : Prop :=
  exists m, m ∈ MigrateRemaining.mappings
    /\ match ev with
       | EvExists p _ => p = MigrateRemaining.destDir m \/ p = MigrateRemaining.srcPath m
       | EvMkdir p _ => p = MigrateRemaining.destDir m
       | EvRead p _ => p = MigrateRemaining.srcPath m
       | EvWrite p d _ => p = MigrateRemaining.destPath m /\ d = src_text n m
       | EvLog line _ =>
         line = MigrateRemaining.migrated m \/ line = MigrateRemaining.warning m
       | EvReaddir _ _ | EvStat _ _ => False
       end.

(** Every destination directory is there, and every source that is there
    is a regular file whose destination is a regular file too. *)
Definition settled (n : Fs.node) : Prop :=
  forall m, m ∈ MigrateRemaining.mappings ->
    Fs.existsSync (MigrateRemaining.destDir m) n = true
    /\ (src_exists n m = true ->
        is_file (MigrateRemaining.srcPath m) n = true
        /\ is_file (MigrateRemaining.destPath m) n = true).

(** ** When [migrate_remaining.js] completes *)

(** The directory at [p] is there as a directory or can be made. *)
Definition can_make (p : path) (n : Fs.node) : bool :=
  match Fs.mkdirSync p n with Return _ => true | Throw _ => false end.

(** Nothing stands in the way of the pair: something is at its
    destination directory or the directory can be made; and if its source
    is there, the source is a regular file, the destination directory is a
    directory or can be made, and the destination is not a directory. *)
Definition pair_ok (n : Fs.node) (m : MigrateRemaining.mapping) : bool :=
  (Fs.existsSync (MigrateRemaining.destDir m) n || can_make (MigrateRemaining.destDir m) n)
  && (negb (src_exists n m)
      || (is_file (MigrateRemaining.srcPath m) n
          && can_make (MigrateRemaining.destDir m) n
          && negb (Fs.is_dir (MigrateRemaining.destPath m) n))).

(** Nothing stands in the way of any pair of the list. *)
Definition remaining_ready (n : Fs.node) : bool :=
  forallb (pair_ok n) MigrateRemaining.mappings.

(** ** Under any behaviour of the filesystem *)

(** The path the primary script writes the page of [mw] to. *)
Definition targetPath (mw : string) : path :=
  Path.join Migrate.targetDir (mw +:+ ".md").

(** The line of a pair: its success line when it was copied, its warning
    otherwise. *)
Definition line_for (copied : bool) (m : MigrateRemaining.mapping) : string :=
  if copied then MigrateRemaining.migrated m else MigrateRemaining.warning m.

(** The pairs marked as copied, in order. *)
Fixpoint chosen (copied : list bool) (ms : list MigrateRemaining.mapping)
  : list MigrateRemaining.mapping :=
  match copied, ms with
  | b :: copied', m :: ms' => (if b then [m] else []) ++ chosen copied' ms'
  | _, _ => []
  end.

(** The calls that report a failure by throwing: all but [fs.existsSync],
    which answers [false] instead, and [console.log]. *)
Definition throwing_call (ev : event) : Prop :=
  match ev with
  | EvExists _ _ | EvLog _ _ => False
  | _ => True
  end.

(** The event is a call of [existsSync] on [p]. *)
Definition checks (p : path) (ev : event) : Prop := exists x, ev = EvExists p x.

(** ** Telling encoded names apart *)




(** ** Further sample filesystems *)

Module Cases.

(** A target directory that holds the page of a topic that is gone and an
    outdated page of [auth]; the source directory also holds a regular
    file. *)
Definition stale_page : world :=
  World (Sample.goryudoc
           [("documentation", Fs.Dir [("middleware", Fs.Dir
              [("auth", Fs.Dir [("README.md", Fs.File "# Auth")]);
               ("notes.txt", Fs.File "todo")])]);
            ("docs", Fs.Dir
              [Sample.config;
               ("middleware", Fs.Dir [("old.md", Fs.File "# Old");
                                      ("auth.md", Fs.File "outdated")])])]) [].

(** The first source is there; the third is a directory. *)
Definition db_readme_is_directory : world :=
  World (Sample.goryudoc
           [("documentation", Fs.Dir
              [("client", Fs.Dir [("README.md", Fs.File "# Client")]);
               ("db", Fs.Dir [("README.md", Fs.Dir [])]);
               ("tutorial.md", Fs.File "# Tutorial")]);
            ("docs", Fs.Dir [])]) [].

(** No source is there, and [docs/core] is a regular file. *)
Definition core_is_a_file : world :=
  World (Sample.goryudoc
           [("documentation", Fs.Dir []);
            ("docs", Fs.Dir [("core", Fs.File "notes")])]) [].


End Cases.

(** * Supporting lemmas *)

(** ** The examples of the specification *)

(** [auth/README.md] with [# Auth] and an empty [empty/]: the target ends
    up with [auth.md] holding [# Auth], no [empty.md], and an index that
    lists [auth] only. *)
Example auth_and_empty_migrated :
  let w' := (exec Migrate.main Sample.auth_and_empty).2 in
  Fs.file_at (page_path "auth") (fs w') = Some "# Auth"
  /\ Fs.existsSync (page_path "empty") (fs w') = false
  /\ Fs.file_at index_md (fs w')
     = Some (Migrate.heading +:+ "- [auth](/middleware/auth)" +:+ LF)
  /\ stdout w' = ["Migrated auth"; "Middleware List for Sidebar:"; JSON_stringify ["auth"]].
Proof. cbv zeta. split_and!; vm_compute; reflexivity. Qed.

(** Two of the ten sources exist: they are copied, and each of the eight
    others gets one warning. *)
Example two_sources_copied :
  let '(t, r, w') := exec MigrateRemaining.main Sample.two_sources in
  r = Return tt
  /\ writes t = [(MigrateRemaining.destPath (MigrateRemaining.Mapping
                     "documentation/goryuctx/README.md" "docs/core/context.md"),
                  "# Context");
                 (MigrateRemaining.destPath Sample.tutorial, "# Tutorial")]
  /\ stdout w'
     = ["WARNING: Source not found: documentation/client/README.md";
        "WARNING: Source not found: documentation/config/README.md";
        "WARNING: Source not found: documentation/db/README.md";
        "Migrated documentation/goryuctx/README.md -> docs/core/context.md";
        "WARNING: Source not found: documentation/monitoring/README.md";
        "WARNING: Source not found: documentation/monitoring/UI_README.md";
        "WARNING: Source not found: documentation/plugins/README.md";
        "WARNING: Source not found: documentation/router/builder/README.md";
        "Migrated documentation/tutorial.md -> docs/guide/tutorial.md";
        "WARNING: Source not found: documentation/route/README.md"].
Proof. vm_compute. split_and!; reflexivity. Qed.

(** ** Decoding well-formed text *)

Lemma utf8_valid_to_text_len (n : nat) :
  forall s, String.length s <= n -> Utf8.valid s = true -> Utf8.to_text s = s.
Proof.
  induction n as [n IH] using lt_wf_ind.
  intros [|b0 r0] Hlen Hv; [reflexivity|].
  cbn [Utf8.valid Utf8.to_text] in *. cbn [String.length] in Hlen.
  destruct (in_range 0 127 b0).
  { f_equal. apply (IH (String.length r0)); [lia|lia|exact Hv]. }
  destruct (in_range 194 223 b0).
  { destruct r0 as [|b1 r1]; [discriminate|].
    apply andb_prop in Hv as [-> Hv]. cbn [String.length] in Hlen.
    do 2 f_equal. apply (IH (String.length r1)); [lia|lia|exact Hv]. }
  destruct (in_range 224 239 b0).
  { destruct r0 as [|b1 [|b2 r2]]; try discriminate.
    apply andb_prop in Hv as [Hv Hv2]. apply andb_prop in Hv as [-> ->].
    cbn [String.length] in Hlen.
    do 3 f_equal. apply (IH (String.length r2)); [lia|lia|exact Hv2]. }
  destruct (in_range 240 244 b0); [|discriminate].
  destruct r0 as [|b1 [|b2 [|b3 r3]]]; try discriminate.
  apply andb_prop in Hv as [Hv Hv3]. apply andb_prop in Hv as [Hv ->].
  apply andb_prop in Hv as [-> ->]. cbn [String.length] in Hlen.
  do 4 f_equal. apply (IH (String.length r3)); [lia|lia|exact Hv3].
Qed.

(** Reading well-formed UTF-8 as text and writing the text back gives the
    same bytes. *)
Lemma utf8_valid_to_text (s : string) :
  Utf8.valid s = true -> Utf8.to_text s = s.
Proof. apply (utf8_valid_to_text_len (String.length s)). lia. Qed.

(** ** Paths built from entry names *)

Lemma string_app_cons (x : ascii) (a b : string) :
  String x a +:+ b = String x (a +:+ b).
Proof. reflexivity. Qed.

Lemma string_app_assoc (a b c : string) : (a +:+ b) +:+ c = a +:+ (b +:+ c).
Proof.
  induction a as [|x a IH]; [reflexivity|].
  rewrite !string_app_cons. by rewrite IH.
Qed.

Lemma string_app_nil_r (a : string) : a +:+ "" = a.
Proof.
  induction a as [|x a IH]; [reflexivity|].
  rewrite string_app_cons. by rewrite IH.
Qed.

Lemma segments_no_slash (s cur : string) :
  no_slash s = true -> Path.segments cur s = [cur +:+ s].
Proof.
  revert cur. induction s as [|c r IH]; intros cur H; cbn.
  - by rewrite string_app_nil_r.
  - cbn in H. apply andb_prop in H as [Hc Hr].
    destruct (Ascii.eqb c Path.SLASH); [discriminate|].
    rewrite IH by exact Hr. f_equal.
    change (String c r) with (String c "" +:+ r). by rewrite string_app_assoc.
Qed.

Lemma join_entry_name (p : path) (s : string) :
  Path.entry_name s = true -> Path.join p s = p ++ [s].
Proof.
  unfold Path.entry_name, Path.join, Path.normalize. intros H.
  apply andb_prop in H as [H Hs]. apply andb_prop in H as [H H2].
  apply andb_prop in H as [H0 H1].
  rewrite segments_no_slash by exact Hs. change ("" +:+ s) with s.
  cbn [fold_left]. unfold Path.step.
  destruct (String.eqb s ""); [discriminate|].
  destruct (String.eqb s "."); [discriminate|].
  destruct (String.eqb s ".."); [discriminate|]. reflexivity.
Qed.

Lemma no_slash_app (a b : string) :
  no_slash (a +:+ b) = no_slash a && no_slash b.
Proof.
  induction a as [|x a IH]; [reflexivity|].
  rewrite string_app_cons. unfold no_slash in *. cbn [list_ascii_of_string forallb].
  rewrite IH. by rewrite andb_assoc.
Qed.

Lemma string_app_length (a b : string) :
  String.length (a +:+ b) = String.length a + String.length b.
Proof. induction a as [|x a IH]; simpl; [reflexivity|]. f_equal. exact IH. Qed.

(** The page of a topic has a proper name when the topic has. *)
Lemma entry_name_md (mw : string) :
  Path.entry_name mw = true -> Path.entry_name (mw +:+ ".md") = true.
Proof.
  unfold Path.entry_name. intros H.
  apply andb_prop in H as [H Hs]. fold (no_slash mw) in Hs.
  fold (no_slash (mw +:+ ".md")). rewrite no_slash_app, Hs.
  assert (Hlen : 3 <= String.length (mw +:+ ".md"))
    by (rewrite string_app_length; cbn; lia).
  destruct (String.eqb_spec (mw +:+ ".md") "") as [E|_];
    [rewrite E in Hlen; cbn in Hlen; lia|].
  destruct (String.eqb_spec (mw +:+ ".md") ".") as [E|_];
    [rewrite E in Hlen; cbn in Hlen; lia|].
  destruct (String.eqb_spec (mw +:+ ".md") "..") as [E|_];
    [rewrite E in Hlen; cbn in Hlen; lia|].
  reflexivity.
Qed.

Lemma string_app_inj_r (a b c : string) : a +:+ c = b +:+ c -> a = b.
Proof.
  revert b. induction a as [|x a IH]; intros [|y b] H.
  - reflexivity.
  - apply (f_equal String.length) in H.
    rewrite !string_app_length in H. cbn in H. lia.
  - apply (f_equal String.length) in H.
    rewrite !string_app_length in H. cbn in H. lia.
  - rewrite !string_app_cons in H. injection H as -> H. f_equal. by apply IH.
Qed.

(** ** Laws of the tree model *)

Lemma assoc_set_entry_eq (c : string) (v : Fs.node) es :
  Fs.assoc c (Fs.set_entry c v es) = Some v.
Proof.
  induction es as [|[k m] es IH]; cbn.
  - by rewrite String.eqb_refl.
  - destruct (String.eqb_spec k c) as [->|Hne]; cbn.
    + by rewrite String.eqb_refl.
    + destruct (String.eqb_spec k c); [done|exact IH].
Qed.

Lemma assoc_set_entry_ne (c x : string) (v : Fs.node) es :
  x <> c -> Fs.assoc x (Fs.set_entry c v es) = Fs.assoc x es.
Proof.
  intros Hne. induction es as [|[k m] es IH]; cbn.
  - destruct (String.eqb_spec c x); [congruence|done].
  - destruct (String.eqb_spec k c) as [->|Hkc]; cbn.
    + destruct (String.eqb_spec c x); [congruence|done].
    + destruct (String.eqb_spec k x); [done|exact IH].
Qed.

Lemma walk_app (p q : path) (n : Fs.node) :
  Fs.walk (p ++ q) n
  = match Fs.walk p n with Return m => Fs.walk q m | Throw e => Throw e end.
Proof.
  revert n. induction p as [|c p IH]; intros n; cbn; [done|].
  destruct n as [d|es]; [done|]. destruct (Fs.assoc c es); [apply IH|done].
Qed.

Lemma unsnoc_snoc (p : path) (c : string) : Fs.unsnoc (p ++ [c]) = Some (p, c).
Proof. induction p as [|x p IH]; cbn; [done|]. by rewrite IH. Qed.

Lemma unsnoc_Some (q p : path) (c : string) :
  Fs.unsnoc q = Some (p, c) -> q = p ++ [c].
Proof.
  revert p. induction q as [|x q IH]; intros p; cbn; [done|].
  destruct (Fs.unsnoc q) as [[q' l]|] eqn:E.
  - intros [= <- <-]. cbn. f_equal. by apply IH.
  - intros [= <- <-]. destruct q; [done|]. cbn in E.
    destruct (Fs.unsnoc q) as [[? ?]|]; discriminate.
Qed.

Lemma apart_sym (p q : path) : apart p q -> apart q p.
Proof. unfold apart. tauto. Qed.

Lemma apart_cons (x : string) (p q : path) : apart (x :: p) (x :: q) -> apart p q.
Proof.
  intros [H1 H2]. split; intros H; [apply H1|apply H2]; by apply prefix_cons.
Qed.

Lemma apart_app_r (p q r : path) : apart p q -> apart p (q ++ r).
Proof.
  intros [H1 H2]. split; intros H.
  - destruct (prefix_weak_total p q (q ++ r)) as [?|?];
      [done|by apply prefix_app_r|done|done].
  - apply H2. by eapply prefix_app_l.
Qed.

Lemma apart_app (p q a b : path) : apart p q -> apart (p ++ a) (q ++ b).
Proof. intros H. apply apart_app_r, apart_sym, apart_app_r, apart_sym, H. Qed.

(** A write changes nothing apart from the path written. *)
Lemma put_walk_apart (p : path) (c d : string) :
  forall n n' q, Fs.put p c d n = Return n' -> apart q (p ++ [c]) ->
                 Fs.walk q n' = Fs.walk q n.
Proof.
  induction p as [|x p IH]; intros [d0|es] n' q H Hq; cbn in H; try done.
  - assert (n' = Fs.Dir (Fs.set_entry c (Fs.File d) es)) as ->
        by (destruct (Fs.assoc c es) as [[?|?]|]; congruence).
    destruct q as [|y r]; [destruct Hq as [Hq _]; destruct Hq; apply prefix_nil|].
    cbn. rewrite assoc_set_entry_ne; [done|].
    intros ->. destruct Hq as [_ Hq]. apply Hq.
    apply (prefix_cons c [] r), prefix_nil.
  - destruct (Fs.assoc x es) as [m|] eqn:Ex; [|done].
    destruct (Fs.put p c d m) as [m'|] eqn:Ep; [|done].
    injection H as <-.
    destruct q as [|y r]; [destruct Hq as [Hq _]; destruct Hq; apply prefix_nil|].
    cbn. destruct (decide (y = x)) as [->|Hne].
    + rewrite assoc_set_entry_eq, Ex. eapply IH; [done|]. by eapply apart_cons.
    + by rewrite assoc_set_entry_ne.
Qed.

(** After a write the file is there, with what was written; no other file
    changes. *)
Lemma put_file_at (p : path) (c d : string) :
  forall n n' q, Fs.put p c d n = Return n' ->
                 Fs.file_at q n' = if decide (q = p ++ [c]) then Some d else Fs.file_at q n.
Proof.
  unfold Fs.file_at.
  induction p as [|x p IH]; intros [d0|es] n' q H; cbn in H; try done.
  - assert (n' = Fs.Dir (Fs.set_entry c (Fs.File d) es)
            /\ forall es0, Fs.assoc c es <> Some (Fs.Dir es0)) as [-> Hc]
        by (destruct (Fs.assoc c es) as [[?|?]|]; split; congruence).
    destruct q as [|y r]; cbn; [by case_decide|].
    destruct (decide (y = c)) as [->|Hne].
    + rewrite assoc_set_entry_eq. destruct r as [|z r]; cbn.
      * by rewrite decide_True.
      * rewrite decide_False by congruence.
        destruct (Fs.assoc c es) as [[?|?]|] eqn:E; [done| |done].
        by destruct (Hc entries).
    + rewrite assoc_set_entry_ne by done. rewrite decide_False by congruence. done.
  - destruct (Fs.assoc x es) as [m|] eqn:Ex; [|done].
    destruct (Fs.put p c d m) as [m'|] eqn:Ep; [|done].
    injection H as <-.
    destruct q as [|y r]; cbn; [by case_decide|].
    destruct (decide (y = x)) as [->|Hne].
    + rewrite assoc_set_entry_eq, Ex, (IH _ _ r Ep).
      repeat case_decide; simplify_eq; done.
    + rewrite assoc_set_entry_ne by done. rewrite decide_False by congruence. done.
Qed.

(** A write neither makes nor removes a directory. *)
Lemma put_is_dir (p : path) (c d : string) :
  forall n n' q, Fs.put p c d n = Return n' -> Fs.is_dir q n' = Fs.is_dir q n.
Proof.
  unfold Fs.is_dir.
  induction p as [|x p IH]; intros [d0|es] n' q H; cbn in H; try done.
  - assert (n' = Fs.Dir (Fs.set_entry c (Fs.File d) es)
            /\ forall es0, Fs.assoc c es <> Some (Fs.Dir es0)) as [-> Hc]
        by (destruct (Fs.assoc c es) as [[?|?]|]; split; congruence).
    destruct q as [|y r]; cbn; [done|].
    destruct (decide (y = c)) as [->|Hne].
    + rewrite assoc_set_entry_eq.
      destruct (Fs.assoc c es) as [[?|?]|] eqn:E.
      * destruct r; done.
      * by destruct (Hc entries).
      * destruct r; done.
    + by rewrite assoc_set_entry_ne.
  - destruct (Fs.assoc x es) as [m|] eqn:Ex; [|done].
    destruct (Fs.put p c d m) as [m'|] eqn:Ep; [|done].
    injection H as <-.
    destruct q as [|y r]; cbn; [done|].
    destruct (decide (y = x)) as [->|Hne].
    + rewrite assoc_set_entry_eq, Ex. by eapply IH.
    + by rewrite assoc_set_entry_ne.
Qed.

(** Whether a write goes through, and how it fails, is decided by what is
    at the directory and at the path. *)
Lemma put_thrown (p : path) (c d : string) :
  forall n, thrown (Fs.put p c d n)
            = match Fs.statIsDirectory p n with
              | Throw e => Some e
              | Return false => Some ENOTDIR
              | Return true => if Fs.is_dir (p ++ [c]) n then Some EISDIR else None
              end.
Proof.
  unfold Fs.statIsDirectory, Fs.is_dir.
  induction p as [|x p IH]; intros [d0|es]; cbn; try done.
  - destruct (Fs.assoc c es) as [[?|?]|]; done.
  - destruct (Fs.assoc x es) as [m|] eqn:Ex; [|done].
    rewrite <- IH. destruct (Fs.put p c d m); done.
Qed.

Lemma writeFileSync_snoc (p : path) (c d : string) (n : Fs.node) :
  Fs.writeFileSync (p ++ [c]) d n = Fs.put p c d n.
Proof. unfold Fs.writeFileSync. by rewrite unsnoc_snoc. Qed.

Lemma writeFileSync_file_at (p : path) (d : string) (n n' : Fs.node) (q : path) :
  Fs.writeFileSync p d n = Return n' ->
  Fs.file_at q n' = if decide (q = p) then Some d else Fs.file_at q n.
Proof.
  unfold Fs.writeFileSync. destruct (Fs.unsnoc p) as [[dir c]|] eqn:E; [|done].
  apply unsnoc_Some in E as ->. apply put_file_at.
Qed.

Lemma writeFileSync_is_dir (p : path) (d : string) (n n' : Fs.node) (q : path) :
  Fs.writeFileSync p d n = Return n' -> Fs.is_dir q n' = Fs.is_dir q n.
Proof.
  unfold Fs.writeFileSync. destruct (Fs.unsnoc p) as [[dir c]|] eqn:E; [|done].
  apply put_is_dir.
Qed.

(** Creating directories along [p] changes nothing apart from [p]. *)
Lemma mkdir_walk_apart (p : path) :
  forall n n' q, Fs.mkdirSync p n = Return n' -> apart q p ->
                 Fs.walk q n' = Fs.walk q n.
Proof.
  induction p as [|c p IH]; intros [d0|es] n' q H Hq; cbn in H; try done.
  - by injection H as <-.
  - destruct (Fs.mkdirSync p _) as [m'|] eqn:Ep; [|done]. injection H as <-.
    destruct q as [|y r]; [destruct Hq as [Hq _]; destruct Hq; apply prefix_nil|].
    cbn. destruct (decide (y = c)) as [->|Hne].
    + rewrite assoc_set_entry_eq. apply apart_cons in Hq.
      rewrite (IH _ _ r Ep Hq). destruct (Fs.assoc c es); [done|].
      destruct r as [|z r]; [destruct Hq as [Hq _]; destruct Hq; apply prefix_nil|].
      done.
    + by rewrite assoc_set_entry_ne.
Qed.

(** It creates no file and hides none. *)
Lemma mkdir_file_at (p : path) :
  forall n n' q, Fs.mkdirSync p n = Return n' -> Fs.file_at q n' = Fs.file_at q n.
Proof.
  unfold Fs.file_at.
  induction p as [|c p IH]; intros [d0|es] n' q H; cbn in H; try done.
  - by injection H as <-.
  - destruct (Fs.mkdirSync p _) as [m'|] eqn:Ep; [|done]. injection H as <-.
    destruct q as [|y r]; cbn; [done|].
    destruct (decide (y = c)) as [->|Hne].
    + rewrite assoc_set_entry_eq, (IH _ _ r Ep).
      destruct (Fs.assoc c es); [done|]. destruct r; done.
    + by rewrite assoc_set_entry_ne.
Qed.

(** Afterwards the directory is there. *)
Lemma mkdir_is_dir (p : path) :
  forall n n', Fs.mkdirSync p n = Return n' -> Fs.is_dir p n' = true.
Proof.
  unfold Fs.is_dir.
  induction p as [|c p IH]; intros [d0|es] n' H; cbn in H; try done.
  - by injection H as <-.
  - destruct (Fs.mkdirSync p _) as [m'|] eqn:Ep; [|done]. injection H as <-.
    cbn. rewrite assoc_set_entry_eq. by eapply IH.
Qed.

(** Well-formedness reaches every node of the tree. *)
Lemma wf_assoc (c : string) (m : Fs.node) es :
  forallb (fun e => Fs.wf (snd e)) es = true -> Fs.assoc c es = Some m ->
  Fs.wf m = true.
Proof.
  induction es as [|[k v] es IH]; cbn; [done|].
  intros [Hv Hes]%andb_prop. destruct (String.eqb k c); [|by apply IH].
  by intros [= <-].
Qed.

Lemma wf_walk (p : path) :
  forall n m, Fs.wf n = true -> Fs.walk p n = Return m -> Fs.wf m = true.
Proof.
  induction p as [|c p IH]; intros n m Hn H; cbn in H.
  - by injection H as <-.
  - destruct n as [d|es]; [done|]. destruct (Fs.assoc c es) as [n'|] eqn:E; [|done].
    eapply IH; [|done]. cbn in Hn. apply andb_prop in Hn as [_ Hn].
    by eapply wf_assoc.
Qed.

Lemma wf_listing (p : path) (n : Fs.node) (names : list string) :
  Fs.wf n = true -> Fs.readdirSync p n = Return names ->
  Forall (fun x => Path.entry_name x = true) names.
Proof.
  unfold Fs.readdirSync. intros Hn H.
  destruct (Fs.walk p n) as [[d|es]|] eqn:E; try done. injection H as <-.
  apply wf_walk in E; [|done]. cbn in E.
  apply andb_prop in E as [E _]. apply andb_prop in E as [E _].
  apply Forall_forall. intros x Hx. rewrite forallb_forall in E.
  apply E. by apply list_elem_of_In.
Qed.

(** ** Running programs *)

Section RunLaws.

Context {W : Type}.
Variable handle : forall R, call R -> W -> outcome R * W.

Lemma run_bind {A B} (m : prog A) (f : A -> prog B) (w : W) :
  run handle (m ≫= f) w
  = match run handle m w with
    | (t, Return a, w') =>
      let '(t2, r2, w2) := run handle (f a) w' in (t ++ t2, r2, w2)
    | (t, Throw e, w') => (t, Throw e, w')
    end.
Proof.
  unfold mbind, prog_mbind. revert w.
  induction m as [a|R c k IH]; intros w; cbn.
  - by destruct (run handle (f a) w) as [[? ?] ?].
  - destruct (handle R c w) as [[x|e] w']; [|done].
    rewrite IH. destruct (run handle (k x) w') as [[t [a|e]] w'']; [|done].
    by destruct (run handle (f a) w'') as [[? ?] ?].
Qed.

Lemma run_perform {R} (c : call R) (w : W) :
  run handle (perform c) w
  = ([event_of c (handle R c w).1], (handle R c w).1, (handle R c w).2).
Proof. cbn. by destruct (handle R c w) as [[x|e] w']. Qed.

Lemma run_ret {A} (a : A) (w : W) : run handle (mret a) w = ([], Return a, w).
Proof. reflexivity. Qed.

Lemma run_forEach_cons {A S} (x : A) (l : list A) (body : A -> S -> prog S)
      (s : S) (w : W) :
  run handle (forEach (x :: l) body s) w
  = match run handle (body x s) w with
    | (t, Return s', w') =>
      let '(t2, r2, w2) := run handle (forEach l body s') w' in (t ++ t2, r2, w2)
    | (t, Throw e, w') => (t, Throw e, w')
    end.
Proof. cbn [forEach]. apply run_bind. Qed.

(** A failed call is the last call of a run, and its error is the run's
    result. *)
Lemma run_failure_last {A} (m : prog A) :
  forall w t r w' t1 ev e t2,
    run handle m w = (t, r, w') -> t = t1 ++ ev :: t2 -> failure ev = Some e ->
    t2 = [] /\ r = Throw e.
Proof.
  induction m as [a|R c k IH]; intros w t r w' t1 ev e t2 Hrun Ht He; cbn in Hrun.
  - injection Hrun as <- _ _. by destruct t1.
  - destruct (handle R c w) as [[x|e0] w0].
    + destruct (run handle (k x) w0) as [[t0 r0] w1] eqn:Hk.
      injection Hrun as <- <- <-.
      destruct t1 as [|ev1 t1]; cbn in Ht.
      * injection Ht as <- <-. destruct c; cbn in He; discriminate.
      * injection Ht as _ Ht. eapply IH; eauto.
    + injection Hrun as <- <- <-.
      destruct t1 as [|ev1 t1]; cbn in Ht.
      * injection Ht as <- <-. split; [done|].
        destruct c; cbn in He; by injection He as ->.
      * injection Ht as _ Ht. by destruct t1.
Qed.

(** A run that throws ends with the call that failed. *)
Lemma run_throw_last {A} (m : prog A) :
  forall w t e w',
    run handle m w = (t, Throw e, w') ->
    exists t1 ev, t = t1 ++ [ev] /\ failure ev = Some e.
Proof.
  induction m as [a|R c k IH]; intros w t e w' Hrun; cbn in Hrun; [done|].
  destruct (handle R c w) as [[x|e0] w0].
  - destruct (run handle (k x) w0) as [[t0 r0] w1] eqn:Hk.
    injection Hrun as <- -> <-.
    destruct (IH _ _ _ _ _ Hk) as (t1 & ev & -> & He).
    by exists (event_of c (Return x) :: t1), ev.
  - injection Hrun as <- <- <-. exists [], (event_of c (Throw e0)).
    split; [done|]. by destruct c.
Qed.

End RunLaws.

(** ** Runs over the tree model *)

Lemma last_write_app (ws1 ws2 : list (path * string)) q o :
  last_write (ws1 ++ ws2) q o = last_write ws2 q (last_write ws1 q o).
Proof. apply fold_left_app. Qed.

Lemma last_write_cons (p : path) (d : string) ws q o :
  last_write ((p, d) :: ws) q o
  = last_write ws q (if decide (q = p) then Some d else o).
Proof. reflexivity. Qed.

Lemma last_write_cases (ws : list (path * string)) (q : path) :
  (forall o, last_write ws q o = o) \/ (exists d, forall o, last_write ws q o = Some d).
Proof.
  induction ws as [|[p d] ws IH]; [by left|].
  destruct IH as [IH|[d' IH]].
  - destruct (decide (q = p)) as [->|Hne].
    + right. exists d. intros o. rewrite last_write_cons, IH. by rewrite decide_True.
    + left. intros o. rewrite last_write_cons, IH. by rewrite decide_False.
  - right. exists d'. intros o. rewrite last_write_cons. apply IH.
Qed.

Lemma last_write_idem (ws : list (path * string)) (q : path) (o : option string) :
  last_write ws q (last_write ws q o) = last_write ws q o.
Proof. destruct (last_write_cases ws q) as [H|[d H]]; by rewrite !H. Qed.

(** Writes to other paths do not count. *)
Lemma last_write_other (ws : list (path * string)) (q : path) (o : option string) :
  Forall (fun pd => pd.1 <> q) ws -> last_write ws q o = o.
Proof.
  intros H. revert o. induction H as [|[p d] ws Hp _ IH]; intros o; [done|].
  rewrite last_write_cons. rewrite decide_False by (cbn in Hp; congruence). apply IH.
Qed.

(** If every write to [q] carries [d] and there is one, [q] holds [d]. *)
Lemma last_write_same_or (ws : list (path * string)) (q : path) (d : string) :
  Forall (fun pd => pd.1 = q -> pd.2 = d) ws ->
  forall o, o = Some d \/ (exists pd, pd ∈ ws /\ pd.1 = q) ->
            last_write ws q o = Some d.
Proof.
  induction 1 as [|[p d'] ws Hp _ IH]; intros o Ho.
  - destruct Ho as [->|[pd [Hin _]]]; [done|]. by apply elem_of_nil in Hin.
  - rewrite last_write_cons. apply IH. cbn in Hp.
    destruct (decide (q = p)) as [->|Hne]; [left; by rewrite Hp|].
    destruct Ho as [->|[pd [Hin Hq]]]; [by left|right].
    exists pd. split; [|done].
    apply elem_of_cons in Hin as [->|Hin]; [cbn in Hq; congruence|done].
Qed.

Lemma last_write_same (ws : list (path * string)) (q : path) (d : string) o :
  Forall (fun pd => pd.1 = q -> pd.2 = d) ws -> (exists pd, pd ∈ ws /\ pd.1 = q) ->
  last_write ws q o = Some d.
Proof. intros H Hex. apply last_write_same_or; [done|by right]. Qed.

Lemma writes_app (t1 t2 : list event) : writes (t1 ++ t2) = writes t1 ++ writes t2.
Proof. apply omap_app. Qed.

Lemma printed_app (t1 t2 : list event) : printed (t1 ++ t2) = printed t1 ++ printed t2.
Proof. apply omap_app. Qed.

Lemma mkdirs_app (t1 t2 : list event) : mkdirs (t1 ++ t2) = mkdirs t1 ++ mkdirs t2.
Proof. apply omap_app. Qed.

(** Whatever the script and however its run ends, the files on disk are
    the files that were there, overwritten by the writes that went
    through. *)
Lemma exec_file_at {A} (m : prog A) :
  forall w t r w' q,
    exec m w = (t, r, w') ->
    Fs.file_at q (fs w') = last_write (writes t) q (Fs.file_at q (fs w)).
Proof.
  unfold exec.
  induction m as [a|R c k IH]; intros w t r w' q Hrun; cbn in Hrun.
  - by injection Hrun as <- _ <-.
  - destruct (node_handle R c w) as [[x|e] w0] eqn:Hc.
    + destruct (run node_handle (k x) w0) as [[t0 r0] w1] eqn:Hk.
      injection Hrun as <- <- <-.
      rewrite (IH _ _ _ _ _ q Hk). clear IH Hk.
      destruct c; cbn in Hc.
      * by injection Hc as _ <-.
      * destruct (Fs.mkdirSync p (fs w)) as [n|] eqn:E; [|done].
        injection Hc as _ <-. cbn. by rewrite (mkdir_file_at _ _ _ q E).
      * by injection Hc as _ <-.
      * by injection Hc as _ <-.
      * by injection Hc as _ <-.
      * destruct (Fs.writeFileSync p data (fs w)) as [n|] eqn:E; [|done].
        injection Hc as <- <-. cbn. by rewrite (writeFileSync_file_at _ _ _ _ q E).
      * by injection Hc as _ <-.
    + injection Hrun as <- <- <-.
      assert (fs w0 = fs w) as ->; [|by destruct c].
      destruct c; cbn in Hc; try discriminate; try (by injection Hc as _ <-).
      * destruct (Fs.mkdirSync p (fs w)); [done|]. by injection Hc as _ <-.
      * destruct (Fs.writeFileSync p data (fs w)); [done|]. by injection Hc as _ <-.
Qed.

(** Standard output grows by the lines printed. *)
Lemma exec_stdout {A} (m : prog A) :
  forall w t r w', exec m w = (t, r, w') -> stdout w' = stdout w ++ printed t.
Proof.
  unfold exec.
  induction m as [a|R c k IH]; intros w t r w' Hrun; cbn in Hrun.
  - injection Hrun as <- _ <-. by rewrite app_nil_r.
  - destruct (node_handle R c w) as [[x|e] w0] eqn:Hc.
    + destruct (run node_handle (k x) w0) as [[t0 r0] w1] eqn:Hk.
      injection Hrun as <- <- <-.
      rewrite (IH _ _ _ _ _ Hk). clear IH Hk.
      destruct c; cbn in Hc; try (by injection Hc as _ <-).
      * destruct (Fs.mkdirSync p (fs w)); [|done]. by injection Hc as _ <-.
      * destruct (Fs.writeFileSync p data (fs w)); [|done]. by injection Hc as <- <-.
      * injection Hc as <- <-. cbn. by rewrite <- app_assoc.
    + injection Hrun as <- <- <-.
      assert (stdout w0 = stdout w) as ->.
      { destruct c; cbn in Hc; try discriminate; try (by injection Hc as _ <-).
        * destruct (Fs.mkdirSync p (fs w)); [done|]. by injection Hc as _ <-.
        * destruct (Fs.writeFileSync p data (fs w)); [done|]. by injection Hc as _ <-. }
      destruct c; cbn; by rewrite app_nil_r.
Qed.

(** Only [mkdirSync] makes a directory. *)
Lemma exec_is_dir {A} (m : prog A) :
  forall w t r w' q,
    exec m w = (t, r, w') -> mkdirs t = [] ->
    Fs.is_dir q (fs w') = Fs.is_dir q (fs w).
Proof.
  unfold exec.
  induction m as [a|R c k IH]; intros w t r w' q Hrun Hmk; cbn in Hrun.
  - by injection Hrun as _ _ <-.
  - destruct (node_handle R c w) as [[x|e] w0] eqn:Hc.
    + destruct (run node_handle (k x) w0) as [[t0 r0] w1] eqn:Hk.
      injection Hrun as <- <- <-.
      assert (mkdirs t0 = [] /\ Fs.is_dir q (fs w0) = Fs.is_dir q (fs w)) as [Ht0 <-].
      { destruct c; cbn in Hc, Hmk; try done; try (by injection Hc as _ <-).
        destruct (Fs.writeFileSync p data (fs w)) as [n|] eqn:E; [|done].
        injection Hc as _ <-. split; [done|]. by eapply writeFileSync_is_dir. }
      by eapply IH.
    + injection Hrun as _ _ <-.
      destruct c; cbn in Hc; try discriminate; try (by injection Hc as _ <-).
      * destruct (Fs.mkdirSync p (fs w)); [done|]. by injection Hc as _ <-.
      * destruct (Fs.writeFileSync p data (fs w)); [done|]. by injection Hc as _ <-.
Qed.

Arguments Fs.walk : simpl never.
Arguments Fs.existsSync : simpl never.
Arguments Fs.statIsDirectory : simpl never.
Arguments Fs.readdirSync : simpl never.
Arguments Fs.readFileSync : simpl never.
Arguments Fs.writeFileSync : simpl never.
Arguments Fs.mkdirSync : simpl never.
Arguments Fs.file_at : simpl never.
Arguments Fs.is_dir : simpl never.

Lemma stat_is_dir (p : path) (n : Fs.node) :
  Fs.statIsDirectory p n = Return true <-> Fs.is_dir p n = true.
Proof.
  unfold Fs.statIsDirectory, Fs.is_dir.
  destruct (Fs.walk p n) as [[?|?]|]; split; done.
Qed.

Lemma exists_file_at (p : path) (n : Fs.node) (d : string) :
  Fs.file_at p n = Some d -> Fs.existsSync p n = true.
Proof.
  unfold Fs.file_at, Fs.existsSync. by destruct (Fs.walk p n) as [[?|?]|].
Qed.

Lemma read_file_at (p : path) (n : Fs.node) (c : string) :
  Fs.readFileSync p n = Return c <->
  exists d, Fs.file_at p n = Some d /\ c = Utf8.to_text d.
Proof.
  unfold Fs.file_at, Fs.readFileSync.
  destruct (Fs.walk p n) as [[d|?]|]; split; try done.
  - intros [= <-]. by exists d.
  - by intros [d' [[= <-] ->]].
  - by intros [d' [? _]].
  - by intros [d' [? _]].
Qed.

(** ** The primary script: paths *)

Lemma sourceDir_eq :
  Migrate.sourceDir
  = ["Users"; "arthur"; "Documents"; "personal"; "goryudoc"; "documentation";
     "middleware"].
Proof. reflexivity. Qed.

Lemma targetDir_eq :
  Migrate.targetDir
  = ["Users"; "arthur"; "Documents"; "personal"; "goryudoc"; "docs"; "middleware"].
Proof. reflexivity. Qed.

Lemma configPath_eq :
  Migrate.configPath
  = ["Users"; "arthur"; "Documents"; "personal"; "goryudoc"; "docs"; ".vitepress";
     "config.mts"].
Proof. reflexivity. Qed.

Lemma source_apart_target : apart Migrate.sourceDir Migrate.targetDir.
Proof. apply (bool_decide_unpack _). by vm_compute. Qed.

Lemma config_apart_target : apart Migrate.configPath Migrate.targetDir.
Proof. apply (bool_decide_unpack _). by vm_compute. Qed.

Lemma index_path : Path.join Migrate.targetDir "index.md" = Migrate.targetDir ++ ["index.md"].
Proof. reflexivity. Qed.

#[local] Opaque Migrate.sourceDir Migrate.targetDir Migrate.configPath.

(** One turn of the loop, call by call. *)
Lemma exec_migrate_one (w : world) (mw : string) (acc : list string) :
  Path.entry_name mw = true ->
  exec (Migrate.migrate_one mw acc) w
  = let mwPath := Migrate.sourceDir ++ [mw] in
    let readmePath := Migrate.sourceDir ++ [mw; "README.md"] in
    match Fs.statIsDirectory mwPath (fs w) with
    | Throw e => ([EvStat mwPath (Throw e)], Throw e, w)
    | Return false => ([EvStat mwPath (Return false)], Return acc, w)
    | Return true =>
      if Fs.existsSync readmePath (fs w) then
        match Fs.readFileSync readmePath (fs w) with
        | Throw e =>
          ([EvStat mwPath (Return true); EvExists readmePath (Return true);
            EvRead readmePath (Throw e)], Throw e, w)
        | Return content =>
          match Fs.writeFileSync (page_path mw) content (fs w) with
          | Throw e =>
            ([EvStat mwPath (Return true); EvExists readmePath (Return true);
              EvRead readmePath (Return content);
              EvWrite (page_path mw) content (Throw e)], Throw e, w)
          | Return n' =>
            ([EvStat mwPath (Return true); EvExists readmePath (Return true);
              EvRead readmePath (Return content);
              EvWrite (page_path mw) content (Return tt);
              EvLog ("Migrated " +:+ mw) (Return tt)],
             Return (acc ++ [mw]),
             {| fs := n'; stdout := stdout w ++ ["Migrated " +:+ mw] |})
          end
        end
      else
        ([EvStat mwPath (Return true); EvExists readmePath (Return false)],
         Return acc, w)
    end.
Proof.
  intros Hmw. unfold Migrate.migrate_one, exec, page_path.
  rewrite (join_entry_name _ mw Hmw).
  rewrite (join_entry_name _ "README.md" eq_refl).
  rewrite (join_entry_name _ _ (entry_name_md mw Hmw)).
  rewrite <- app_assoc. cbn [app].
  cbn [run perform mbind prog_mbind prog_bind node_handle event_of].
  destruct (Fs.statIsDirectory _ (fs w)) as [[|]|e]; [|done|done].
  cbn [run perform mbind prog_mbind prog_bind node_handle event_of].
  destruct (Fs.existsSync _ (fs w)); [|done].
  cbn [run perform mbind prog_mbind prog_bind node_handle event_of].
  destruct (Fs.readFileSync _ (fs w)) as [content|e]; [|done].
  cbn [run perform mbind prog_mbind prog_bind node_handle event_of].
  destruct (Fs.writeFileSync _ content (fs w)) as [n'|e]; [|done].
  reflexivity.
Qed.

(** ** What the primary script can tell apart *)

Lemma alike_refl (s : Fs.node) : alike s s.
Proof. by repeat split. Qed.

Lemma alike_sym (s t : Fs.node) : alike s t -> alike t s.
Proof. intros (H1 & H2 & H3). repeat split; intros; symmetry; auto. Qed.

Lemma alike_trans (s t u : Fs.node) : alike s t -> alike t u -> alike s u.
Proof.
  intros (H1 & H2 & H3) (K1 & K2 & K3). repeat split; intros.
  - by rewrite H1, K1.
  - by rewrite H2.
  - by rewrite H3.
Qed.

(** A page written into the target directory leaves the filesystem alike. *)
Lemma write_alike (c d : string) (n n' : Fs.node) :
  Fs.writeFileSync (Migrate.targetDir ++ [c]) d n = Return n' -> alike n n'.
Proof.
  rewrite writeFileSync_snoc. intros H. repeat split.
  - intros q Hq. symmetry. eapply put_walk_apart; [done|].
    by apply apart_app_r.
  - pose proof (put_thrown Migrate.targetDir c d n) as Ht. rewrite H in Ht. cbn in Ht.
    destruct (Fs.statIsDirectory Migrate.targetDir n) as [[|]|] eqn:E; try done.
    symmetry. apply stat_is_dir. rewrite (put_is_dir _ _ _ _ _ _ H).
    by apply stat_is_dir.
  - intros c'. symmetry. by eapply put_is_dir.
Qed.

(** Alike filesystems answer the script's questions alike. *)
Lemma alike_stat (s t : Fs.node) (q : path) :
  alike s t -> apart q Migrate.targetDir ->
  Fs.statIsDirectory q s = Fs.statIsDirectory q t.
Proof. intros (H & _) Hq. unfold Fs.statIsDirectory. by rewrite H. Qed.

Lemma alike_is_dir (s t : Fs.node) (q : path) :
  alike s t -> apart q Migrate.targetDir -> Fs.is_dir q s = Fs.is_dir q t.
Proof. intros (H & _) Hq. unfold Fs.is_dir. by rewrite H. Qed.

Lemma alike_exists (s t : Fs.node) (q : path) :
  alike s t -> apart q Migrate.targetDir -> Fs.existsSync q s = Fs.existsSync q t.
Proof. intros (H & _) Hq. unfold Fs.existsSync. by rewrite H. Qed.

Lemma alike_read (s t : Fs.node) (q : path) :
  alike s t -> apart q Migrate.targetDir -> Fs.readFileSync q s = Fs.readFileSync q t.
Proof. intros (H & _) Hq. unfold Fs.readFileSync. by rewrite H. Qed.

Lemma alike_file_at (s t : Fs.node) (q : path) :
  alike s t -> apart q Migrate.targetDir -> Fs.file_at q s = Fs.file_at q t.
Proof. intros (H & _) Hq. unfold Fs.file_at. by rewrite H. Qed.

Lemma alike_readdir (s t : Fs.node) (q : path) :
  alike s t -> apart q Migrate.targetDir -> Fs.readdirSync q s = Fs.readdirSync q t.
Proof. intros (H & _) Hq. unfold Fs.readdirSync. by rewrite H. Qed.

Lemma alike_write_thrown (s t : Fs.node) (c d : string) :
  alike s t ->
  thrown (Fs.writeFileSync (Migrate.targetDir ++ [c]) d s)
  = thrown (Fs.writeFileSync (Migrate.targetDir ++ [c]) d t).
Proof.
  intros (_ & H2 & H3). rewrite !writeFileSync_snoc, !put_thrown.
  by rewrite H2, H3.
Qed.

Lemma source_apart (r : path) : apart (Migrate.sourceDir ++ r) Migrate.targetDir.
Proof.
  rewrite <- (app_nil_r Migrate.targetDir). apply apart_app, source_apart_target.
Qed.

Lemma alike_migrated (s t : Fs.node) (mw : string) :
  alike s t -> migrated s mw = migrated t mw.
Proof.
  intros H. unfold migrated.
  rewrite (alike_is_dir s t) by (done || apply source_apart).
  by rewrite (alike_exists s t) by (done || apply source_apart).
Qed.

Lemma alike_page (s t : Fs.node) (mw : string) : alike s t -> page s mw = page t mw.
Proof.
  intros H. unfold page.
  by rewrite (alike_file_at s t) by (done || apply source_apart).
Qed.

(** One turn of the loop leaves the filesystem alike. *)
Lemma migrate_one_alike (w : world) (mw : string) (acc : list string) :
  Path.entry_name mw = true ->
  alike (fs w) (fs (exec (Migrate.migrate_one mw acc) w).2).
Proof.
  intros Hmw. rewrite exec_migrate_one by done. cbn zeta.
  destruct (Fs.statIsDirectory _ (fs w)) as [[|]|e]; try apply alike_refl.
  destruct (Fs.existsSync _ (fs w)); try apply alike_refl.
  destruct (Fs.readFileSync _ (fs w)) as [content|e]; try apply alike_refl.
  destruct (Fs.writeFileSync _ content (fs w)) as [n'|e] eqn:E; try apply alike_refl.
  cbn. by eapply write_alike.
Qed.

(** On alike filesystems it makes the same calls with the same results. *)
Lemma migrate_one_sim (w1 w2 : world) (mw : string) (acc : list string) :
  Path.entry_name mw = true -> alike (fs w1) (fs w2) ->
  (exec (Migrate.migrate_one mw acc) w1).1 = (exec (Migrate.migrate_one mw acc) w2).1.
Proof.
  intros Hmw H. rewrite !exec_migrate_one by done. cbn zeta.
  rewrite <- (alike_stat _ _ _ H (source_apart [mw])).
  destruct (Fs.statIsDirectory _ (fs w1)) as [[|]|e]; try done.
  rewrite <- (alike_exists _ _ _ H (source_apart [mw; "README.md"])).
  destruct (Fs.existsSync _ (fs w1)); try done.
  rewrite <- (alike_read _ _ _ H (source_apart [mw; "README.md"])).
  destruct (Fs.readFileSync _ (fs w1)) as [content|e]; try done.
  pose proof (alike_write_thrown _ _ (mw +:+ ".md") content H) as Hw.
  fold (page_path mw) in Hw.
  destruct (Fs.writeFileSync _ content (fs w1)) as [n1|e1];
    destruct (Fs.writeFileSync _ content (fs w2)) as [n2|e2]; cbn in Hw; try done.
  by injection Hw as ->.
Qed.

(** What a turn that does not throw has done. *)
Lemma migrate_one_ok (w w' : world) (mw : string) (acc l : list string) t :
  Path.entry_name mw = true ->
  exec (Migrate.migrate_one mw acc) w = (t, Return l, w') ->
  l = acc ++ (if migrated (fs w) mw then [mw] else [])
  /\ writes t = (if migrated (fs w) mw then [(page_path mw, page (fs w) mw)] else [])
  /\ printed t = (if migrated (fs w) mw then ["Migrated " +:+ mw] else [])
  /\ mkdirs t = []
  /\ (migrated (fs w) mw = true -> has_readme (fs w) mw).
Proof.
  intros Hmw. rewrite exec_migrate_one by done. cbn zeta.
  unfold migrated, page, has_readme.
  destruct (Fs.statIsDirectory _ (fs w)) as [[|]|e] eqn:Es; try done.
  - apply stat_is_dir in Es. rewrite Es. cbn [andb].
    destruct (Fs.existsSync _ (fs w)).
    + destruct (Fs.readFileSync _ (fs w)) as [content|e] eqn:Er; try done.
      apply read_file_at in Er as (d & -> & ->).
      destruct (Fs.writeFileSync _ _ (fs w)) as [n'|e]; try done.
      by intros [= <- <- <-].
    + intros [= <- <- <-]. by rewrite app_nil_r.
  - assert (Fs.is_dir (Migrate.sourceDir ++ [mw]) (fs w) = false) as ->.
    { destruct (Fs.is_dir _ (fs w)) eqn:E; [|done].
      apply stat_is_dir in E. congruence. }
    intros [= <- <- <-]. by rewrite app_nil_r.
Qed.

(** ** The loop *)

Lemma loop_alike (names : list string) :
  proper names ->
  forall acc w, alike (fs w) (fs (exec (forEach names Migrate.migrate_one acc) w).2).
Proof.
  unfold exec. induction 1 as [|mw names Hmw _ IH]; intros acc w; [apply alike_refl|].
  rewrite run_forEach_cons.
  pose proof (migrate_one_alike w mw acc Hmw) as H1. unfold exec in H1.
  destruct (run node_handle (Migrate.migrate_one mw acc) w) as [[t [s'|e]] w1]; [|done].
  specialize (IH s' w1).
  destruct (run node_handle (forEach names Migrate.migrate_one s') w1) as [[t2 r2] w2].
  by eapply alike_trans.
Qed.

Lemma loop_sim (names : list string) :
  proper names ->
  forall acc w1 w2, alike (fs w1) (fs w2) ->
    (exec (forEach names Migrate.migrate_one acc) w1).1
    = (exec (forEach names Migrate.migrate_one acc) w2).1.
Proof.
  unfold exec. induction 1 as [|mw names Hmw _ IH]; intros acc w1 w2 H; [done|].
  rewrite !run_forEach_cons.
  pose proof (migrate_one_sim w1 w2 mw acc Hmw H) as Hs.
  pose proof (migrate_one_alike w1 mw acc Hmw) as H1.
  pose proof (migrate_one_alike w2 mw acc Hmw) as H2.
  unfold exec in Hs, H1, H2.
  destruct (run node_handle (Migrate.migrate_one mw acc) w1) as [[t1 r1] w1'].
  destruct (run node_handle (Migrate.migrate_one mw acc) w2) as [[t2 r2] w2'].
  cbn in Hs, H1, H2. injection Hs as <- <-. destruct r1 as [s'|e]; [|done].
  assert (alike (fs w1') (fs w2')) as H'
      by (eapply alike_trans; [apply alike_sym, H1|eapply alike_trans; [exact H|exact H2]]).
  specialize (IH s' w1' w2' H').
  destruct (run node_handle (forEach names Migrate.migrate_one s') w1') as [[ta ra] wa].
  destruct (run node_handle (forEach names Migrate.migrate_one s') w2') as [[tb rb] wb].
  cbn in IH. by injection IH as <- <-.
Qed.

(** A loop that does not throw has copied the topics that have a
    [README.md], in the order of the listing, and nothing else. *)
Lemma loop_ok (names : list string) :
  proper names ->
  forall acc w t l w',
    exec (forEach names Migrate.migrate_one acc) w = (t, Return l, w') ->
    let done := List.filter (migrated (fs w)) names in
    l = acc ++ done
    /\ writes t = map (fun mw => (page_path mw, page (fs w) mw)) done
    /\ printed t = map (fun mw => "Migrated " +:+ mw) done
    /\ mkdirs t = []
    /\ Forall (has_readme (fs w)) done.
Proof.
  unfold exec. induction 1 as [|mw names Hmw _ IH]; intros acc w t l w' Hrun.
  - injection Hrun as <- <- <-. rewrite app_nil_r. by split_and!.
  - rewrite run_forEach_cons in Hrun.
    pose proof (migrate_one_alike w mw acc Hmw) as Ha. unfold exec in Ha.
    destruct (run node_handle (Migrate.migrate_one mw acc) w) as [[t1 [s'|e]] w1]
      eqn:E1; [|done].
    destruct (migrate_one_ok w w1 mw acc s' t1 Hmw E1) as (-> & Hw & Hp & Hm & Hr).
    destruct (run node_handle (forEach names Migrate.migrate_one _) w1)
      as [[t2 r2] w2] eqn:E2.
    injection Hrun as <- -> <-. cbn in Ha.
    destruct (IH _ _ _ _ _ E2) as (-> & Hw2 & Hp2 & Hm2 & Hr2).
    rewrite writes_app, printed_app, mkdirs_app, Hw, Hp, Hm, Hw2, Hp2, Hm2.
    assert (Forall (has_readme (fs w)) (List.filter (migrated (fs w1)) names)) as Hr3.
    { eapply Forall_impl; [exact Hr2|]. intros x. unfold has_readme.
      by rewrite (alike_file_at _ _ _ Ha (source_apart _)). }
    revert Hr3.
    assert (List.filter (migrated (fs w1)) names
            = List.filter (migrated (fs w)) names) as ->
        by (apply filter_ext; intros x; symmetry; by apply alike_migrated).
    rewrite (map_ext (fun x => (page_path x, page (fs w1) x))
                     (fun x => (page_path x, page (fs w) x)))
      by (intros x; f_equal; symmetry; by apply alike_page).
    cbn [List.filter]. destruct (migrated (fs w) mw); cbn; intros Hr3.
    + rewrite <- app_assoc. split_and!; [done..|]. constructor; [by apply Hr|done].
    + rewrite app_nil_r. by split_and!.
Qed.

(** ** The phases of the primary script *)

Lemma exec_scan (w : world) :
  exec scan w
  = match Fs.readdirSync Migrate.sourceDir (fs w) with
    | Throw e => ([EvReaddir Migrate.sourceDir (Throw e)], Throw e, w)
    | Return names =>
      let '(t, r, w') := exec (forEach names Migrate.migrate_one []) w in
      (EvReaddir Migrate.sourceDir (Return names) :: t, r, w')
    end.
Proof.
  unfold exec, scan. rewrite run_bind, run_perform. cbn [node_handle fst snd].
  destruct (Fs.readdirSync Migrate.sourceDir (fs w)) as [names|e]; [|done].
  cbn [event_of]. by destruct (run node_handle _ w) as [[? ?] ?].
Qed.

Lemma exec_write_index (l : list string) (w : world) :
  exec (Migrate.write_index l) w
  = match Fs.writeFileSync index_md (Migrate.indexContent l) (fs w) with
    | Throw e => ([EvWrite index_md (Migrate.indexContent l) (Throw e)], Throw e, w)
    | Return n =>
      ([EvWrite index_md (Migrate.indexContent l) (Return tt)], Return tt, set_fs w n)
    end.
Proof.
  unfold exec, Migrate.write_index. rewrite index_path, run_perform.
  fold index_md. cbn [node_handle event_of].
  by destruct (Fs.writeFileSync index_md _ (fs w)).
Qed.

Lemma exec_sidebar (l : list string) (w : world) :
  exec (Migrate.sidebar l) w
  = match Fs.readFileSync Migrate.configPath (fs w) with
    | Throw e => ([EvRead Migrate.configPath (Throw e)], Throw e, w)
    | Return c =>
      ([EvRead Migrate.configPath (Return c); EvLog sidebar_header (Return tt);
        EvLog (JSON_stringify l) (Return tt)],
       Return tt,
       {| fs := fs w; stdout := stdout w ++ [sidebar_header; JSON_stringify l] |})
    end.
Proof.
  unfold exec, Migrate.sidebar.
  cbn [run perform mbind prog_mbind prog_bind node_handle event_of].
  destruct (Fs.readFileSync Migrate.configPath (fs w)) as [c|e]; [|done].
  cbn [fs stdout]. by rewrite <- app_assoc.
Qed.

Lemma exec_publish (l : list string) (w : world) :
  exec (publish l) w
  = match exec (Migrate.write_index l) w with
    | (t, Return _, w') =>
      let '(t2, r2, w2) := exec (Migrate.sidebar l) w' in (t ++ t2, r2, w2)
    | (t, Throw e, w') => (t, Throw e, w')
    end.
Proof. unfold exec, publish. apply run_bind. Qed.

Lemma exec_finish (w : world) :
  exec finish w
  = match exec scan w with
    | (t, Return l, w') =>
      let '(t2, r2, w2) := exec (publish l) w' in (t ++ t2, r2, w2)
    | (t, Throw e, w') => (t, Throw e, w')
    end.
Proof. unfold exec, finish. apply run_bind. Qed.

Lemma exec_collect (w : world) : exec Migrate.collect w = setup (exec scan) w.
Proof.
  unfold exec, setup, Migrate.collect. rewrite run_bind, run_perform.
  cbn [node_handle fst snd event_of].
  destruct (Fs.existsSync Migrate.targetDir (fs w)); cbn [negb].
  - rewrite run_bind, run_ret. fold scan.
    by destruct (run node_handle scan w) as [[? ?] ?].
  - rewrite run_bind, run_perform. cbn [node_handle].
    destruct (Fs.mkdirSync Migrate.targetDir (fs w)) as [n|e]; [|done].
    cbn [fst snd event_of]. fold scan.
    by destruct (run node_handle scan (set_fs w n)) as [[? ?] ?].
Qed.

Lemma exec_main (w : world) : exec Migrate.main w = setup (exec finish) w.
Proof.
  unfold Migrate.main. fold (publish). unfold exec at 1.
  rewrite run_bind. fold (@exec (list string)). rewrite exec_collect.
  unfold setup. destruct (Fs.existsSync Migrate.targetDir (fs w)).
  - rewrite exec_finish. destruct (exec scan w) as [[t [l|e]] w']; [|done].
    unfold exec. by destruct (run node_handle (publish l) w') as [[? ?] ?].
  - destruct (Fs.mkdirSync Migrate.targetDir (fs w)) as [n|e]; [|done].
    rewrite exec_finish. destruct (exec scan (set_fs w n)) as [[t [l|e]] w']; [|done].
    unfold exec. by destruct (run node_handle (publish l) w') as [[? ?] ?].
Qed.

(** The whole run in terms of its three phases. *)
Lemma main_phases (w : world) :
  exec Migrate.main w
  = match exec Migrate.collect w with
    | (t1, Throw e, w1) => (t1, Throw e, w1)
    | (t1, Return l, w1) =>
      match exec (Migrate.write_index l) w1 with
      | (t2, Throw e, w2) => (t1 ++ t2, Throw e, w2)
      | (t2, Return _, w2) =>
        let '(t3, r3, w3) := exec (Migrate.sidebar l) w2 in (t1 ++ t2 ++ t3, r3, w3)
      end
    end.
Proof.
  unfold Migrate.main, exec. rewrite run_bind.
  destruct (run node_handle Migrate.collect w) as [[t1 [l|e]] w1]; [|done].
  rewrite run_bind.
  destruct (run node_handle (Migrate.write_index l) w1) as [[t2 [[]|e]] w2]; [|done].
  destruct (run node_handle (Migrate.sidebar l) w2) as [[t3 r3] w3].
  by rewrite app_assoc.
Qed.

(** ** Making the target directory *)

Lemma alike_outside (s t : Fs.node) : alike s t -> outside s t.
Proof. by intros (H & _). Qed.

Lemma outside_trans (s t u : Fs.node) : outside s t -> outside t u -> outside s u.
Proof. intros H K q Hq. by rewrite H, K. Qed.

Lemma mkdir_outside (n n' : Fs.node) :
  Fs.mkdirSync Migrate.targetDir n = Return n' -> outside n n'.
Proof. intros H q Hq. symmetry. by eapply mkdir_walk_apart. Qed.

Lemma outside_migrated (s t : Fs.node) (mw : string) :
  outside s t -> migrated s mw = migrated t mw.
Proof.
  intros H. unfold migrated, Fs.is_dir, Fs.existsSync.
  by rewrite !(H _ (source_apart _)).
Qed.

Lemma outside_page (s t : Fs.node) (mw : string) : outside s t -> page s mw = page t mw.
Proof. intros H. unfold page, Fs.file_at. by rewrite (H _ (source_apart _)). Qed.

Lemma outside_listing (s t : Fs.node) :
  outside s t ->
  Fs.readdirSync Migrate.sourceDir s = Fs.readdirSync Migrate.sourceDir t.
Proof. intros H. unfold Fs.readdirSync. by rewrite (H _ source_apart_target). Qed.

Lemma exists_stat (p : path) (n : Fs.node) :
  Fs.existsSync p n
  = match Fs.statIsDirectory p n with Return _ => true | Throw _ => false end.
Proof.
  unfold Fs.existsSync, Fs.statIsDirectory. by destruct (Fs.walk p n) as [[?|?]|].
Qed.

(** ** The pages *)

Lemma page_path_inj (a b : string) : page_path a = page_path b -> a = b.
Proof.
  unfold page_path. intros H. apply app_inv_head in H. injection H as H.
  by eapply string_app_inj_r.
Qed.

Lemma page_path_index (mw : string) : page_path mw = index_md -> mw = "index".
Proof. apply (page_path_inj mw "index"). Qed.

(** ** A scan that does not throw *)

Lemma wf_proper_source (n : Fs.node) : Fs.wf n = true -> proper_source n.
Proof. intros Hwf names. by apply wf_listing. Qed.

Lemma outside_proper_source (s t : Fs.node) :
  outside s t -> proper_source s -> proper_source t.
Proof. intros H Hs names. rewrite <- (outside_listing s t H). apply Hs. Qed.

Lemma scan_ok (w : world) (t : list event) (l : list string) (w' : world) :
  proper_source (fs w) -> exec scan w = (t, Return l, w') ->
  exists names,
    Fs.readdirSync Migrate.sourceDir (fs w) = Return names
    /\ l = List.filter (migrated (fs w)) names
    /\ writes t = map (fun mw => (page_path mw, page (fs w) mw)) l
    /\ printed t = map (fun mw => "Migrated " +:+ mw) l
    /\ mkdirs t = []
    /\ alike (fs w) (fs w')
    /\ Forall (has_readme (fs w)) l.
Proof.
  intros Hwf. rewrite exec_scan.
  destruct (Fs.readdirSync Migrate.sourceDir (fs w)) as [names|e] eqn:E; [|done].
  pose proof (Hwf _ E) as Hnames.
  pose proof (loop_alike names Hnames [] w) as Ha.
  destruct (exec (forEach names Migrate.migrate_one []) w) as [[t0 r0] w0] eqn:El.
  intros [= <- -> <-].
  destruct (loop_ok names Hnames _ _ _ _ _ El) as (-> & Hw & Hp & Hm & Hr).
  exists names. cbn [app].
  split_and!; [done|done|exact Hw|exact Hp|exact Hm|exact Ha|exact Hr].
Qed.

(** ** A first phase that does not throw *)

Lemma collect_ok (w : world) (t : list event) (l : list string) (w' : world) :
  Fs.wf (fs w) = true -> exec Migrate.collect w = (t, Return l, w') ->
  exists names,
    Fs.readdirSync Migrate.sourceDir (fs w) = Return names
    /\ l = List.filter (migrated (fs w)) names
    /\ writes t = map (fun mw => (page_path mw, page (fs w) mw)) l
    /\ printed t = map (fun mw => "Migrated " +:+ mw) l
    /\ outside (fs w) (fs w')
    /\ Forall (has_readme (fs w)) l.
Proof.
  intros Hwf%wf_proper_source. rewrite exec_collect. unfold setup.
  destruct (Fs.existsSync Migrate.targetDir (fs w)).
  - destruct (exec scan w) as [[t0 r0] w0] eqn:Es. intros [= <- -> <-].
    destruct (scan_ok _ _ _ _ Hwf Es)
      as (names & ? & ? & ? & ? & ? & ?%alike_outside & ?).
    by exists names.
  - destruct (Fs.mkdirSync Migrate.targetDir (fs w)) as [n|e] eqn:Em; [|done].
    apply mkdir_outside in Em.
    destruct (exec scan (set_fs w n)) as [[t0 r0] w0] eqn:Es. intros [= <- -> <-].
    destruct (scan_ok (set_fs w n) _ _ _ (outside_proper_source _ _ Em Hwf) Es)
      as (names & Hn & Hl & Hw & Hp & _ & Ha%alike_outside & Hr).
    cbn [set_fs fs] in *. exists names. rewrite (outside_listing _ _ Em).
    split_and!; [done| | | |by eapply outside_trans|].
    + rewrite Hl. apply filter_ext. intros x. symmetry. by apply outside_migrated.
    + change (writes t0 = map (fun mw => (page_path mw, page (fs w) mw)) l).
      rewrite Hw. apply map_ext. intros x. f_equal. symmetry. by apply outside_page.
    + exact Hp.
    + eapply Forall_impl; [exact Hr|]. intros x. unfold has_readme, Fs.file_at.
      by rewrite (Em _ (source_apart _)).
Qed.

(** ** Lines that name a topic *)



Lemma elem_of_filter_migrated (n : Fs.node) (names : list string) (mw : string) :
  mw ∈ List.filter (migrated n) names <->
  mw ∈ names /\ Fs.is_dir (Migrate.sourceDir ++ [mw]) n = true
             /\ Fs.existsSync (Migrate.sourceDir ++ [mw; "README.md"]) n = true.
Proof.
  rewrite !list_elem_of_In, filter_In. unfold migrated.
  rewrite andb_true_iff. tauto.
Qed.

(** * The primary script: the claims *)



(** ** A run that completes *)

Lemma main_ok (w w' : world) (t : list event) :
  Fs.wf (fs w) = true -> exec Migrate.main w = (t, Return tt, w') ->
  exists names,
    Fs.readdirSync Migrate.sourceDir (fs w) = Return names
    /\ let l := List.filter (migrated (fs w)) names in
       writes t = map (fun mw => (page_path mw, page (fs w) mw)) l
                  ++ [(index_md, Migrate.indexContent l)]
       /\ printed t = map (fun mw => "Migrated " +:+ mw) l
                      ++ [sidebar_header; JSON_stringify l].
Proof.
  intros Hwf. rewrite main_phases.
  destruct (exec Migrate.collect w) as [[t1 [l|e]] w1] eqn:E1; [|done].
  destruct (collect_ok _ _ _ _ Hwf E1) as (names & Hn & Hl & Hw & Hp & _).
  rewrite exec_write_index.
  destruct (Fs.writeFileSync index_md _ (fs w1)) as [n|e]; [|done].
  rewrite exec_sidebar.
  destruct (Fs.readFileSync Migrate.configPath (fs (set_fs w1 n))) as [c|e]; [|done].
  intros [= <- <-]. exists names. split; [done|]. cbv zeta. rewrite <- Hl.
  rewrite !writes_app, !printed_app, Hw, Hp. done.
Qed.

Lemma assoc_listed (c : string) (m : Fs.node) es :
  Fs.assoc c es = Some m -> c ∈ map fst es.
Proof.
  induction es as [|[k v] es IH]; cbn; [done|].
  destruct (String.eqb_spec k c) as [->|_]; intros H.
  - apply elem_of_cons. by left.
  - apply elem_of_cons. right. by apply IH.
Qed.

Lemma walk_cons (c : string) (p : path) (n : Fs.node) :
  Fs.walk (c :: p) n
  = match n with
    | Fs.File _ => Throw ENOTDIR
    | Fs.Dir es =>
      match Fs.assoc c es with Some n' => Fs.walk p n' | None => Throw ENOENT end
    end.
Proof. reflexivity. Qed.

(** A topic that holds a file is a directory, and the listing reports it. *)
Lemma file_at_listed (p : path) (c c2 d : string) (n : Fs.node) :
  Fs.file_at (p ++ [c; c2]) n = Some d ->
  exists names,
    Fs.readdirSync p n = Return names /\ c ∈ names
    /\ Fs.is_dir (p ++ [c]) n = true /\ Fs.existsSync (p ++ [c; c2]) n = true.
Proof.
  intros H. pose proof (exists_file_at _ _ _ H) as Hex.
  unfold Fs.file_at, Fs.readdirSync, Fs.is_dir in *. rewrite walk_app in *.
  destruct (Fs.walk p n) as [m|e]; [|done].
  rewrite walk_cons in H. destruct m as [?|es]; [done|].
  destruct (Fs.assoc c es) as [m'|] eqn:E; [|done].
  exists (map fst es). split_and!; [done|by eapply assoc_listed| |done].
  rewrite walk_cons, E. rewrite walk_cons in H. by destruct m'.
Qed.




(** ** Runs that may throw *)

Lemma tidy_app (t1 t2 : list event) : tidy t1 -> tidy t2 -> tidy (t1 ++ t2).
Proof.
  intros [H1 K1] [H2 K2]. split.
  - rewrite writes_app. by apply Forall_app.
  - by rewrite mkdirs_app, K1, K2.
Qed.

Lemma migrate_one_tidy (w w' : world) (mw : string) (acc : list string) t r :
  Path.entry_name mw = true ->
  exec (Migrate.migrate_one mw acc) w = (t, r, w') -> tidy t.
Proof.
  intros Hmw. rewrite exec_migrate_one by done. cbn zeta.
  assert (in_target (page_path mw, "")) as [c Hc] by (by eexists).
  destruct (Fs.statIsDirectory _ (fs w)) as [[|]|e];
    [|intros [= <- _ _]; by split..].
  destruct (Fs.existsSync _ (fs w)); [|intros [= <- _ _]; by split].
  destruct (Fs.readFileSync _ (fs w)) as [content|e]; [|intros [= <- _ _]; by split].
  destruct (Fs.writeFileSync _ content (fs w)) as [n'|e]; intros [= <- _ _].
  - split; [|done]. repeat constructor. by exists c.
  - by split.
Qed.

Lemma loop_tidy (names : list string) :
  proper names ->
  forall acc w t r w',
    exec (forEach names Migrate.migrate_one acc) w = (t, r, w') -> tidy t.
Proof.
  unfold exec. induction 1 as [|mw names Hmw _ IH]; intros acc w t r w' Hrun.
  - injection Hrun as <- _ _. by split.
  - rewrite run_forEach_cons in Hrun.
    destruct (run node_handle (Migrate.migrate_one mw acc) w) as [[t1 r1] w1] eqn:E1.
    apply migrate_one_tidy in E1; [|done].
    destruct r1 as [s'|e]; [|by injection Hrun as <- _ _].
    destruct (run node_handle (forEach names Migrate.migrate_one s') w1)
      as [[t2 r2] w2] eqn:E2.
    injection Hrun as <- _ _. apply tidy_app; [done|by eapply IH].
Qed.

Lemma publish_tidy (l : list string) (w w' : world) t r :
  exec (publish l) w = (t, r, w') -> tidy t.
Proof.
  rewrite exec_publish, exec_write_index.
  assert (in_target (index_md, Migrate.indexContent l)) by (by eexists).
  destruct (Fs.writeFileSync index_md _ (fs w)) as [n|e];
    [|intros [= <- _ _]; by split].
  rewrite exec_sidebar.
  destruct (Fs.readFileSync Migrate.configPath _) as [c|e]; intros [= <- _ _].
  - split; [|done]. by repeat constructor.
  - split; [|done]. by repeat constructor.
Qed.

Lemma publish_alike (l : list string) (w : world) :
  alike (fs w) (fs (exec (publish l) w).2).
Proof.
  rewrite exec_publish, exec_write_index.
  destruct (Fs.writeFileSync index_md _ (fs w)) as [n|e] eqn:E; [|apply alike_refl].
  apply write_alike in E. rewrite exec_sidebar.
  by destruct (Fs.readFileSync Migrate.configPath _).
Qed.

Lemma config_apart (r : path) : apart (Migrate.configPath ++ r) Migrate.targetDir.
Proof.
  rewrite <- (app_nil_r Migrate.targetDir). apply apart_app, config_apart_target.
Qed.

Lemma publish_sim (l : list string) (w1 w2 : world) :
  alike (fs w1) (fs w2) -> (exec (publish l) w1).1 = (exec (publish l) w2).1.
Proof.
  intros H. rewrite !exec_publish, !exec_write_index.
  pose proof (alike_write_thrown _ _ "index.md" (Migrate.indexContent l) H) as Hw.
  fold index_md in Hw.
  destruct (Fs.writeFileSync index_md _ (fs w1)) as [n1|e1] eqn:E1;
    destruct (Fs.writeFileSync index_md _ (fs w2)) as [n2|e2] eqn:E2;
    cbn in Hw; try done; [|by injection Hw as ->].
  apply write_alike in E1, E2.
  assert (alike n1 n2) as H'
      by (eapply alike_trans; [apply alike_sym, E1|eapply alike_trans; [exact H|exact E2]]).
  rewrite !exec_sidebar. cbn [set_fs fs].
  pose proof (alike_read _ _ _ H' (config_apart [])) as Hr. rewrite app_nil_r in Hr.
  rewrite <- Hr. by destruct (Fs.readFileSync Migrate.configPath n1).
Qed.

Lemma finish_tidy (w w' : world) t r :
  proper_source (fs w) -> exec finish w = (t, r, w') -> tidy t.
Proof.
  intros Hp. rewrite exec_finish, exec_scan.
  destruct (Fs.readdirSync Migrate.sourceDir (fs w)) as [names|e] eqn:E;
    [|intros [= <- _ _]; by split].
  destruct (exec (forEach names Migrate.migrate_one []) w) as [[t0 r0] w0] eqn:El.
  apply loop_tidy in El; [|by apply Hp].
  destruct r0 as [l|e]; [|by intros [= <- _ _]].
  destruct (exec (publish l) w0) as [[t2 r2] w2] eqn:E2.
  apply publish_tidy in E2. intros [= <- _ _].
  change (tidy ((EvReaddir Migrate.sourceDir (Return names) :: t0) ++ t2)).
  apply tidy_app; [exact El|exact E2].
Qed.

Lemma finish_alike (w : world) :
  proper_source (fs w) -> alike (fs w) (fs (exec finish w).2).
Proof.
  intros Hp. rewrite exec_finish, exec_scan.
  destruct (Fs.readdirSync Migrate.sourceDir (fs w)) as [names|e] eqn:E;
    [|apply alike_refl].
  pose proof (loop_alike names (Hp _ E) [] w) as Ha.
  destruct (exec (forEach names Migrate.migrate_one []) w) as [[t0 [l|e]] w0];
    [|exact Ha].
  pose proof (publish_alike l w0) as Hb.
  destruct (exec (publish l) w0) as [[t2 r2] w2]. by eapply alike_trans.
Qed.

Lemma finish_sim (w1 w2 : world) :
  proper_source (fs w1) -> alike (fs w1) (fs w2) ->
  (exec finish w1).1 = (exec finish w2).1.
Proof.
  intros Hp H. rewrite !exec_finish, !exec_scan.
  rewrite <- (alike_readdir _ _ _ H source_apart_target).
  destruct (Fs.readdirSync Migrate.sourceDir (fs w1)) as [names|e] eqn:E; [|done].
  pose proof (loop_sim names (Hp _ E) [] w1 w2 H) as Hs.
  pose proof (loop_alike names (Hp _ E) [] w1) as H1.
  pose proof (loop_alike names (Hp _ E) [] w2) as H2.
  destruct (exec (forEach names Migrate.migrate_one []) w1) as [[ta ra] wa].
  destruct (exec (forEach names Migrate.migrate_one []) w2) as [[tb rb] wb].
  cbn in Hs, H1, H2. injection Hs as <- <-. destruct ra as [l|e]; [|done].
  assert (alike (fs wa) (fs wb)) as H'
      by (eapply alike_trans; [apply alike_sym, H1|eapply alike_trans; [exact H|exact H2]]).
  pose proof (publish_sim l wa wb H') as Hq.
  destruct (exec (publish l) wa) as [[tc rc] wc].
  destruct (exec (publish l) wb) as [[td rd] wd].
  cbn in Hq. by injection Hq as <- <-.
Qed.

(** Whatever its outcome, a run changes nothing apart from the target
    directory. *)
Lemma main_outside (w : world) :
  Fs.wf (fs w) = true -> outside (fs w) (fs (exec Migrate.main w).2).
Proof.
  intros Hwf%wf_proper_source. rewrite exec_main. unfold setup.
  destruct (Fs.existsSync Migrate.targetDir (fs w)).
  - pose proof (finish_alike w Hwf) as H%alike_outside.
    by destruct (exec finish w) as [[? ?] ?].
  - destruct (Fs.mkdirSync Migrate.targetDir (fs w)) as [n|e] eqn:Em; [|done].
    apply mkdir_outside in Em.
    pose proof (finish_alike (set_fs w n) (outside_proper_source _ _ Em Hwf))
      as H%alike_outside.
    destruct (exec finish (set_fs w n)) as [[? ?] ?]. by eapply outside_trans.
Qed.

(** Whatever its outcome, a run writes only into the target directory. *)
Lemma main_writes_in_target (w w' : world) t r :
  Fs.wf (fs w) = true -> exec Migrate.main w = (t, r, w') ->
  Forall in_target (writes t).
Proof.
  intros Hwf%wf_proper_source. rewrite exec_main. unfold setup.
  destruct (Fs.existsSync Migrate.targetDir (fs w)).
  - destruct (exec finish w) as [[t0 r0] w0] eqn:E. intros [= <- _ _].
    by apply (finish_tidy _ _ _ _ Hwf E).
  - destruct (Fs.mkdirSync Migrate.targetDir (fs w)) as [n|e] eqn:Em;
      [|by intros [= <- _ _]].
    apply mkdir_outside in Em.
    destruct (exec finish (set_fs w n)) as [[t0 r0] w0] eqn:E. intros [= <- _ _].
    by apply (finish_tidy (set_fs w n) _ _ _ (outside_proper_source _ _ Em Hwf) E).
Qed.

(** After a first phase that does not throw, the pages are in place. *)
Lemma pages_after_collect (w w1 : world) (t1 : list event) (l : list string)
      (mw d : string) :
  Fs.wf (fs w) = true ->
  exec Migrate.collect w = (t1, Return l, w1) ->
  Fs.file_at (Migrate.sourceDir ++ [mw; "README.md"]) (fs w) = Some d ->
  mw ∈ l /\ Fs.file_at (page_path mw) (fs w1) = Some (Utf8.to_text d).
Proof.
  intros Hwf Hrun Hd.
  destruct (collect_ok _ _ _ _ Hwf Hrun) as (names & Hn & Hl & Hw & _).
  destruct (file_at_listed _ _ _ _ _ Hd) as (names' & Hn' & Hin & Hdir & Hex).
  rewrite Hn in Hn'. injection Hn' as <-.
  assert (mw ∈ l) as Hmw by (rewrite Hl; by apply elem_of_filter_migrated).
  split; [done|].
  rewrite (exec_file_at _ _ _ _ _ (page_path mw) Hrun), Hw.
  assert (page (fs w) mw = Utf8.to_text d) as <- by (unfold page; by rewrite Hd).
  apply last_write_same.
  - apply Forall_forall. intros pd (x & -> & _)%list_elem_of_fmap. cbn.
    by intros ->%page_path_inj.
  - exists (page_path mw, page (fs w) mw). split; [|done].
    apply list_elem_of_fmap. by exists mw.
Qed.

(** C6.  Whatever the outcome of a run, the site configuration file is
    afterwards what it was before and no write was addressed to it, and
    standard output has grown by the lines printed; in a run that
    completes, what is printed after the [Migrated] lines of the copy is
    the header line and the JSON text of the list, nothing else. *)
Theorem config_file_untouched (w w' : world) (t : list event) (r : outcome unit) :
  Fs.wf (fs w) = true ->
  exec Migrate.main w = (t, r, w') ->
  Fs.walk Migrate.configPath (fs w') = Fs.walk Migrate.configPath (fs w)
  /\ (forall d, (Migrate.configPath, d) ∉ writes t)
  /\ stdout w' = stdout w ++ printed t
  /\ (r = Return tt ->
      exists names,
        Fs.readdirSync Migrate.sourceDir (fs w) = Return names
        /\ let l := List.filter (migrated (fs w)) names in
           printed t = map (fun mw => "Migrated " +:+ mw) l
                       ++ ["Middleware List for Sidebar:"; JSON_stringify l]).
Proof.
  intros Hwf Hrun. split_and!; [| |by eapply exec_stdout|].
  - pose proof (main_outside w Hwf) as H. rewrite Hrun in H. symmetry.
    apply H, config_apart_target.
  - intros d Hin. pose proof (main_writes_in_target _ _ _ _ Hwf Hrun) as H.
    rewrite Forall_forall in H. destruct (H _ Hin) as [c Hc]. cbn in Hc.
    destruct config_apart_target as [_ Hp]. apply Hp. rewrite Hc.
    by apply prefix_app_r.
  - intros ->. destruct (main_ok _ _ _ Hwf Hrun) as (names & Hn & _ & Hp).
    by exists names.
Qed.

Lemma config_file_untouched_witness :
  let w := Sample.auth_and_empty in
  Fs.walk Migrate.configPath (fs (exec Migrate.main w).2)
  = Fs.walk Migrate.configPath (fs w)
  /\ (forall d, (Migrate.configPath, d) ∉ writes (exec Migrate.main w).1.1)
  /\ stdout (exec Migrate.main w).2 = stdout w ++ printed (exec Migrate.main w).1.1
  /\ ((exec Migrate.main w).1.2 = Return tt ->
      exists names,
        Fs.readdirSync Migrate.sourceDir (fs w) = Return names
        /\ let l := List.filter (migrated (fs w)) names in
           printed (exec Migrate.main w).1.1
           = map (fun mw => "Migrated " +:+ mw) l
             ++ ["Middleware List for Sidebar:"; JSON_stringify l]).
Proof.
  cbv zeta. apply (config_file_untouched Sample.auth_and_empty).
  - reflexivity.
  - vm_compute. reflexivity.
Defined.

(** C10.  Once the pages and the index are written, the next call reads the
    configuration file, whether or not it is there.  If it is not, that
    call throws and ends the run: the error is the run's result, nothing is
    called after it, and the index and the pages written before remain. *)
Theorem config_read_follows_outputs
        (w w1 w2 w' : world) (t1 t2 t : list event) (l : list string)
        (r : outcome unit) :
  Fs.wf (fs w) = true ->
  exec Migrate.collect w = (t1, Return l, w1) ->
  exec (Migrate.write_index l) w1 = (t2, Return tt, w2) ->
  exec Migrate.main w = (t, r, w') ->
  (exists t3,
      t = t1 ++ t2
          ++ EvRead Migrate.configPath (Fs.readFileSync Migrate.configPath (fs w)) :: t3)
  /\ (Fs.existsSync Migrate.configPath (fs w) = false ->
      exists e,
        r = Throw e
        /\ t = t1 ++ t2 ++ [EvRead Migrate.configPath (Throw e)]
        /\ Fs.file_at (Migrate.targetDir ++ ["index.md"]) (fs w')
           = Some (Migrate.indexContent l)
        /\ forall mw d,
            Fs.file_at (Migrate.sourceDir ++ [mw; "README.md"]) (fs w) = Some d ->
            mw <> "index" ->
            Fs.file_at (Migrate.targetDir ++ [mw +:+ ".md"]) (fs w')
            = Some (Utf8.to_text d)).
Proof.
  intros Hwf E1 E2. rewrite main_phases, E1, E2.
  destruct (collect_ok _ _ _ _ Hwf E1) as (_ & _ & _ & _ & _ & Ho & _).
  pose proof (exec_file_at _ _ _ _ _ index_md E2) as Hidx.
  assert (forall q, q <> index_md -> Fs.file_at q (fs w2) = Fs.file_at q (fs w1)) as Hoth.
  { intros q Hq. rewrite (exec_file_at _ _ _ _ _ q E2).
    rewrite exec_write_index in E2.
    destruct (Fs.writeFileSync index_md _ (fs w1)); [|done].
    injection E2 as <- _. cbn. by rewrite decide_False. }
  assert (Fs.walk Migrate.configPath (fs w2) = Fs.walk Migrate.configPath (fs w)) as Hc.
  { rewrite (Ho _ config_apart_target). rewrite exec_write_index in E2.
    destruct (Fs.writeFileSync index_md _ (fs w1)) as [n|] eqn:Ew; [|done].
    injection E2 as _ <-. apply write_alike, alike_outside in Ew.
    symmetry. apply Ew, config_apart_target. }
  rewrite exec_write_index in E2.
  destruct (Fs.writeFileSync index_md _ (fs w1)) as [n|] eqn:Ew; [|done].
  injection E2 as <- <-. cbn in Hidx. rewrite decide_True in Hidx by done.
  rewrite exec_sidebar.
  assert (Fs.readFileSync Migrate.configPath (fs (set_fs w1 n))
          = Fs.readFileSync Migrate.configPath (fs w)) as ->
      by (unfold Fs.readFileSync; by rewrite Hc).
  intros Hrun. split.
  - destruct (Fs.readFileSync Migrate.configPath (fs w)) as [c|e];
      injection Hrun as <- _ _; by eexists.
  - intros Hex. unfold Fs.existsSync, Fs.readFileSync in *.
    destruct (Fs.walk Migrate.configPath (fs w)) as [?|e]; [done|].
    injection Hrun as <- <- <-. exists e. split_and!; [done|done|exact Hidx|].
    intros mw d Hd Hmw.
    destruct (pages_after_collect _ _ _ _ _ _ Hwf E1 Hd) as [_ Hpage].
    fold (page_path mw). rewrite Hoth; [done|].
    intros E. by apply page_path_index in E.
Qed.

Lemma config_read_follows_outputs_witness :
  let w := Sample.no_config in
  let t1 := (exec Migrate.collect w).1.1 in
  let w1 := (exec Migrate.collect w).2 in
  let t2 := (exec (Migrate.write_index ["auth"]) w1).1.1 in
  let '(t, r, w') := exec Migrate.main w in
  (exists t3,
      t = t1 ++ t2
          ++ EvRead Migrate.configPath (Fs.readFileSync Migrate.configPath (fs w)) :: t3)
  /\ (Fs.existsSync Migrate.configPath (fs w) = false ->
      exists e,
        r = Throw e
        /\ t = t1 ++ t2 ++ [EvRead Migrate.configPath (Throw e)]
        /\ Fs.file_at (Migrate.targetDir ++ ["index.md"]) (fs w')
           = Some (Migrate.indexContent ["auth"])
        /\ forall mw d,
            Fs.file_at (Migrate.sourceDir ++ [mw; "README.md"]) (fs w) = Some d ->
            mw <> "index" ->
            Fs.file_at (Migrate.targetDir ++ [mw +:+ ".md"]) (fs w')
            = Some (Utf8.to_text d)).
Proof.
  cbv zeta.
  destruct (exec Migrate.main Sample.no_config) as [[t r] w'] eqn:E.
  apply (config_read_follows_outputs
           Sample.no_config (exec Migrate.collect Sample.no_config).2
           (exec (Migrate.write_index ["auth"])
                 (exec Migrate.collect Sample.no_config).2).2 w' _ _ t ["auth"] r).
  - reflexivity.
  - vm_compute. reflexivity.
  - vm_compute. reflexivity.
  - exact E.
Defined.

(** ** Running the primary script again *)

Lemma alike_exists_target (s t : Fs.node) :
  alike s t ->
  Fs.existsSync Migrate.targetDir s = Fs.existsSync Migrate.targetDir t.
Proof. intros (_ & H & _). by rewrite !exists_stat, H. Qed.

(** The run that follows one in which the target directory was there. *)
Lemma rerun_after_finish (s w1 w2 : world) (ta t2 : list event) (ra r2 : outcome unit) :
  proper_source (fs s) ->
  Fs.existsSync Migrate.targetDir (fs s) = true ->
  exec finish s = (ta, ra, w1) ->
  exec Migrate.main w1 = (t2, r2, w2) ->
  r2 = ra /\ t2 = EvExists Migrate.targetDir (Return true) :: ta /\ mkdirs t2 = [].
Proof.
  intros Hp Hex Ef. rewrite exec_main. unfold setup.
  pose proof (finish_alike s Hp) as Ha. rewrite Ef in Ha. cbn in Ha.
  rewrite <- (alike_exists_target _ _ Ha), Hex.
  pose proof (finish_sim s w1 Hp Ha) as Hs. rewrite Ef in Hs.
  destruct (exec finish w1) as [[tb rb] wb]. cbn in Hs. injection Hs as <- <-.
  intros [= <- <- _]. split_and!; [done|done|].
  by destruct (finish_tidy _ _ _ _ Hp Ef).
Qed.

(** C4.  Run the primary script, then run it again on what the first run
    left.  The second run ends as the first did, writes the same contents
    to the same paths in the same order and prints the same lines; after
    it every path holds the file, byte for byte, and is the directory, that
    it was after the first run. *)
Theorem rerun_writes_the_same
        (w w1 w2 : world) (t1 t2 : list event) (r1 r2 : outcome unit) :
  Fs.wf (fs w) = true ->
  exec Migrate.main w = (t1, r1, w1) ->
  exec Migrate.main w1 = (t2, r2, w2) ->
  r2 = r1
  /\ writes t2 = writes t1
  /\ printed t2 = printed t1
  /\ (forall q, Fs.file_at q (fs w2) = Fs.file_at q (fs w1))
  /\ (forall q, Fs.is_dir q (fs w2) = Fs.is_dir q (fs w1)).
Proof.
  intros Hwf%wf_proper_source E1 E2.
  assert (r2 = r1 /\ writes t2 = writes t1 /\ printed t2 = printed t1
          /\ (mkdirs t2 = [] \/ w2 = w1)) as (-> & Hw & Hp & Hm).
  { revert E1. rewrite exec_main. unfold setup.
    destruct (Fs.existsSync Migrate.targetDir (fs w)) eqn:Hex.
    - destruct (exec finish w) as [[ta ra] wa] eqn:Ef. intros [= <- <- <-].
      destruct (rerun_after_finish _ _ _ _ _ _ _ Hwf Hex Ef E2) as (-> & -> & Hm).
      split_and!; [done|done|done|by left].
    - destruct (Fs.mkdirSync Migrate.targetDir (fs w)) as [n|e] eqn:Em.
      + destruct (exec finish (set_fs w n)) as [[ta ra] wa] eqn:Ef.
        intros [= <- <- <-].
        assert (proper_source (fs (set_fs w n))) as Hp
            by (eapply outside_proper_source; [by apply mkdir_outside|done]).
        assert (Fs.existsSync Migrate.targetDir (fs (set_fs w n)) = true) as Hex'.
        { apply mkdir_is_dir, stat_is_dir in Em. cbn [set_fs fs].
          by rewrite exists_stat, Em. }
        destruct (rerun_after_finish _ _ _ _ _ _ _ Hp Hex' Ef E2) as (-> & -> & Hm).
        split_and!; [done|done|done|by left].
      + intros [= <- <- <-].
        assert (exec Migrate.main w = (t2, r2, w2)) as E by exact E2.
        rewrite exec_main in E. unfold setup in E. rewrite Hex, Em in E.
        injection E as <- <- <-. split_and!; [done|done|done|by right]. }
  split_and!; [done|done|done| |].
  - intros q. rewrite (exec_file_at _ _ _ _ _ q E2), (exec_file_at _ _ _ _ _ q E1), Hw.
    apply last_write_idem.
  - intros q. destruct Hm as [Hm| ->]; [|done]. by eapply exec_is_dir.
Qed.

Lemma rerun_writes_the_same_witness :
  let first := exec Migrate.main Sample.auth_and_empty in
  let second := exec Migrate.main Sample.after_first_run in
  second.1.2 = first.1.2
  /\ writes second.1.1 = writes first.1.1
  /\ printed second.1.1 = printed first.1.1
  /\ (forall q, Fs.file_at q (fs second.2) = Fs.file_at q (fs first.2))
  /\ (forall q, Fs.is_dir q (fs second.2) = Fs.is_dir q (fs first.2)).
Proof.
  cbv zeta.
  apply (rerun_writes_the_same Sample.auth_and_empty Sample.after_first_run).
  - reflexivity.
  - vm_compute. reflexivity.
  - vm_compute. reflexivity.
Defined.

(** * [migrate_remaining.js]: the claims *)

(** One turn of the loop, call by call. *)
Lemma exec_copy_one (m : MigrateRemaining.mapping) (w : world) :
  exec (MigrateRemaining.copy_one m tt) w
  = let srcPath := MigrateRemaining.srcPath m in
    let destPath := MigrateRemaining.destPath m in
    match ensure_dir (MigrateRemaining.destDir m) w with
    | (t0, Throw e, w0) => (t0, Throw e, w0)
    | (t0, Return _, w0) =>
      if Fs.existsSync srcPath (fs w0) then
        match Fs.readFileSync srcPath (fs w0) with
        | Throw e =>
          (t0 ++ [EvExists srcPath (Return true); EvRead srcPath (Throw e)], Throw e, w0)
        | Return content =>
          match Fs.writeFileSync destPath content (fs w0) with
          | Throw e =>
            (t0 ++ [EvExists srcPath (Return true); EvRead srcPath (Return content);
                    EvWrite destPath content (Throw e)], Throw e, w0)
          | Return n =>
            (t0 ++ [EvExists srcPath (Return true); EvRead srcPath (Return content);
                    EvWrite destPath content (Return tt);
                    EvLog (MigrateRemaining.migrated m) (Return tt)],
             Return tt,
             {| fs := n; stdout := stdout w0 ++ [MigrateRemaining.migrated m] |})
          end
        end
      else
        (t0 ++ [EvExists srcPath (Return false);
                EvLog (MigrateRemaining.warning m) (Return tt)],
         Return tt,
         {| fs := fs w0; stdout := stdout w0 ++ [MigrateRemaining.warning m] |})
    end.
Proof.
  unfold MigrateRemaining.copy_one, exec, ensure_dir.
  cbn [run perform mbind prog_mbind prog_bind node_handle event_of].
  destruct (Fs.existsSync (MigrateRemaining.destDir m) (fs w)); cbn [negb].
  - cbn [run perform mbind prog_mbind prog_bind node_handle event_of mret prog_ret].
    destruct (Fs.existsSync _ (fs w)); [|done].
    cbn [run perform mbind prog_mbind prog_bind node_handle event_of].
    destruct (Fs.readFileSync _ (fs w)) as [content|e]; [|done].
    cbn [run perform mbind prog_mbind prog_bind node_handle event_of].
    by destruct (Fs.writeFileSync _ content (fs w)) as [n|e].
  - cbn [run perform mbind prog_mbind prog_bind node_handle event_of].
    destruct (Fs.mkdirSync _ (fs w)) as [n0|e0]; [|done].
    cbn [run perform mbind prog_mbind prog_bind node_handle event_of set_fs fs].
    destruct (Fs.existsSync _ n0); [|done].
    cbn [run perform mbind prog_mbind prog_bind node_handle event_of set_fs fs].
    destruct (Fs.readFileSync _ n0) as [content|e]; [|done].
    cbn [run perform mbind prog_mbind prog_bind node_handle event_of set_fs fs].
    by destruct (Fs.writeFileSync _ content n0) as [n|e].
Qed.

Lemma placedb_placed (m : MigrateRemaining.mapping) : placedb m = true -> placed m.
Proof.
  unfold placedb, placed.
  destruct (Fs.unsnoc (MigrateRemaining.destPath m)) as [[dir c]|] eqn:E; [|done].
  intros [[H1%bool_decide_eq_true H2%bool_decide_eq_true]%andb_prop
            H3%bool_decide_eq_true]%andb_prop.
  apply unsnoc_Some in E. subst dir. split; [|done].
  exists (drop (length docs) (MigrateRemaining.destDir m)), c. split; [|done].
  rewrite <- H2 at 1. symmetry. apply take_drop.
Qed.

Lemma mappings_placed : Forall placed MigrateRemaining.mappings.
Proof.
  apply Forall_forall. intros m Hm%list_elem_of_In. apply placedb_placed.
  revert m Hm. apply forallb_forall. vm_compute. reflexivity.
Qed.

Lemma beside_trans (s t u : Fs.node) : beside s t -> beside t u -> beside s u.
Proof. intros H K q Hq. by rewrite H, K. Qed.

Lemma beside_src_exists (s t : Fs.node) (m : MigrateRemaining.mapping) :
  placed m -> beside s t -> src_exists s m = src_exists t m.
Proof. intros [_ Hm] H. unfold src_exists, Fs.existsSync. by rewrite (H _ Hm). Qed.

Lemma beside_src_text (s t : Fs.node) (m : MigrateRemaining.mapping) :
  placed m -> beside s t -> src_text s m = src_text t m.
Proof. intros [_ Hm] H. unfold src_text, Fs.file_at. by rewrite (H _ Hm). Qed.

Lemma ensure_dir_beside (r : path) (w w0 : world) t0 r0 :
  ensure_dir (docs ++ r) w = (t0, r0, w0) ->
  beside (fs w) (fs w0) /\ writes t0 = [] /\ printed t0 = [].
Proof.
  unfold ensure_dir. destruct (Fs.existsSync _ (fs w)); [by intros [= <- _ <-]|].
  destruct (Fs.mkdirSync _ (fs w)) as [n|e] eqn:E; intros [= <- _ <-]; [|done].
  split; [|done]. intros q Hq. symmetry. eapply mkdir_walk_apart; [done|].
  by apply apart_app_r.
Qed.

(** What a turn that does not throw has done. *)
Lemma copy_one_ok (m : MigrateRemaining.mapping) (w w' : world) t :
  placed m ->
  exec (MigrateRemaining.copy_one m tt) w = (t, Return tt, w') ->
  beside (fs w) (fs w')
  /\ writes t = (if src_exists (fs w) m
                 then [(MigrateRemaining.destPath m, src_text (fs w) m)] else [])
  /\ printed t = [pair_line (fs w) m].
Proof.
  intros Hm. pose proof Hm as [(r & c & Hdir & Hdest) Hsrc].
  rewrite exec_copy_one. cbv zeta. rewrite Hdir.
  destruct (ensure_dir (docs ++ r) w) as [[t0 [[]|e0]] w0] eqn:E0; [|done].
  apply ensure_dir_beside in E0 as (Hb & Hw0 & Hp0).
  unfold pair_line. rewrite (beside_src_exists _ _ m Hm Hb), (beside_src_text _ _ m Hm Hb).
  unfold src_exists, src_text.
  destruct (Fs.existsSync _ (fs w0)).
  - destruct (Fs.readFileSync _ (fs w0)) as [content|e] eqn:Er; [|done].
    apply read_file_at in Er as (d & -> & ->).
    destruct (Fs.writeFileSync _ _ (fs w0)) as [n|e] eqn:Ew; [|done].
    intros [= <- <-]. rewrite writes_app, printed_app, Hw0, Hp0.
    split_and!; [|done|done]. eapply beside_trans; [done|].
    intros q Hq. symmetry. rewrite Hdest, Hdir, writeFileSync_snoc in Ew.
    eapply put_walk_apart; [done|]. rewrite <- app_assoc. by apply apart_app_r.
  - intros [= <- <-]. rewrite writes_app, printed_app, Hw0, Hp0. by split_and!.
Qed.

(** A loop that does not throw has copied the sources that are there and
    printed one line per pair. *)
Lemma copy_loop_ok (ms : list MigrateRemaining.mapping) :
  Forall placed ms ->
  forall w t w',
    exec (forEach ms MigrateRemaining.copy_one tt) w = (t, Return tt, w') ->
    writes t = map (fun m => (MigrateRemaining.destPath m, src_text (fs w) m))
                   (List.filter (src_exists (fs w)) ms)
    /\ printed t = map (pair_line (fs w)) ms.
Proof.
  unfold exec. induction 1 as [|m ms Hm Hms IH]; intros w t w' Hrun.
  - by injection Hrun as <- <-.
  - rewrite run_forEach_cons in Hrun.
    destruct (run node_handle (MigrateRemaining.copy_one m tt) w)
      as [[t1 [[]|e]] w1] eqn:E1; [|done].
    destruct (copy_one_ok m w w1 t1 Hm E1) as (Hb & Hw & Hp).
    destruct (run node_handle (forEach ms MigrateRemaining.copy_one tt) w1)
      as [[t2 r2] w2] eqn:E2.
    injection Hrun as <- -> <-. destruct (IH _ _ _ E2) as (Hw2 & Hp2).
    rewrite writes_app, printed_app, Hw, Hp, Hw2, Hp2. clear IH E1 E2 Hw Hp Hw2 Hp2.
    assert (List.filter (src_exists (fs w1)) ms = List.filter (src_exists (fs w)) ms
            /\ map (fun m => (MigrateRemaining.destPath m, src_text (fs w1) m))
                   (List.filter (src_exists (fs w)) ms)
               = map (fun m => (MigrateRemaining.destPath m, src_text (fs w) m))
                     (List.filter (src_exists (fs w)) ms)
            /\ map (pair_line (fs w1)) ms = map (pair_line (fs w)) ms) as (-> & -> & ->).
    { induction Hms as [|x ms Hx Hms IH]; [done|]. destruct IH as (IH1 & IH2 & IH3).
      cbn [List.filter map]. unfold pair_line at 1 3.
      rewrite <- (beside_src_exists _ _ x Hx Hb).
      split_and!; [by rewrite IH1| |by rewrite IH3].
      destruct (src_exists (fs w) x); [|done]. cbn [map].
      by rewrite IH2, <- (beside_src_text _ _ x Hx Hb). }
    cbn [List.filter map]. by destruct (src_exists (fs w) m).
Qed.

(** ** One line per pair *)

Section Choice.

(** Each element of a list contributes one of two lines; all the lines
    that can occur are different. *)
Context {T : Type} (A B f : T -> string).
Hypothesis f_choice : forall m, f m = A m \/ f m = B m.



End Choice.



Lemma destinations_distinct : NoDup (map MigrateRemaining.destPath MigrateRemaining.mappings).
Proof. apply (bool_decide_unpack _). by vm_compute. Qed.

Lemma NoDup_map_eq {T U} (g : T -> U) (l : list T) (a b : T) :
  NoDup (map g l) -> In a l -> In b l -> g a = g b -> a = b.
Proof.
  induction l as [|x l IH]; [done|]. cbn [map]. intros [Hx Hnd]%NoDup_cons.
  rewrite list_elem_of_In in Hx. intros [->|Ha] [->|Hb] E; try done.
  - destruct Hx. rewrite E. by apply in_map.
  - destruct Hx. rewrite <- E. by apply in_map.
  - by apply IH.
Qed.



(** * Further properties of the two scripts *)

(** ** What is there stays what it is *)

Lemma exists_kinds (q : path) (n : Fs.node) :
  Fs.existsSync q n = Fs.is_dir q n || is_file q n.
Proof.
  unfold Fs.existsSync, Fs.is_dir, is_file, Fs.file_at.
  by destruct (Fs.walk q n) as [[?|?]|].
Qed.

Lemma is_file_not_dir (q : path) (n : Fs.node) :
  is_file q n = true -> Fs.is_dir q n = false.
Proof.
  unfold Fs.is_dir, is_file, Fs.file_at. by destruct (Fs.walk q n) as [[?|?]|].
Qed.

(** Creating directories keeps the directories that are there. *)
Lemma mkdir_keeps_dir (p : path) :
  forall n n' q, Fs.mkdirSync p n = Return n' ->
                 Fs.is_dir q n = true -> Fs.is_dir q n' = true.
Proof.
  unfold Fs.is_dir, Fs.mkdirSync.
  induction p as [|c p IH]; intros [d0|es] n' q H Hq; cbn in H; try done.
  - by injection H as <-.
  - fold Fs.mkdirSync in *.
    destruct (Fs.mkdirSync p _) as [m'|] eqn:Ep; [|done]. injection H as <-.
    destruct q as [|y r]; [done|]. rewrite walk_cons in *.
    destruct (decide (y = c)) as [->|Hne].
    + rewrite assoc_set_entry_eq. destruct (Fs.assoc c es) as [m|]; [|done].
      by eapply IH.
    + by rewrite assoc_set_entry_ne.
Qed.

(** A call leaves every node that is there the kind of node it was. *)
Lemma handle_kind {R} (c : call R) (w w0 : world) (x : outcome R) (q : path) :
  node_handle R c w = (x, w0) -> Fs.existsSync q (fs w) = true ->
  Fs.is_dir q (fs w0) = Fs.is_dir q (fs w) /\ is_file q (fs w0) = is_file q (fs w).
Proof.
  intros Hc Hq. rewrite exists_kinds in Hq.
  destruct c; cbn in Hc; try (by injection Hc as _ <-).
  - destruct (Fs.mkdirSync p (fs w)) as [n|e] eqn:E; [|by injection Hc as _ <-].
    injection Hc as _ <-. cbn [set_fs fs].
    assert (is_file q n = is_file q (fs w)) as Hf
        by (unfold is_file; by rewrite (mkdir_file_at _ _ _ q E)).
    split; [|done]. destruct (Fs.is_dir q (fs w)) eqn:Hd.
    + by eapply mkdir_keeps_dir.
    + cbn in Hq. rewrite <- Hf in Hq. by apply is_file_not_dir.
  - destruct (Fs.writeFileSync p data (fs w)) as [n|e] eqn:E; [|by injection Hc as _ <-].
    injection Hc as _ <-. cbn [set_fs fs].
    pose proof (writeFileSync_is_dir _ _ _ _ q E) as Hd. split; [done|].
    unfold is_file. rewrite (writeFileSync_file_at _ _ _ _ q E).
    case_decide as Hqp; [|done]. subst q.
    destruct (Fs.file_at p (fs w)) eqn:Hf; [done|].
    unfold is_file in Hq. rewrite Hf, orb_false_r in Hq.
    assert (is_file p n = true) as Hn
        by (unfold is_file; rewrite (writeFileSync_file_at _ _ _ _ p E);
            by rewrite decide_True).
    apply is_file_not_dir in Hn. congruence.
Qed.

(** Whatever the script and however its run ends, what exists at the
    start exists at the end, as the kind of node it was. *)
Lemma exec_kind {A} (m : prog A) :
  forall w t r w' q,
    exec m w = (t, r, w') -> Fs.existsSync q (fs w) = true ->
    Fs.existsSync q (fs w') = true
    /\ Fs.is_dir q (fs w') = Fs.is_dir q (fs w)
    /\ is_file q (fs w') = is_file q (fs w).
Proof.
  unfold exec.
  induction m as [a|R c k IH]; intros w t r w' q Hrun Hq; cbn in Hrun.
  - by injection Hrun as _ _ <-.
  - destruct (node_handle R c w) as [[x|e] w0] eqn:Hc.
    + destruct (handle_kind c w w0 _ q Hc Hq) as [Hd Hf].
      assert (Fs.existsSync q (fs w0) = true) as Hq0
          by (rewrite exists_kinds, Hd, Hf, <- exists_kinds; exact Hq).
      destruct (run node_handle (k x) w0) as [[t0 r0] w1] eqn:Hk.
      injection Hrun as _ _ <-.
      destruct (IH _ _ _ _ _ q Hk Hq0) as (H1 & H2 & H3).
      split_and!; [done|by rewrite H2|by rewrite H3].
    + destruct (handle_kind c w w0 _ q Hc Hq) as [Hd Hf].
      injection Hrun as _ _ <-.
      split_and!; [|done|done].
      rewrite exists_kinds, Hd, Hf, <- exists_kinds. exact Hq.
Qed.

(** ** The calls of the primary script *)

Lemma footprint_outside (s t : Fs.node) (ev : event) :
  outside s t -> footprint s ev -> footprint t ev.
Proof.
  intros H. unfold footprint, listing.
  rewrite (outside_listing s t H).
  destruct ev; try done. intros [Hi|(mw & Hmw & Hm & -> & ->)]; [by left|right].
  exists mw. split_and!; [done| |done|by apply outside_page].
  by rewrite <- (outside_migrated s t mw H).
Qed.

Ltac each_event := repeat (apply Forall_cons_2; [done|]); apply Forall_nil_2.

Lemma turn_footprint (n0 : Fs.node) (w : world) (mw : string) (acc : list string) :
  Path.entry_name mw = true -> mw ∈ listing n0 -> alike n0 (fs w) ->
  Forall (footprint n0) (exec (Migrate.migrate_one mw acc) w).1.1.
Proof.
  intros Hmw Hin Ha. rewrite exec_migrate_one by done. cbn zeta.
  assert (forall r, footprint n0 (EvStat (Migrate.sourceDir ++ [mw]) r)) as Hs
      by (intros r; by exists mw).
  assert (forall r, footprint n0 (EvExists (Migrate.sourceDir ++ [mw; "README.md"]) r))
    as He by (intros r; right; by exists mw).
  assert (forall r, footprint n0 (EvRead (Migrate.sourceDir ++ [mw; "README.md"]) r))
    as Hr by (intros r; right; by exists mw).
  destruct (Fs.statIsDirectory _ (fs w)) as [[|]|e] eqn:Es; cbn [fst];
    [|each_event..].
  destruct (Fs.existsSync _ (fs w)) eqn:Ex; cbn [fst]; [|each_event].
  destruct (Fs.readFileSync _ (fs w)) as [content|e] eqn:Er; cbn [fst]; [|each_event].
  apply read_file_at in Er as (d & Hd & ->).
  assert (forall r, footprint n0 (EvWrite (page_path mw) (Utf8.to_text d) r)) as Hw.
  { intros r. right. exists mw. split_and!; [done| |done|].
    - rewrite (alike_migrated _ _ mw Ha). unfold migrated.
      apply stat_is_dir in Es. by rewrite Es, Ex.
    - rewrite (alike_page _ _ mw Ha). unfold page. by rewrite Hd. }
  destruct (Fs.writeFileSync _ _ (fs w)) as [n'|e]; cbn [fst]; each_event.
Qed.

Lemma loop_footprint (n0 : Fs.node) (names : list string) :
  proper names -> (forall x, x ∈ names -> x ∈ listing n0) ->
  forall acc w, alike n0 (fs w) ->
    Forall (footprint n0) (exec (forEach names Migrate.migrate_one acc) w).1.1.
Proof.
  unfold exec. induction 1 as [|mw names Hmw _ IH]; intros Hin acc w Ha;
    [constructor|].
  rewrite run_forEach_cons.
  pose proof (turn_footprint n0 w mw acc Hmw (Hin _ (list_elem_of_here _ _)) Ha) as H1.
  pose proof (migrate_one_alike w mw acc Hmw) as H2. unfold exec in H1, H2.
  destruct (run node_handle (Migrate.migrate_one mw acc) w) as [[t [s'|e]] w1];
    [|exact H1].
  cbn [fst snd] in H1, H2.
  assert (alike n0 (fs w1)) as Ha' by (by eapply alike_trans).
  specialize (IH (fun x Hx => Hin x (list_elem_of_further _ _ _ Hx)) s' w1 Ha').
  destruct (run node_handle (forEach names Migrate.migrate_one s') w1) as [[t2 r2] w2].
  cbn [fst] in *. by apply Forall_app.
Qed.

Lemma finish_footprint (w : world) :
  proper_source (fs w) -> Forall (footprint (fs w)) (exec finish w).1.1.
Proof.
  intros Hp. rewrite exec_finish, exec_scan.
  destruct (Fs.readdirSync Migrate.sourceDir (fs w)) as [names|e] eqn:E;
    [|each_event].
  assert (listing (fs w) = names) as Hl by (unfold listing; by rewrite E).
  pose proof (loop_footprint (fs w) names (Hp _ E)) as H1. rewrite Hl in H1.
  specialize (H1 (fun x Hx => Hx) [] w (alike_refl _)).
  destruct (exec (forEach names Migrate.migrate_one []) w) as [[t0 [l|e]] w0];
    cbn [fst] in *; [|by constructor].
  rewrite exec_publish, exec_write_index.
  assert (forall r, footprint (fs w) (EvWrite index_md (Migrate.indexContent l) r))
    as Hi by (intros r; left; by exists l).
  assert (forall r, footprint (fs w) (EvRead Migrate.configPath r))
    as Hc by (intros r; by left).
  destruct (Fs.writeFileSync index_md _ (fs w0)) as [n|e]; cbn [fst].
  - rewrite exec_sidebar.
    destruct (Fs.readFileSync Migrate.configPath _) as [c|e]; cbn [fst];
      (constructor; [done|]); (apply Forall_app; split; [done|]); each_event.
  - constructor; [done|]. apply Forall_app. split; [done|]. each_event.
Qed.

Lemma calls_to_footprint (w w' : world) (t : list event) (r : outcome unit) :
  Fs.wf (fs w) = true -> exec Migrate.main w = (t, r, w') ->
  Forall (footprint (fs w)) t.
Proof.
  intros Hwf%wf_proper_source. rewrite exec_main. unfold setup.
  destruct (Fs.existsSync Migrate.targetDir (fs w)).
  - pose proof (finish_footprint w Hwf) as H.
    destruct (exec finish w) as [[t0 r0] w0]. intros [= <- _ _].
    constructor; [by left|exact H].
  - destruct (Fs.mkdirSync Migrate.targetDir (fs w)) as [n|e] eqn:Em;
      [|intros [= <- _ _]; repeat (constructor; [by (done || left)|]); constructor].
    apply mkdir_outside in Em.
    pose proof (finish_footprint (set_fs w n) (outside_proper_source _ _ Em Hwf)) as H.
    destruct (exec finish (set_fs w n)) as [[t0 r0] w0]. intros [= <- _ _].
    constructor; [by left|]. constructor; [done|].
    eapply Forall_impl; [exact H|]. intros ev. apply footprint_outside.
    intros q Hq. symmetry. by apply Em.
Qed.

(** X2.  Whatever the outcome of a run of the primary script on a
    well-formed tree, each of its calls is one of these: the check and the
    making of the target directory, the listing of the source directory,
    the question whether a listed entry is a directory, the check and the
    reading of a listed entry's [README.md], the writing of the text of
    the [README.md] of a listed directory to its page, the writing of an
    index to [index.md], the reading of the site configuration, a printed
    line.
    Nothing apart from the target directory is changed: the source tree
    is read, never written. *)
Theorem calls_stay_in_footprint (w w' : world) (t : list event) (r : outcome unit) :
  Fs.wf (fs w) = true ->
  exec Migrate.main w = (t, r, w') ->
  Forall (footprint (fs w)) t
  /\ (forall q, apart q Migrate.targetDir -> Fs.walk q (fs w') = Fs.walk q (fs w)).
Proof.
  intros Hwf Hrun. split; [by eapply calls_to_footprint|].
  pose proof (main_outside w Hwf) as H. rewrite Hrun in H.
  intros q Hq. symmetry. by apply H.
Qed.

Lemma calls_stay_in_footprint_witness :
  let w := Sample.readme_is_directory in
  Forall (footprint (fs w)) (exec Migrate.main w).1.1
  /\ (forall q, apart q Migrate.targetDir ->
                Fs.walk q (fs (exec Migrate.main w).2) = Fs.walk q (fs w)).
Proof.
  cbv zeta.
  apply (calls_stay_in_footprint Sample.readme_is_directory _ _
                                 (exec Migrate.main Sample.readme_is_directory).1.2).
  - reflexivity.
  - vm_compute. reflexivity.
Defined.

(** ** When the primary script completes *)

(** Where something is already, making the directory goes through exactly
    when that something is a directory. *)
Lemma mkdir_exists (p : path) :
  forall n, Fs.existsSync p n = true ->
            match Fs.mkdirSync p n with
            | Return _ => Fs.is_dir p n = true
            | Throw _ => Fs.is_dir p n = false
            end.
Proof.
  unfold Fs.existsSync, Fs.is_dir, Fs.mkdirSync.
  induction p as [|c p IH]; intros [d0|es] H; cbn; try done.
  fold Fs.mkdirSync in *. rewrite walk_cons in *.
  destruct (Fs.assoc c es) as [m|]; [|done].
  specialize (IH m H). by destruct (Fs.mkdirSync p m).
Qed.

(** Making a directory does not change which of its entries are
    directories. *)
Lemma mkdir_child_is_dir (p : path) (c : string) :
  forall n n', Fs.mkdirSync p n = Return n' ->
               Fs.is_dir (p ++ [c]) n' = Fs.is_dir (p ++ [c]) n.
Proof.
  unfold Fs.is_dir, Fs.mkdirSync.
  induction p as [|x p IH]; intros [d0|es] n' H; cbn in H; try done.
  - by injection H as <-.
  - fold Fs.mkdirSync in *.
    destruct (Fs.mkdirSync p _) as [m'|] eqn:Ep; [|done]. injection H as <-.
    cbn [app]. rewrite !walk_cons, assoc_set_entry_eq.
    rewrite (IH _ _ Ep). destruct (Fs.assoc x es) as [m|]; [done|].
    rewrite walk_app. destruct p as [|y p]; [done|].
    by rewrite walk_cons.
Qed.

Lemma listed_assoc (c : string) es :
  c ∈ map fst es -> is_Some (Fs.assoc c es).
Proof.
  induction es as [|[k v] es IH]; cbn; [by intros ?%elem_of_nil|].
  intros [->|H]%elem_of_cons.
  - by rewrite String.eqb_refl.
  - destruct (String.eqb k c); [done|by apply IH].
Qed.

(** What a listing reports is there. *)
Lemma listed_exists (p : path) (n : Fs.node) (names : list string) (c : string) :
  Fs.readdirSync p n = Return names -> c ∈ names -> Fs.existsSync (p ++ [c]) n = true.
Proof.
  unfold Fs.readdirSync, Fs.existsSync. rewrite walk_app.
  destruct (Fs.walk p n) as [[d|es]|]; try done. intros [= <-] Hc.
  rewrite walk_cons. by destruct (listed_assoc c es Hc) as [m ->].
Qed.

Lemma is_file_read (p : path) (n : Fs.node) :
  is_file p n = match Fs.readFileSync p n with Return _ => true | Throw _ => false end.
Proof.
  unfold is_file, Fs.file_at, Fs.readFileSync. by destruct (Fs.walk p n) as [[?|?]|].
Qed.

Lemma topic_ok_alike (s t : Fs.node) (mw : string) :
  alike s t -> topic_ok s mw = topic_ok t mw.
Proof.
  intros H. unfold topic_ok, is_file.
  rewrite (alike_migrated s t mw H).
  rewrite (alike_file_at s t _ H (source_apart _)).
  destruct H as (_ & _ & H). unfold page_path. by rewrite H.
Qed.

Lemma forallb_eq {T} (f g : T -> bool) (l : list T) :
  (forall x, f x = g x) -> forallb f l = forallb g l.
Proof. intros H. induction l as [|x l IH]; cbn; [done|]. by rewrite H, IH. Qed.

(** One turn of the loop completes exactly when nothing stands in the way
    of the topic. *)
Lemma turn_completes (w : world) (mw : string) (acc : list string) :
  Path.entry_name mw = true ->
  Fs.existsSync (Migrate.sourceDir ++ [mw]) (fs w) = true ->
  Fs.is_dir Migrate.targetDir (fs w) = true ->
  completes (exec (Migrate.migrate_one mw acc) w) = topic_ok (fs w) mw.
Proof.
  intros Hmw Hex Ht. rewrite exec_migrate_one by done. cbn zeta.
  unfold topic_ok, migrated. rewrite exists_stat in Hex.
  destruct (Fs.statIsDirectory _ (fs w)) as [[|]|e] eqn:Es; [| |done].
  - apply stat_is_dir in Es. rewrite Es. cbn [andb].
    destruct (Fs.existsSync _ (fs w)); [|done]. cbn [negb orb].
    rewrite is_file_read.
    destruct (Fs.readFileSync _ (fs w)) as [content|e]; [|done]. cbn [andb].
    pose proof (put_thrown Migrate.targetDir (mw +:+ ".md") content (fs w)) as Hp.
    apply stat_is_dir in Ht. rewrite Ht in Hp.
    unfold page_path. rewrite writeFileSync_snoc.
    destruct (Fs.put _ _ _ (fs w)) as [n'|e]; cbn in Hp;
      by destruct (Fs.is_dir (Migrate.targetDir ++ [mw +:+ ".md"]) (fs w)).
  - assert (Fs.is_dir (Migrate.sourceDir ++ [mw]) (fs w) = false) as ->; [|done].
    destruct (Fs.is_dir (Migrate.sourceDir ++ [mw]) (fs w)) eqn:E; [|done].
    apply stat_is_dir in E. congruence.
Qed.

Lemma loop_completes (names : list string) :
  proper names ->
  forall acc w,
    (forall x, x ∈ names -> Fs.existsSync (Migrate.sourceDir ++ [x]) (fs w) = true) ->
    Fs.is_dir Migrate.targetDir (fs w) = true ->
    completes (exec (forEach names Migrate.migrate_one acc) w)
    = forallb (topic_ok (fs w)) names.
Proof.
  unfold exec. induction 1 as [|mw names Hmw _ IH]; intros acc w Hex Ht; [done|].
  rewrite run_forEach_cons. cbn [forallb].
  pose proof (turn_completes w mw acc Hmw (Hex _ (list_elem_of_here _ _)) Ht) as H1.
  pose proof (migrate_one_alike w mw acc Hmw) as Ha. unfold exec in H1, Ha.
  destruct (run node_handle (Migrate.migrate_one mw acc) w) as [[t [s'|e]] w1];
    cbn in H1, Ha; rewrite <- H1; [|done].
  cbn [andb].
  rewrite (forallb_eq _ (topic_ok (fs w1)))
    by (intros x; by apply topic_ok_alike).
  rewrite <- (IH s' w1).
  - by destruct (run node_handle (forEach names Migrate.migrate_one s') w1)
      as [[t2 r2] w2].
  - intros x Hx. rewrite <- (alike_exists _ _ _ Ha (source_apart _)).
    apply Hex. by apply list_elem_of_further.
  - apply stat_is_dir. destruct Ha as (_ & <- & _). by apply stat_is_dir.
Qed.

(** The part that follows the making of the target directory. *)
Lemma finish_completes (w : world) :
  proper_source (fs w) ->
  completes (exec finish w)
  = match Fs.readdirSync Migrate.sourceDir (fs w) with
    | Return names =>
      Fs.is_dir Migrate.targetDir (fs w)
      && forallb (topic_ok (fs w)) names
      && negb (Fs.is_dir index_md (fs w))
      && is_file Migrate.configPath (fs w)
    | Throw _ => false
    end.
Proof.
  intros Hp. rewrite exec_finish, exec_scan.
  destruct (Fs.readdirSync Migrate.sourceDir (fs w)) as [names|e] eqn:E; [|done].
  pose proof (loop_alike names (Hp _ E) [] w) as Ha.
  pose proof (loop_completes names (Hp _ E) [] w
                (fun x Hx => listed_exists _ _ _ _ E Hx)) as Hl.
  destruct (exec (forEach names Migrate.migrate_one []) w) as [[t0 [l|e]] w0];
    cbn [snd fst] in Ha.
  - rewrite exec_publish, exec_write_index.
    pose proof (put_thrown Migrate.targetDir "index.md" (Migrate.indexContent l) (fs w0))
      as Hput.
    unfold index_md at 1 2. rewrite writeFileSync_snoc.
    destruct Ha as (Ho & Hs & Hc). rewrite <- Hs, <- (Hc "index.md") in Hput.
    fold index_md in Hput.
    destruct (Fs.is_dir Migrate.targetDir (fs w)) eqn:Ht.
    + specialize (Hl eq_refl). cbn in Hl. rewrite <- Hl. cbn [andb].
      apply stat_is_dir in Ht. rewrite Ht in Hput.
      destruct (Fs.put _ _ _ (fs w0)) as [n|e] eqn:Ew; cbn in Hput.
      * destruct (Fs.is_dir index_md (fs w)); [done|]. cbn [negb andb].
        rewrite exec_sidebar. cbn [set_fs fs]. rewrite is_file_read.
        assert (Fs.readFileSync Migrate.configPath n
                = Fs.readFileSync Migrate.configPath (fs w)) as ->.
        { unfold Fs.readFileSync. rewrite (Ho _ config_apart_target).
          by rewrite (put_walk_apart _ _ _ _ _ _ Ew
                        (apart_app_r _ _ _ config_apart_target)). }
        by destruct (Fs.readFileSync Migrate.configPath (fs w)).
      * by destruct (Fs.is_dir index_md (fs w)).
    + cbn [andb]. destruct (Fs.put _ _ _ (fs w0)) as [n|e]; [|done]. cbn in Hput.
      destruct (Fs.statIsDirectory Migrate.targetDir (fs w)) as [[|]|] eqn:Es;
        try done.
      apply stat_is_dir in Es. congruence.
  - destruct (Fs.is_dir Migrate.targetDir (fs w)); [|done].
    specialize (Hl eq_refl). cbn in Hl. by rewrite <- Hl.
Qed.

Lemma completes_cons {A} (ev : event) (t : list event) (r : outcome A) (w : world) :
  completes (ev :: t, r, w) = completes (t, r, w).
Proof. reflexivity. Qed.

(** X3.  On a well-formed tree the primary script runs to completion
    exactly when: the target directory is there as a directory or can be
    made; the source directory can be listed; every listed directory that
    holds something called [README.md] holds it as a regular file, and its
    page [<topic>.md] is not a directory; [index.md] is not a directory;
    and the site configuration is a regular file.  In every other case the
    run throws. *)
Theorem completes_iff_ready (w : world) :
  Fs.wf (fs w) = true -> completes (exec Migrate.main w) = ready (fs w).
Proof.
  intros Hwf%wf_proper_source. rewrite exec_main. unfold setup, ready.
  destruct (Fs.existsSync Migrate.targetDir (fs w)) eqn:Hex.
  - pose proof (mkdir_exists _ _ Hex) as Hm.
    pose proof (finish_completes w Hwf) as Hf.
    destruct (exec finish w) as [[t0 r0] w0]. rewrite completes_cons, Hf.
    destruct (Fs.mkdirSync Migrate.targetDir (fs w)); rewrite Hm;
      by destruct (Fs.readdirSync Migrate.sourceDir (fs w)).
  - destruct (Fs.mkdirSync Migrate.targetDir (fs w)) as [n|e] eqn:Em; [|done].
    pose proof (mkdir_outside _ _ Em) as Ho.
    pose proof (finish_completes (set_fs w n) (outside_proper_source _ _ Ho Hwf)) as Hf.
    destruct (exec finish (set_fs w n)) as [[t0 r0] w0].
    rewrite !completes_cons, Hf. cbn [set_fs fs].
    rewrite <- (outside_listing _ _ Ho).
    destruct (Fs.readdirSync Migrate.sourceDir (fs w)) as [names|e]; [|done].
    rewrite (mkdir_is_dir _ _ _ Em). cbn [andb].
    unfold index_md. rewrite (mkdir_child_is_dir _ _ _ _ Em).
    assert (is_file Migrate.configPath n = is_file Migrate.configPath (fs w)) as ->
        by (unfold is_file, Fs.file_at; by rewrite (Ho _ config_apart_target)).
    do 2 f_equal. apply forallb_eq. intros mw. unfold topic_ok, is_file, Fs.file_at.
    rewrite <- (outside_migrated _ _ mw Ho), (Ho _ (source_apart _)).
    unfold page_path. by rewrite (mkdir_child_is_dir _ _ _ _ Em).
Qed.

Lemma completes_iff_ready_witness :
  completes (exec Migrate.main Sample.readme_is_directory)
  = ready (fs Sample.readme_is_directory)
  /\ ready (fs Sample.readme_is_directory) = false
  /\ completes (exec Migrate.main Sample.auth_and_empty) = ready (fs Sample.auth_and_empty)
  /\ ready (fs Sample.auth_and_empty) = true.
Proof.
  split_and!.
  - apply (completes_iff_ready Sample.readme_is_directory). reflexivity.
  - vm_compute. reflexivity.
  - apply (completes_iff_ready Sample.auth_and_empty). reflexivity.
  - vm_compute. reflexivity.
Defined.

(** ** What is written reads back as written *)

Lemma valid_FFFD (s : string) : Utf8.valid (Utf8.FFFD +:+ s) = Utf8.valid s.
Proof. reflexivity. Qed.

Lemma valid_to_text_len (n : nat) :
  forall s, String.length s <= n -> Utf8.valid (Utf8.to_text s) = true.
Proof.
  induction n as [n IH] using lt_wf_ind.
  intros [|b0 r0] Hlen; [reflexivity|].
  cbn [String.length] in Hlen.
  assert (Hr0 : Utf8.valid (Utf8.to_text r0) = true)
    by (apply (IH (String.length r0)); lia).
  cbn [Utf8.to_text].
  destruct (in_range 0 127 b0) eqn:E1.
  { cbn [Utf8.valid]. by rewrite E1. }
  destruct (in_range 194 223 b0) eqn:E2.
  { destruct r0 as [|b1 r1]; [reflexivity|]. cbn [String.length] in Hlen.
    destruct (Utf8.cont b1) eqn:C1; [|by rewrite valid_FFFD].
    cbn [Utf8.valid]. rewrite E1, E2, C1. apply (IH (String.length r1)); lia. }
  destruct (in_range 224 239 b0) eqn:E3.
  { destruct r0 as [|b1 r1]; [reflexivity|]. cbn [String.length] in Hlen.
    destruct (Utf8.second3 b0 b1) eqn:C1; [|by rewrite valid_FFFD].
    destruct r1 as [|b2 r2]; [reflexivity|]. cbn [String.length] in Hlen.
    destruct (Utf8.cont b2) eqn:C2;
      [|rewrite valid_FFFD; apply (IH (String.length (String b2 r2)));
        cbn [String.length]; lia].
    cbn [Utf8.valid]. rewrite E1, E2, E3, C1, C2.
    apply (IH (String.length r2)); lia. }
  destruct (in_range 240 244 b0) eqn:E4; [|by rewrite valid_FFFD].
  destruct r0 as [|b1 r1]; [reflexivity|]. cbn [String.length] in Hlen.
  destruct (Utf8.second4 b0 b1) eqn:C1; [|by rewrite valid_FFFD].
  destruct r1 as [|b2 r2]; [reflexivity|]. cbn [String.length] in Hlen.
  destruct (Utf8.cont b2) eqn:C2;
    [|rewrite valid_FFFD; apply (IH (String.length (String b2 r2)));
      cbn [String.length]; lia].
  destruct r2 as [|b3 r3]; [reflexivity|]. cbn [String.length] in Hlen.
  destruct (Utf8.cont b3) eqn:C3;
    [|rewrite valid_FFFD; apply (IH (String.length (String b3 r3)));
      cbn [String.length]; lia].
  cbn [Utf8.valid]. rewrite E1, E2, E3, E4, C1, C2, C3.
  apply (IH (String.length r3)); lia.
Qed.

(** The text read from any bytes is well-formed UTF-8. *)
Lemma valid_to_text (s : string) : Utf8.valid (Utf8.to_text s) = true.
Proof. by apply (valid_to_text_len (String.length s)). Qed.

(** Reading is idempotent: text that was read reads as itself. *)
Lemma to_text_to_text (s : string) : Utf8.to_text (Utf8.to_text s) = Utf8.to_text s.
Proof. apply utf8_valid_to_text, valid_to_text. Qed.

(** ** Pages of topics that are gone *)

Lemma writes_within (P : event -> Prop) (t : list event) :
  Forall P t -> forall p d, (p, d) ∈ writes t -> P (EvWrite p d (Return tt)).
Proof.
  induction 1 as [|ev t Hev _ IH]; intros p d Hin; [by apply elem_of_nil in Hin|].
  unfold writes in Hin. cbn [omap list_omap] in Hin.
  destruct (write_of ev) as [pd|] eqn:E; [|by apply IH].
  apply elem_of_cons in Hin as [<-|Hin]; [|by apply IH].
  destruct ev as [| | | | |p' d' [[]|]|]; try done. by injection E as -> ->.
Qed.

(** X4.  Whatever the outcome of a run of the primary script on a
    well-formed tree, a path other than [index.md] and other than the page
    of a listed directory that holds a [README.md] is not written to and
    holds afterwards the file it held before: the pages of topics that are
    no longer in the source directory stay as they are. *)
Theorem other_pages_untouched
        (w w' : world) (t : list event) (r : outcome unit) (q : path) :
  Fs.wf (fs w) = true ->
  exec Migrate.main w = (t, r, w') ->
  q <> index_md ->
  (forall mw, mw ∈ listing (fs w) -> migrated (fs w) mw = true -> q <> page_path mw) ->
  (forall d, (q, d) ∉ writes t)
  /\ Fs.file_at q (fs w') = Fs.file_at q (fs w).
Proof.
  intros Hwf Hrun Hi Hq.
  assert (forall d, (q, d) ∉ writes t) as Hnone.
  { intros d Hin.
    pose proof (calls_to_footprint _ _ _ _ Hwf Hrun) as Hfp.
    apply (writes_within _ _ Hfp) in Hin.
    destruct Hin as [(l & E & _)|(mw & Hmw & Hm & E & _)]; [done|].
    by apply (Hq mw). }
  split; [exact Hnone|].
  rewrite (exec_file_at _ _ _ _ _ q Hrun).
  apply last_write_other, Forall_forall. intros [p d] Hin Hp. cbn in Hp. subst p.
  by apply (Hnone d).
Qed.

Lemma other_pages_untouched_witness :
  let w := Cases.stale_page in
  (forall d, (page_path "old", d) ∉ writes (exec Migrate.main w).1.1)
  /\ Fs.file_at (page_path "old") (fs (exec Migrate.main w).2)
     = Fs.file_at (page_path "old") (fs w).
Proof.
  cbv zeta.
  apply (other_pages_untouched Cases.stale_page _ _ (exec Migrate.main Cases.stale_page).1.2).
  - reflexivity.
  - vm_compute. reflexivity.
  - discriminate.
  - intros mw Hmw. vm_compute in Hmw.
    apply elem_of_cons in Hmw as [->|Hmw]; [discriminate|].
    apply elem_of_cons in Hmw as [->|Hmw]; [discriminate|].
    by apply elem_of_nil in Hmw.
Defined.

(** ** Reading a migrated page *)

Lemma page_after_main (w w' : world) (t : list event) (mw d : string) :
  Fs.wf (fs w) = true ->
  exec Migrate.main w = (t, Return tt, w') ->
  Fs.file_at (Migrate.sourceDir ++ [mw; "README.md"]) (fs w) = Some d ->
  mw <> "index" ->
  Fs.file_at (page_path mw) (fs w') = Some (Utf8.to_text d).
Proof.
  intros Hwf Hrun Hd Hmw.
  destruct (main_ok _ _ _ Hwf Hrun) as (names & Hn & Hw & _). cbv zeta in Hw.
  destruct (file_at_listed _ _ _ _ _ Hd) as (names' & Hn' & Hin & Hdir & Hex).
  rewrite Hn in Hn'. injection Hn' as <-.
  rewrite (exec_file_at _ _ _ _ _ (page_path mw) Hrun), Hw, last_write_app.
  rewrite (last_write_other [_]).
  2:{ constructor; [|done]. cbn. intros E. symmetry in E.
      by apply page_path_index in E. }
  assert (page (fs w) mw = Utf8.to_text d) as <- by (unfold page; by rewrite Hd).
  apply last_write_same.
  - apply Forall_forall. intros pd (x & -> & _)%list_elem_of_fmap. cbn.
    by intros ->%page_path_inj.
  - exists (page_path mw, page (fs w) mw). split; [|done].
    apply list_elem_of_fmap. exists mw. split; [done|].
    apply elem_of_filter_migrated. done.
Qed.

Lemma dest_after_main (w w' : world) (t : list event) (m : MigrateRemaining.mapping)
      (d : string) :
  exec MigrateRemaining.main w = (t, Return tt, w') ->
  In m MigrateRemaining.mappings ->
  Fs.file_at (MigrateRemaining.srcPath m) (fs w) = Some d ->
  Fs.file_at (MigrateRemaining.destPath m) (fs w') = Some (Utf8.to_text d).
Proof.
  intros Hrun Hm Hd.
  destruct (copy_loop_ok _ mappings_placed _ _ _ Hrun) as (Hw & _).
  pose proof (exists_file_at _ _ _ Hd) as Hex.
  rewrite (exec_file_at _ _ _ _ _ (MigrateRemaining.destPath m) Hrun).
  assert (src_text (fs w) m = Utf8.to_text d) as <- by (unfold src_text; by rewrite Hd).
  apply last_write_same.
  - apply Forall_forall. intros [p d'] Hpd Hp'. cbn [fst] in Hp'. subst p. cbn [snd].
    rewrite Hw in Hpd. apply list_elem_of_fmap in Hpd as (m' & E & Hm').
    apply list_elem_of_In, filter_In in Hm' as [Hm' _].
    assert (m = m') as <-
        by (eapply NoDup_map_eq;
            [exact destinations_distinct|done|done|apply (f_equal fst) in E; exact E]).
    apply (f_equal snd) in E. exact E.
  - exists (MigrateRemaining.destPath m, src_text (fs w) m). split; [|done].
    rewrite Hw. apply list_elem_of_fmap. exists m. split; [done|].
    apply list_elem_of_In, filter_In. done.
Qed.

Lemma read_of_valid (p : path) (n : Fs.node) (d : string) :
  Fs.file_at p n = Some d -> Utf8.valid d = true -> Fs.readFileSync p n = Return d.
Proof.
  intros Hd Hv. apply read_file_at. exists d. split; [done|].
  symmetry. by apply utf8_valid_to_text.
Qed.

(** X5.  Whatever bytes a topic's [README.md] holds, after a run of the
    primary script that completes the topic's page is well-formed UTF-8,
    and reading the page as the script reads a [README.md] gives exactly
    the text that was read from the [README.md]: migrating the page again
    would change nothing.  (A topic called [index] is left out: its page
    is overwritten by the index.) *)
Theorem page_reads_back (w w' : world) (t : list event) (mw d : string) :
  Fs.wf (fs w) = true ->
  exec Migrate.main w = (t, Return tt, w') ->
  Fs.file_at (Migrate.sourceDir ++ [mw; "README.md"]) (fs w) = Some d ->
  mw <> "index" ->
  exists d',
    Fs.file_at (page_path mw) (fs w') = Some d'
    /\ Utf8.valid d' = true
    /\ Fs.readFileSync (page_path mw) (fs w') = Fs.readFileSync
                                                  (Migrate.sourceDir ++ [mw; "README.md"])
                                                  (fs w)
    /\ Fs.readFileSync (page_path mw) (fs w') = Return d'.
Proof.
  intros Hwf Hrun Hd Hmw.
  pose proof (page_after_main _ _ _ _ _ Hwf Hrun Hd Hmw) as Hp.
  pose proof (read_of_valid _ _ _ Hp (valid_to_text d)) as Hr.
  exists (Utf8.to_text d). split_and!; [done|apply valid_to_text| |done].
  rewrite Hr. symmetry. apply read_file_at. by exists d.
Qed.

Lemma page_reads_back_witness :
  exists d',
    Fs.file_at (page_path "notes") (fs (exec Migrate.main Sample.latin1_topic).2) = Some d'
    /\ Utf8.valid d' = true
    /\ Fs.readFileSync (page_path "notes") (fs (exec Migrate.main Sample.latin1_topic).2)
       = Fs.readFileSync (Migrate.sourceDir ++ ["notes"; "README.md"])
                         (fs Sample.latin1_topic)
    /\ Fs.readFileSync (page_path "notes") (fs (exec Migrate.main Sample.latin1_topic).2)
       = Return d'.
Proof.
  apply (page_reads_back Sample.latin1_topic _
                         (exec Migrate.main Sample.latin1_topic).1.1
                         "notes" ("caf" +:+ Sample.LATIN1_E_ACUTE)).
  - reflexivity.
  - vm_compute. reflexivity.
  - reflexivity.
  - discriminate.
Defined.

(** X6.  Whatever bytes the source of a pair holds, after a run of
    [migrate_remaining.js] that completes the pair's destination is
    well-formed UTF-8, and reading the destination as the script reads a
    source gives exactly the text that was read from the source: copying
    the destination again would change nothing. *)
Theorem destination_reads_back
        (w w' : world) (t : list event) (m : MigrateRemaining.mapping) (d : string) :
  exec MigrateRemaining.main w = (t, Return tt, w') ->
  In m MigrateRemaining.mappings ->
  Fs.file_at (MigrateRemaining.srcPath m) (fs w) = Some d ->
  exists d',
    Fs.file_at (MigrateRemaining.destPath m) (fs w') = Some d'
    /\ Utf8.valid d' = true
    /\ Fs.readFileSync (MigrateRemaining.destPath m) (fs w')
       = Fs.readFileSync (MigrateRemaining.srcPath m) (fs w)
    /\ Fs.readFileSync (MigrateRemaining.destPath m) (fs w') = Return d'.
Proof.
  intros Hrun Hm Hd.
  pose proof (dest_after_main _ _ _ _ _ Hrun Hm Hd) as Hp.
  pose proof (read_of_valid _ _ _ Hp (valid_to_text d)) as Hr.
  exists (Utf8.to_text d). split_and!; [done|apply valid_to_text| |done].
  rewrite Hr. symmetry. apply read_file_at. by exists d.
Qed.

Lemma destination_reads_back_witness :
  let w' := (exec MigrateRemaining.main Sample.latin1_source).2 in
  exists d',
    Fs.file_at (MigrateRemaining.destPath Sample.tutorial) (fs w') = Some d'
    /\ Utf8.valid d' = true
    /\ Fs.readFileSync (MigrateRemaining.destPath Sample.tutorial) (fs w')
       = Fs.readFileSync (MigrateRemaining.srcPath Sample.tutorial)
                         (fs Sample.latin1_source)
    /\ Fs.readFileSync (MigrateRemaining.destPath Sample.tutorial) (fs w') = Return d'.
Proof.
  cbv zeta.
  apply (destination_reads_back Sample.latin1_source _
           (exec MigrateRemaining.main Sample.latin1_source).1.1 Sample.tutorial
           ("caf" +:+ Sample.LATIN1_E_ACUTE)).
  - vm_compute. reflexivity.
  - repeat (first [left; reflexivity | right]).
  - reflexivity.
Defined.

(** ** The calls of [migrate_remaining.js] *)

Lemma beside_refl (s : Fs.node) : beside s s.
Proof. by intros q Hq. Qed.

Lemma beside_sym (s t : Fs.node) : beside s t -> beside t s.
Proof. intros H q Hq. symmetry. by apply H. Qed.

Lemma copy_one_calls (n0 : Fs.node) (m : MigrateRemaining.mapping) (w : world) :
  placed m -> m ∈ MigrateRemaining.mappings -> beside n0 (fs w) ->
  Forall (pair_call n0) (exec (MigrateRemaining.copy_one m tt) w).1.1
  /\ beside (fs w) (fs (exec (MigrateRemaining.copy_one m tt) w).2).
Proof.
  intros Hm Hin Hb. pose proof Hm as [(r & c & Hdir & Hdest) Hsrc].
  rewrite exec_copy_one. cbv zeta.
  assert (forall x, pair_call n0 (EvExists (MigrateRemaining.destDir m) x)) as H1
      by (intros x; exists m; split; [done|by left]).
  assert (forall x, pair_call n0 (EvMkdir (MigrateRemaining.destDir m) x)) as H2
      by (intros x; by exists m).
  assert (forall x, pair_call n0 (EvExists (MigrateRemaining.srcPath m) x)) as H3
      by (intros x; exists m; split; [done|by right]).
  assert (forall x, pair_call n0 (EvRead (MigrateRemaining.srcPath m) x)) as H4
      by (intros x; by exists m).
  assert (forall x, pair_call n0 (EvLog (MigrateRemaining.migrated m) x)) as H5
      by (intros x; exists m; split; [done|by left]).
  assert (forall x, pair_call n0 (EvLog (MigrateRemaining.warning m) x)) as H6
      by (intros x; exists m; split; [done|by right]).
  assert (exists t0 r0 w0,
             ensure_dir (MigrateRemaining.destDir m) w = (t0, r0, w0)
             /\ Forall (pair_call n0) t0 /\ beside (fs w) (fs w0))
    as (t0 & r0 & w0 & -> & Ht0 & Hb0).
  { unfold ensure_dir. destruct (Fs.existsSync _ (fs w)).
    - eexists _, _, _. split; [done|]. split; [each_event|apply beside_refl].
    - destruct (Fs.mkdirSync _ (fs w)) as [n|e] eqn:E.
      + eexists _, _, _. split; [done|]. split; [each_event|].
        rewrite Hdir in E. intros q Hq. symmetry.
        eapply mkdir_walk_apart; [done|]. by apply apart_app_r.
      + eexists _, _, _. split; [done|]. split; [each_event|apply beside_refl]. }
  destruct r0 as [[]|e0]; [|done].
  destruct (Fs.existsSync _ (fs w0)).
  - destruct (Fs.readFileSync _ (fs w0)) as [content|e] eqn:Er; cbn [fst snd].
    + apply read_file_at in Er as (d & Hd & ->).
      assert (forall x, pair_call n0 (EvWrite (MigrateRemaining.destPath m)
                                              (Utf8.to_text d) x)) as H7.
      { intros x. exists m. split_and!; [done|done|].
        rewrite (beside_src_text n0 (fs w0) m Hm) by (by eapply beside_trans).
        unfold src_text. by rewrite Hd. }
      destruct (Fs.writeFileSync _ _ (fs w0)) as [n|e] eqn:Ew; cbn [fst snd fs].
      * split; [apply Forall_app; split; [done|each_event]|].
        eapply beside_trans; [done|].
        intros q Hq. symmetry. rewrite Hdest, Hdir, writeFileSync_snoc in Ew.
        eapply put_walk_apart; [done|]. rewrite <- app_assoc. by apply apart_app_r.
      * split; [apply Forall_app; split; [done|each_event]|done].
    + split; [apply Forall_app; split; [done|each_event]|done].
  - cbn [fst snd fs]. split; [apply Forall_app; split; [done|each_event]|done].
Qed.

Lemma copy_loop_calls (n0 : Fs.node) (ms : list MigrateRemaining.mapping) :
  Forall placed ms -> (forall m, m ∈ ms -> m ∈ MigrateRemaining.mappings) ->
  forall w, beside n0 (fs w) ->
    Forall (pair_call n0) (exec (forEach ms MigrateRemaining.copy_one tt) w).1.1
    /\ beside (fs w) (fs (exec (forEach ms MigrateRemaining.copy_one tt) w).2).
Proof.
  unfold exec. induction 1 as [|m ms Hm _ IH]; intros Hin w Hb.
  - split; [constructor|apply beside_refl].
  - rewrite run_forEach_cons.
    destruct (copy_one_calls n0 m w Hm (Hin _ (list_elem_of_here _ _)) Hb) as [H1 H2].
    unfold exec in H1, H2.
    destruct (run node_handle (MigrateRemaining.copy_one m tt) w) as [[t [[]|e]] w1];
      [|done].
    cbn [fst snd] in H1, H2.
    destruct (IH (fun x Hx => Hin x (list_elem_of_further _ _ _ Hx)) w1
                 (beside_trans _ _ _ Hb H2)) as [H3 H4].
    destruct (run node_handle (forEach ms MigrateRemaining.copy_one tt) w1)
      as [[t2 r2] w2].
    cbn [fst snd] in *. split; [by apply Forall_app|by eapply beside_trans].
Qed.

(** X7.  Whatever the outcome of a run of [migrate_remaining.js], each of
    its calls belongs to a pair of the list: the check and the making of
    the pair's destination directory, the check and the reading of its
    source, the writing of the text of the source to its destination, its
    success line or its warning.  Nothing apart from [docs] is changed:
    the sources are read, never written. *)
Theorem pair_calls_only (w : world) :
  Forall (pair_call (fs w)) (exec MigrateRemaining.main w).1.1
  /\ (forall q, apart q docs ->
                Fs.walk q (fs (exec MigrateRemaining.main w).2) = Fs.walk q (fs w)).
Proof.
  destruct (copy_loop_calls (fs w) MigrateRemaining.mappings mappings_placed
                            (fun m Hm => Hm) w (beside_refl _)) as [H1 H2].
  split; [exact H1|]. intros q Hq. symmetry. by apply H2.
Qed.

Lemma pair_calls_only_witness :
  let w := Cases.db_readme_is_directory in
  (Forall (pair_call (fs w)) (exec MigrateRemaining.main w).1.1
   /\ (forall q, apart q docs ->
                 Fs.walk q (fs (exec MigrateRemaining.main w).2) = Fs.walk q (fs w)))
  /\ (exec MigrateRemaining.main w).1.2 = Throw EISDIR.
Proof.
  cbv zeta. split; [apply (pair_calls_only Cases.db_readme_is_directory)|].
  vm_compute. reflexivity.
Defined.

(** ** A run of [migrate_remaining.js] that completes *)

(** Filesystems that agree apart from [docs] give the pairs the same
    lines and the same texts. *)
Lemma beside_account (s t : Fs.node) (ms : list MigrateRemaining.mapping) :
  beside s t -> Forall placed ms ->
  List.filter (src_exists t) ms = List.filter (src_exists s) ms
  /\ map (fun m => (MigrateRemaining.destPath m, src_text t m))
         (List.filter (src_exists s) ms)
     = map (fun m => (MigrateRemaining.destPath m, src_text s m))
           (List.filter (src_exists s) ms)
  /\ map (pair_line t) ms = map (pair_line s) ms.
Proof.
  intros Hb. induction 1 as [|x ms Hx Hms IH]; [done|]. destruct IH as (IH1 & IH2 & IH3).
  cbn [List.filter map]. unfold pair_line at 1 3.
  rewrite <- (beside_src_exists _ _ x Hx Hb).
  split_and!; [by rewrite IH1| |by rewrite IH3].
  destruct (src_exists s x); [|done]. cbn [map].
  by rewrite IH2, <- (beside_src_text _ _ x Hx Hb).
Qed.

(** ** Running [migrate_remaining.js] again *)

Lemma file_parent_dir (p : path) (c : string) (n : Fs.node) :
  is_file (p ++ [c]) n = true -> Fs.statIsDirectory p n = Return true.
Proof.
  unfold is_file, Fs.file_at, Fs.statIsDirectory. rewrite walk_app.
  destruct (Fs.walk p n) as [[d|es]|]; done.
Qed.

Lemma write_kind (p : path) (d : string) (n n' : Fs.node) (q : path) :
  Fs.writeFileSync p d n = Return n' -> Fs.existsSync q n = true ->
  Fs.existsSync q n' = true /\ is_file q n' = is_file q n.
Proof.
  intros E Hq.
  pose proof (handle_kind (WriteFileSync p d) (World n []) (World n' []) (Return tt) q)
    as H.
  cbn [node_handle fs] in H. rewrite E in H. destruct (H eq_refl Hq) as [Hd Hf].
  split; [|done]. rewrite exists_kinds, Hd, Hf, <- exists_kinds. exact Hq.
Qed.

Lemma beside_is_file (s t : Fs.node) (m : MigrateRemaining.mapping) :
  placed m -> beside s t ->
  is_file (MigrateRemaining.srcPath m) s = is_file (MigrateRemaining.srcPath m) t.
Proof. intros [_ Hm] H. unfold is_file, Fs.file_at. by rewrite (H _ Hm). Qed.

(** After a turn that does not throw the destination directory is there,
    and a source that was there is a regular file. *)
Lemma copy_one_settles (m : MigrateRemaining.mapping) (w w' : world) t :
  placed m ->
  exec (MigrateRemaining.copy_one m tt) w = (t, Return tt, w') ->
  Fs.existsSync (MigrateRemaining.destDir m) (fs w') = true
  /\ (src_exists (fs w) m = true -> is_file (MigrateRemaining.srcPath m) (fs w) = true).
Proof.
  intros Hm. pose proof Hm as [(r & c & Hdir & Hdest) Hsrc].
  rewrite exec_copy_one. cbv zeta.
  destruct (ensure_dir (MigrateRemaining.destDir m) w) as [[t0 [[]|e0]] w0] eqn:E0;
    [|done].
  assert (Fs.existsSync (MigrateRemaining.destDir m) (fs w0) = true) as Hd.
  { revert E0. unfold ensure_dir.
    destruct (Fs.existsSync _ (fs w)) eqn:Hex; [by intros [= _ <-]|].
    destruct (Fs.mkdirSync _ (fs w)) as [n|e] eqn:Em; [|done]. intros [= _ <-].
    cbn [set_fs fs]. rewrite exists_kinds. by rewrite (mkdir_is_dir _ _ _ Em). }
  rewrite Hdir in E0. apply ensure_dir_beside in E0 as (Hb & _ & _).
  rewrite (beside_src_exists _ _ m Hm Hb), (beside_is_file _ _ m Hm Hb).
  unfold src_exists. rewrite is_file_read.
  destruct (Fs.existsSync (MigrateRemaining.srcPath m) (fs w0)).
  - destruct (Fs.readFileSync _ (fs w0)) as [content|e]; [|done].
    destruct (Fs.writeFileSync _ content (fs w0)) as [n|e] eqn:Ew; [|done].
    intros [= _ <-]. cbn [fs]. split; [|done].
    by destruct (write_kind _ _ _ _ _ Ew Hd).
  - by intros [= _ <-].
Qed.

Lemma copy_loop_settles (ms : list MigrateRemaining.mapping) :
  Forall placed ms ->
  forall w t w',
    exec (forEach ms MigrateRemaining.copy_one tt) w = (t, Return tt, w') ->
    forall m, m ∈ ms ->
      Fs.existsSync (MigrateRemaining.destDir m) (fs w') = true
      /\ (src_exists (fs w) m = true ->
          is_file (MigrateRemaining.srcPath m) (fs w) = true).
Proof.
  unfold exec. induction 1 as [|x ms Hx Hms IH]; intros w t w' Hrun m Hin;
    [by apply elem_of_nil in Hin|].
  rewrite run_forEach_cons in Hrun.
  destruct (run node_handle (MigrateRemaining.copy_one x tt) w)
    as [[t1 [[]|e]] w1] eqn:E1; [|done].
  destruct (copy_one_settles x w w1 t1 Hx E1) as [Hd Hs].
  destruct (copy_one_ok x w w1 t1 Hx E1) as (Hb & _ & _).
  destruct (run node_handle (forEach ms MigrateRemaining.copy_one tt) w1)
    as [[t2 r2] w2] eqn:E2.
  injection Hrun as _ -> <-.
  apply elem_of_cons in Hin as [->|Hin].
  - split; [|done]. by destruct (exec_kind _ _ _ _ _ _ E2 Hd).
  - destruct (IH _ _ _ E2 m Hin) as [Hd' Hs']. split; [done|].
    rewrite Forall_forall in Hms.
    rewrite (beside_src_exists _ _ m (Hms _ Hin) Hb),
            (beside_is_file _ _ m (Hms _ Hin) Hb). exact Hs'.
Qed.

(** On a settled filesystem a turn makes no directory, does not throw,
    and leaves the filesystem settled. *)
Lemma settled_turn (m : MigrateRemaining.mapping) (w : world) :
  settled (fs w) -> m ∈ MigrateRemaining.mappings ->
  exists t w',
    exec (MigrateRemaining.copy_one m tt) w = (t, Return tt, w')
    /\ mkdirs t = [] /\ settled (fs w').
Proof.
  intros Hs Hin. pose proof mappings_placed as Hpl. rewrite Forall_forall in Hpl.
  pose proof (Hpl _ Hin) as [(r & c & Hdir & Hdest) Hsrc].
  destruct (Hs m Hin) as [Hd Hf].
  rewrite exec_copy_one. cbv zeta. unfold ensure_dir. rewrite Hd.
  fold (src_exists (fs w) m). destruct (src_exists (fs w) m) eqn:Hex.
  - destruct (Hf eq_refl) as [Hsf Hdf]. rewrite is_file_read in Hsf.
    destruct (Fs.readFileSync _ (fs w)) as [content|e]; [|done].
    pose proof (put_thrown (MigrateRemaining.destDir m) c content (fs w)) as Hp.
    rewrite Hdest in Hdf.
    rewrite (file_parent_dir _ _ _ Hdf), (is_file_not_dir _ _ Hdf) in Hp.
    assert (exists n, Fs.put (MigrateRemaining.destDir m) c content (fs w) = Return n)
      as [n Ep] by (destruct (Fs.put _ c content (fs w)); [by eexists|done]).
    assert (Fs.writeFileSync (MigrateRemaining.destPath m) content (fs w) = Return n)
      as Ew by (by rewrite Hdest, writeFileSync_snoc).
    rewrite Ew. eexists _, _. split; [done|]. split; [done|]. cbn [fs].
    assert (beside (fs w) n) as Hb.
    { intros q Hq. symmetry. rewrite Hdir in Ep.
      eapply put_walk_apart; [done|]. rewrite <- app_assoc. by apply apart_app_r. }
    intros m' Hin'. destruct (Hs m' Hin') as [Hd' Hf'].
    split; [by destruct (write_kind _ _ _ _ _ Ew Hd')|].
    rewrite <- (beside_src_exists _ _ m' (Hpl _ Hin') Hb),
            <- (beside_is_file _ _ m' (Hpl _ Hin') Hb).
    intros Hex'. destruct (Hf' Hex') as [Hsf' Hdf']. split; [done|].
    assert (Fs.existsSync (MigrateRemaining.destPath m') (fs w) = true) as Hde
        by (rewrite exists_kinds, Hdf'; apply orb_true_r).
    destruct (write_kind _ _ _ _ _ Ew Hde) as [_ ->]. exact Hdf'.
  - eexists _, _. split; [done|]. split; [done|]. exact Hs.
Qed.

Lemma settled_loop (ms : list MigrateRemaining.mapping) :
  (forall m, m ∈ ms -> m ∈ MigrateRemaining.mappings) ->
  forall w, settled (fs w) ->
    exists t w',
      exec (forEach ms MigrateRemaining.copy_one tt) w = (t, Return tt, w')
      /\ mkdirs t = [].
Proof.
  unfold exec. induction ms as [|m ms IH]; intros Hin w Hs.
  - by eexists _, _.
  - rewrite run_forEach_cons.
    destruct (settled_turn m w Hs (Hin _ (list_elem_of_here _ _)))
      as (t1 & w1 & E1 & Hm1 & Hs1).
    unfold exec in E1. rewrite E1.
    destruct (IH (fun x Hx => Hin x (list_elem_of_further _ _ _ Hx)) w1 Hs1)
      as (t2 & w2 & E2 & Hm2).
    rewrite E2. eexists _, _. split; [done|]. by rewrite mkdirs_app, Hm1, Hm2.
Qed.

(** X8.  Run [migrate_remaining.js] to completion, then run it again on
    what the first run left.  The second run completes too; it makes no
    directory, writes the same contents to the same paths in the same
    order and prints the same lines; after it every path holds the file,
    byte for byte, and is the directory, that it was after the first
    run. *)
Theorem remaining_rerun_writes_the_same
        (w w1 w2 : world) (t1 t2 : list event) (r2 : outcome unit) :
  exec MigrateRemaining.main w = (t1, Return tt, w1) ->
  exec MigrateRemaining.main w1 = (t2, r2, w2) ->
  r2 = Return tt
  /\ mkdirs t2 = []
  /\ writes t2 = writes t1
  /\ printed t2 = printed t1
  /\ (forall q, Fs.file_at q (fs w2) = Fs.file_at q (fs w1))
  /\ (forall q, Fs.is_dir q (fs w2) = Fs.is_dir q (fs w1)).
Proof.
  intros E1 E2.
  pose proof mappings_placed as Hpl. rewrite Forall_forall in Hpl.
  assert (beside (fs w) (fs w1)) as Hb.
  { destruct (copy_loop_calls (fs w) MigrateRemaining.mappings mappings_placed
                              (fun m Hm => Hm) w (beside_refl _)) as [_ H].
    unfold MigrateRemaining.main in E1. by rewrite E1 in H. }
  assert (settled (fs w1)) as Hs.
  { intros m Hm.
    destruct (copy_loop_settles _ mappings_placed _ _ _ E1 m Hm) as [Hd Hf].
    split; [done|].
    rewrite <- (beside_src_exists _ _ m (Hpl _ Hm) Hb),
            <- (beside_is_file _ _ m (Hpl _ Hm) Hb).
    intros Hex. pose proof (Hf Hex) as Hsf. split; [done|].
    unfold is_file in Hsf.
    destruct (Fs.file_at (MigrateRemaining.srcPath m) (fs w)) as [d|] eqn:Hd'; [|done].
    unfold is_file.
    by rewrite (dest_after_main _ _ _ m d E1 (proj1 (list_elem_of_In _ _) Hm) Hd'). }
  destruct (settled_loop MigrateRemaining.mappings (fun m Hm => Hm) w1 Hs)
    as (t & w' & E & Hmk).
  unfold MigrateRemaining.main in E2. rewrite E in E2. injection E2 as <- <- <-.
  destruct (copy_loop_ok _ mappings_placed _ _ _ E1) as (Hw1 & Hp1).
  destruct (copy_loop_ok _ mappings_placed _ _ _ E) as (Hw2 & Hp2).
  destruct (beside_account _ _ MigrateRemaining.mappings Hb mappings_placed)
    as (Ha & Hb' & Hc).
  assert (writes t = writes t1) as Hw by (by rewrite Hw1, Hw2, Ha, Hb').
  split_and!; [done|done|done|by rewrite Hp1, Hp2| |].
  - intros q. rewrite (exec_file_at _ _ _ _ _ q E), (exec_file_at _ _ _ _ _ q E1), Hw.
    apply last_write_idem.
  - intros q. by eapply exec_is_dir.
Qed.

Lemma remaining_rerun_writes_the_same_witness :
  let first := exec MigrateRemaining.main Sample.two_sources in
  let second := exec MigrateRemaining.main first.2 in
  second.1.2 = Return tt
  /\ mkdirs second.1.1 = []
  /\ writes second.1.1 = writes first.1.1
  /\ printed second.1.1 = printed first.1.1
  /\ (forall q, Fs.file_at q (fs second.2) = Fs.file_at q (fs first.2))
  /\ (forall q, Fs.is_dir q (fs second.2) = Fs.is_dir q (fs first.2)).
Proof.
  cbv zeta.
  apply (remaining_rerun_writes_the_same Sample.two_sources).
  - vm_compute. reflexivity.
  - vm_compute. reflexivity.
Defined.

(** ** A run of [migrate_remaining.js] that throws *)

(** A turn that throws has written and printed nothing. *)
Lemma copy_one_thrown (m : MigrateRemaining.mapping) (w w' : world) t e :
  exec (MigrateRemaining.copy_one m tt) w = (t, Throw e, w') ->
  writes t = [] /\ printed t = [].
Proof.
  rewrite exec_copy_one. cbv zeta.
  assert (exists t0 r0 w0,
             ensure_dir (MigrateRemaining.destDir m) w = (t0, r0, w0)
             /\ writes t0 = [] /\ printed t0 = []) as (t0 & r0 & w0 & -> & Hw0 & Hp0).
  { unfold ensure_dir. destruct (Fs.existsSync _ (fs w)); [by eexists _, _, _|].
    destruct (Fs.mkdirSync _ (fs w)); by eexists _, _, _. }
  destruct r0 as [[]|e0]; [|by intros [= <- _ _]].
  destruct (Fs.existsSync _ (fs w0)); [|done].
  destruct (Fs.readFileSync _ (fs w0)) as [content|e1].
  - destruct (Fs.writeFileSync _ content (fs w0)) as [n|e2]; [done|].
    intros [= <- _ _]. by rewrite writes_app, printed_app, Hw0, Hp0.
  - intros [= <- _ _]. by rewrite writes_app, printed_app, Hw0, Hp0.
Qed.

Lemma copy_loop_prefix (ms : list MigrateRemaining.mapping) :
  Forall placed ms ->
  forall w t r w',
    exec (forEach ms MigrateRemaining.copy_one tt) w = (t, r, w') ->
    exists k,
      k <= length ms
      /\ (k = length ms <-> r = Return tt)
      /\ printed t = map (pair_line (fs w)) (take k ms)
      /\ writes t = map (fun m => (MigrateRemaining.destPath m, src_text (fs w) m))
                        (List.filter (src_exists (fs w)) (take k ms)).
Proof.
  unfold exec. induction 1 as [|m ms Hm Hms IH]; intros w t r w' Hrun.
  - injection Hrun as <- <- _. exists 0. by split_and!.
  - rewrite run_forEach_cons in Hrun.
    destruct (run node_handle (MigrateRemaining.copy_one m tt) w)
      as [[t1 [[]|e]] w1] eqn:E1.
    + destruct (copy_one_ok m w w1 t1 Hm E1) as (Hb & Hw & Hp).
      destruct (run node_handle (forEach ms MigrateRemaining.copy_one tt) w1)
        as [[t2 r2] w2] eqn:E2.
      injection Hrun as <- <- _.
      destruct (IH _ _ _ _ E2) as (k & Hk & Hr & Hp2 & Hw2).
      exists (S k). cbn [length take].
      assert (Forall placed (take k ms)) as Hpl by (by apply Forall_take).
      destruct (beside_account _ _ (take k ms) Hb Hpl) as (Ha & Hb' & Hc).
      split_and!; [lia|rewrite <- Hr; lia| |].
      * by rewrite printed_app, Hp, Hp2, Hc.
      * rewrite writes_app, Hw, Hw2, Ha, Hb'. cbn [List.filter map].
        by destruct (src_exists (fs w) m).
    + injection Hrun as <- <- _. destruct (copy_one_thrown _ _ _ _ _ E1) as [Hw Hp].
      exists 0. cbn [length take]. split_and!; [lia| |done|done].
      split; [lia|done].
Qed.



(** ** A run of the primary script that throws *)

(** A turn that throws has written and printed nothing. *)
Lemma migrate_one_thrown (w w' : world) (mw : string) (acc : list string) t e :
  Path.entry_name mw = true ->
  exec (Migrate.migrate_one mw acc) w = (t, Throw e, w') ->
  writes t = [] /\ printed t = [].
Proof.
  intros Hmw. rewrite exec_migrate_one by done. cbn zeta.
  destruct (Fs.statIsDirectory _ (fs w)) as [[|]|e0]; [|done|by intros [= <- _ _]].
  destruct (Fs.existsSync _ (fs w)); [|done].
  destruct (Fs.readFileSync _ (fs w)) as [content|e1]; [|by intros [= <- _ _]].
  destruct (Fs.writeFileSync _ content (fs w)) as [n'|e2]; [done|].
  by intros [= <- _ _].
Qed.

Lemma loop_prefix (names : list string) :
  proper names ->
  forall acc w t r w',
    exec (forEach names Migrate.migrate_one acc) w = (t, r, w') ->
    exists k,
      k <= length names
      /\ (forall e, r = Throw e -> k < length names)
      /\ (forall l, r = Return l ->
                    k = length names /\ l = acc ++ List.filter (migrated (fs w)) names)
      /\ writes t = map (fun mw => (page_path mw, page (fs w) mw))
                        (List.filter (migrated (fs w)) (take k names))
      /\ printed t = map (fun mw => "Migrated " +:+ mw)
                         (List.filter (migrated (fs w)) (take k names)).
Proof.
  unfold exec. induction 1 as [|mw names Hmw _ IH]; intros acc w t r w' Hrun.
  - injection Hrun as <- <- _. exists 0. split_and!; [done|done| |done|done].
    intros l [= <-]. by rewrite app_nil_r.
  - rewrite run_forEach_cons in Hrun.
    pose proof (migrate_one_alike w mw acc Hmw) as Ha. unfold exec in Ha.
    destruct (run node_handle (Migrate.migrate_one mw acc) w) as [[t1 [s'|e]] w1]
      eqn:E1.
    + destruct (migrate_one_ok w w1 mw acc s' t1 Hmw E1) as (-> & Hw & Hp & _ & _).
      destruct (run node_handle (forEach names Migrate.migrate_one _) w1)
        as [[t2 r2] w2] eqn:E2.
      injection Hrun as <- <- _. cbn [snd] in Ha.
      destruct (IH _ _ _ _ _ E2) as (k & Hk & Hthrow & Hret & Hw2 & Hp2).
      assert (forall l, List.filter (migrated (fs w1)) l = List.filter (migrated (fs w)) l)
        as Hf by (intros l; apply filter_ext; intros x; symmetry;
                  by apply alike_migrated).
      rewrite Hf in Hw2, Hp2.
      rewrite (map_ext (fun x => (page_path x, page (fs w1) x))
                       (fun x => (page_path x, page (fs w) x))) in Hw2
        by (intros x; f_equal; symmetry; by apply alike_page).
      exists (S k). cbn [length take List.filter].
      split_and!; [lia|intros e He; specialize (Hthrow e He); lia| | |].
      * intros l Hl. destruct (Hret l Hl) as [-> ->]. split; [done|].
        rewrite Hf, <- app_assoc. by destruct (migrated (fs w) mw).
      * rewrite writes_app, Hw, Hw2. by destruct (migrated (fs w) mw).
      * rewrite printed_app, Hp, Hp2. by destruct (migrated (fs w) mw).
    + injection Hrun as <- <- _.
      destruct (migrate_one_thrown _ _ _ _ _ _ Hmw E1) as [Hw Hp].
      exists 0. cbn [length take]. split_and!; [lia|intros; lia|done|done|done].
Qed.

Lemma writes_readdir (p : path) (x : outcome (list string)) (t : list event) :
  writes (EvReaddir p x :: t) = writes t.
Proof. reflexivity. Qed.

Lemma printed_readdir (p : path) (x : outcome (list string)) (t : list event) :
  printed (EvReaddir p x :: t) = printed t.
Proof. reflexivity. Qed.

Lemma finish_prefix (w w' : world) (t : list event) (r : outcome unit) :
  proper_source (fs w) ->
  exec finish w = (t, r, w') ->
  exists k (indexed : bool),
    let done := List.filter (migrated (fs w)) (take k (listing (fs w))) in
    k <= length (listing (fs w))
    /\ (indexed = true -> k = length (listing (fs w)))
    /\ (r = Return tt -> indexed = true)
    /\ writes t = map (fun mw => (page_path mw, page (fs w) mw)) done
                  ++ (if indexed then [(index_md, Migrate.indexContent done)] else [])
    /\ printed t = map (fun mw => "Migrated " +:+ mw) done
                   ++ (match r with
                       | Return _ => [sidebar_header; JSON_stringify done]
                       | Throw _ => []
                       end).
Proof.
  intros Hp. rewrite exec_finish, exec_scan. unfold listing.
  destruct (Fs.readdirSync Migrate.sourceDir (fs w)) as [names|e] eqn:E.
  2:{ intros [= <- <- _]. exists 0, false. by split_and!. }
  destruct (exec (forEach names Migrate.migrate_one []) w) as [[t0 r0] w0] eqn:El.
  destruct (loop_prefix names (Hp _ E) _ _ _ _ _ El) as (k & Hk & Hthrow & Hret & Hw & Hpr).
  destruct r0 as [l|e].
  - destruct (Hret l eq_refl) as [-> ->]. cbn [app] in *.
    rewrite firstn_all in Hw, Hpr.
    rewrite exec_publish, exec_write_index.
    destruct (Fs.writeFileSync index_md _ (fs w0)) as [n|e].
    + rewrite exec_sidebar.
      destruct (Fs.readFileSync Migrate.configPath _) as [c|e]; intros [= <- <- _];
        exists (length names), true; cbv zeta; rewrite firstn_all;
        (split_and!; [done|done|done| |]).
      * by rewrite writes_readdir, !writes_app, Hw.
      * by rewrite printed_readdir, !printed_app, Hpr.
      * by rewrite writes_readdir, !writes_app, Hw.
      * by rewrite printed_readdir, !printed_app, Hpr.
    + intros [= <- <- _]. exists (length names), false. cbv zeta. rewrite firstn_all.
      split_and!; [done|done|done| |].
      * by rewrite writes_readdir, !writes_app, Hw.
      * by rewrite printed_readdir, !printed_app, Hpr.
  - intros [= <- <- _]. exists k, false. cbv zeta.
    split_and!; [done|done|done| |].
    + by rewrite writes_readdir, Hw, app_nil_r.
    + by rewrite printed_readdir, Hpr, app_nil_r.
Qed.

(** X10.  A run of the primary script deals with the entries of the source
    directory in the order of the listing and stops at the first call that
    throws.  Whatever the outcome of a run on a well-formed tree, there is
    a number [k] of entries dealt with: the pages written and the
    [Migrated] lines printed are those of the topics among the first [k]
    entries, in order, and nothing is written or printed for a later
    entry.  The index is written only once all entries are dealt with, and
    lists exactly those topics; the two closing lines are printed exactly
    when the run completes. *)
Theorem topics_done_in_order (w w' : world) (t : list event) (r : outcome unit) :
  Fs.wf (fs w) = true ->
  exec Migrate.main w = (t, r, w') ->
  exists k (indexed : bool),
    let done := List.filter (migrated (fs w)) (take k (listing (fs w))) in
    k <= length (listing (fs w))
    /\ (indexed = true -> k = length (listing (fs w)))
    /\ (r = Return tt -> indexed = true)
    /\ writes t = map (fun mw => (page_path mw, page (fs w) mw)) done
                  ++ (if indexed then [(index_md, Migrate.indexContent done)] else [])
    /\ printed t = map (fun mw => "Migrated " +:+ mw) done
                   ++ (match r with
                       | Return _ => [sidebar_header; JSON_stringify done]
                       | Throw _ => []
                       end).
Proof.
  intros Hwf%wf_proper_source. rewrite exec_main. unfold setup.
  destruct (Fs.existsSync Migrate.targetDir (fs w)).
  - destruct (exec finish w) as [[t0 r0] w0] eqn:Ef. intros [= <- <- _].
    exact (finish_prefix _ _ _ _ Hwf Ef).
  - destruct (Fs.mkdirSync Migrate.targetDir (fs w)) as [n|e] eqn:Em.
    2:{ intros [= <- <- _]. exists 0, false. cbv zeta. split_and!; [lia|done..]. }
    apply mkdir_outside in Em.
    destruct (exec finish (set_fs w n)) as [[t0 r0] w0] eqn:Ef. intros [= <- <- _].
    destruct (finish_prefix (set_fs w n) _ _ _ (outside_proper_source _ _ Em Hwf) Ef)
      as (k & indexed & H).
    exists k, indexed. revert H. cbv zeta. cbn [set_fs fs].
    assert (listing n = listing (fs w)) as ->
        by (unfold listing; by rewrite <- (outside_listing _ _ Em)).
    assert (forall l, List.filter (migrated n) l = List.filter (migrated (fs w)) l)
      as -> by (intros l; apply filter_ext; intros x; symmetry;
                by apply outside_migrated).
    rewrite (map_ext (fun x => (page_path x, page n x))
                     (fun x => (page_path x, page (fs w) x)))
      by (intros x; f_equal; symmetry; by apply outside_page).
    done.
Qed.

Lemma topics_done_in_order_witness :
  let w := Sample.readme_is_directory in
  let t := (exec Migrate.main w).1.1 in
  let r := (exec Migrate.main w).1.2 in
  (exists k (indexed : bool),
      let done := List.filter (migrated (fs w)) (take k (listing (fs w))) in
      k <= length (listing (fs w))
      /\ (indexed = true -> k = length (listing (fs w)))
      /\ (r = Return tt -> indexed = true)
      /\ writes t = map (fun mw => (page_path mw, page (fs w) mw)) done
                    ++ (if indexed then [(index_md, Migrate.indexContent done)] else [])
      /\ printed t = map (fun mw => "Migrated " +:+ mw) done
                     ++ (match r with
                         | Return _ => [sidebar_header; JSON_stringify done]
                         | Throw _ => []
                         end))
  /\ r = Throw EISDIR
  /\ printed t = ["Migrated auth"].
Proof.
  cbv zeta. split_and!.
  - apply (topics_done_in_order Sample.readme_is_directory
                                (exec Migrate.main Sample.readme_is_directory).2).
    + reflexivity.
    + vm_compute. reflexivity.
  - vm_compute. reflexivity.
  - vm_compute. reflexivity.
Defined.

(** ** When [migrate_remaining.js] completes *)

Lemma is_file_nowhere (p : path) : is_file p (Fs.Dir []) = false.
Proof. unfold is_file, Fs.file_at. by destruct p. Qed.

Lemma is_file_cons (c : string) (p : path) (es : list (string * Fs.node)) :
  is_file (c :: p) (Fs.Dir es)
  = match Fs.assoc c es with Some m => is_file p m | None => false end.
Proof.
  unfold is_file, Fs.file_at. rewrite walk_cons. by destruct (Fs.assoc c es).
Qed.

Lemma can_make_cons (c : string) (p : path) (es : list (string * Fs.node)) :
  can_make (c :: p) (Fs.Dir es)
  = can_make p (match Fs.assoc c es with Some m => m | None => Fs.Dir [] end).
Proof.
  unfold can_make, Fs.mkdirSync. fold Fs.mkdirSync.
  by destruct (Fs.mkdirSync p _).
Qed.

(** A directory can be made exactly when no regular file is on the way. *)
Lemma can_make_files (q : path) :
  forall n, can_make q n = true <-> forall k, is_file (take k q) n = false.
Proof.
  induction q as [|c q IH]; intros n.
  - split.
    + intros H k. rewrite take_nil. by destruct n.
    + intros H. specialize (H 0). by destruct n.
  - destruct n as [d|es].
    + split; [done|]. intros H. by specialize (H 0).
    + rewrite can_make_cons, IH. split.
      * intros H [|k]; [done|]. cbn [take]. rewrite is_file_cons.
        destruct (Fs.assoc c es); [apply H|done].
      * intros H k. specialize (H (S k)). cbn [take] in H. rewrite is_file_cons in H.
        destruct (Fs.assoc c es); [done|apply is_file_nowhere].
Qed.

Lemma can_make_same (q : path) (n n' : Fs.node) :
  (forall k, is_file (take k q) n' = is_file (take k q) n) ->
  can_make q n' = can_make q n.
Proof.
  intros H. apply eq_true_iff_eq. rewrite !can_make_files.
  split; intros K k; [by rewrite <- H|by rewrite H].
Qed.

Lemma is_dir_can_make (p : path) (n : Fs.node) :
  Fs.is_dir p n = true -> can_make p n = true.
Proof.
  intros H. assert (Fs.existsSync p n = true) as Hex
      by (rewrite exists_kinds, H; done).
  pose proof (mkdir_exists p n Hex) as Hm. unfold can_make.
  destruct (Fs.mkdirSync p n); [done|congruence].
Qed.

(** Making a directory makes no directory off its path. *)
Lemma mkdir_is_dir_other (p : path) :
  forall n n' q, Fs.mkdirSync p n = Return n' -> ~ q `prefix_of` p ->
                 Fs.is_dir q n' = Fs.is_dir q n.
Proof.
  unfold Fs.is_dir, Fs.mkdirSync.
  induction p as [|c p IH]; intros [d0|es] n' q H Hq; cbn in H; try done.
  - by injection H as <-.
  - fold Fs.mkdirSync in *.
    destruct (Fs.mkdirSync p _) as [m'|] eqn:Ep; [|done]. injection H as <-.
    destruct q as [|y r]; [destruct Hq; apply prefix_nil|]. rewrite !walk_cons.
    destruct (decide (y = c)) as [->|Hne]; [|by rewrite assoc_set_entry_ne].
    rewrite assoc_set_entry_eq.
    assert (~ r `prefix_of` p) as Hr by (intros Hr; apply Hq; by apply prefix_cons).
    rewrite (IH _ _ r Ep Hr). destruct (Fs.assoc c es); [done|].
    destruct r as [|z r]; [destruct Hr; apply prefix_nil|done].
Qed.

Lemma mappings_lengths (m : MigrateRemaining.mapping) :
  m ∈ MigrateRemaining.mappings ->
  length (MigrateRemaining.destDir m) = 7 /\ length (MigrateRemaining.destPath m) = 8.
Proof.
  intros Hm%list_elem_of_In. revert m Hm.
  assert (forallb (fun m => Nat.eqb (length (MigrateRemaining.destDir m)) 7
                            && Nat.eqb (length (MigrateRemaining.destPath m)) 8)
                  MigrateRemaining.mappings = true) as H by (vm_compute; reflexivity).
  rewrite forallb_forall in H. intros m Hm.
  destruct (andb_prop _ _ (H m Hm)) as [H1%Nat.eqb_eq H2%Nat.eqb_eq]. done.
Qed.

(** Whether nothing stands in the way of a pair does not change when the
    destination directory of a pair is made, or its destination written. *)
Lemma pair_ok_mkdir (m m' : MigrateRemaining.mapping) (n n' : Fs.node) :
  m ∈ MigrateRemaining.mappings -> m' ∈ MigrateRemaining.mappings ->
  Fs.mkdirSync (MigrateRemaining.destDir m) n = Return n' ->
  pair_ok n' m' = pair_ok n m'.
Proof.
  intros Hm Hm' E.
  pose proof mappings_placed as Hpl. rewrite Forall_forall in Hpl.
  pose proof (Hpl _ Hm) as [(r & c & Hdir & Hdest) Hsrc].
  destruct (mappings_lengths _ Hm) as [L1 L2].
  destruct (mappings_lengths _ Hm') as [L1' L2'].
  assert (beside n n') as Hb.
  { intros q Hq. symmetry. rewrite Hdir in E.
    eapply mkdir_walk_apart; [done|]. by apply apart_app_r. }
  assert (forall x, is_file x n' = is_file x n) as Hf
      by (intros x; unfold is_file; by rewrite (mkdir_file_at _ _ _ x E)).
  assert (can_make (MigrateRemaining.destDir m') n'
          = can_make (MigrateRemaining.destDir m') n) as Hc
      by (apply can_make_same; intros k; apply Hf).
  unfold pair_ok.
  rewrite <- (beside_src_exists _ _ m' (Hpl _ Hm') Hb), Hf, Hc.
  rewrite (mkdir_is_dir_other _ _ _ (MigrateRemaining.destPath m') E).
  2:{ intros Hp%prefix_length. lia. }
  f_equal. destruct (can_make (MigrateRemaining.destDir m') n) eqn:Hcm;
    [by rewrite !orb_true_r|].
  rewrite !orb_false_r, !exists_kinds, Hf. f_equal.
  destruct (Fs.is_dir (MigrateRemaining.destDir m') n') eqn:H1;
    [apply is_dir_can_make in H1; congruence|].
  destruct (Fs.is_dir (MigrateRemaining.destDir m') n) eqn:H2;
    [apply is_dir_can_make in H2; congruence|done].
Qed.

Lemma pair_ok_write (m m' : MigrateRemaining.mapping) (n n' : Fs.node) (d : string) :
  m ∈ MigrateRemaining.mappings -> m' ∈ MigrateRemaining.mappings ->
  Fs.writeFileSync (MigrateRemaining.destPath m) d n = Return n' ->
  pair_ok n' m' = pair_ok n m'.
Proof.
  intros Hm Hm' E.
  pose proof mappings_placed as Hpl. rewrite Forall_forall in Hpl.
  pose proof (Hpl _ Hm) as [(r & c & Hdir & Hdest) Hsrc].
  destruct (mappings_lengths _ Hm) as [L1 L2].
  destruct (mappings_lengths _ Hm') as [L1' L2'].
  assert (beside n n') as Hb.
  { intros q Hq. symmetry. rewrite Hdest, Hdir, writeFileSync_snoc in E.
    eapply put_walk_apart; [done|]. rewrite <- app_assoc. by apply apart_app_r. }
  assert (forall x, x <> MigrateRemaining.destPath m -> is_file x n' = is_file x n) as Hf.
  { intros x Hx. unfold is_file. rewrite (writeFileSync_file_at _ _ _ _ x E).
    by rewrite decide_False. }
  assert (forall k, take k (MigrateRemaining.destDir m') <> MigrateRemaining.destPath m)
    as Hk.
  { intros k Hk. apply (f_equal length) in Hk. rewrite length_take in Hk. lia. }
  assert (can_make (MigrateRemaining.destDir m') n'
          = can_make (MigrateRemaining.destDir m') n) as Hc
      by (apply can_make_same; intros k; apply Hf, Hk).
  unfold pair_ok.
  rewrite <- (beside_src_exists _ _ m' (Hpl _ Hm') Hb),
          <- (beside_is_file _ _ m' (Hpl _ Hm') Hb), Hc.
  rewrite !exists_kinds, !(writeFileSync_is_dir _ _ _ _ _ E).
  rewrite (Hf (MigrateRemaining.destDir m')); [done|].
  rewrite <- (firstn_all (MigrateRemaining.destDir m')). apply Hk.
Qed.

Lemma write_thrown_at (m : MigrateRemaining.mapping) (c d : string) (n : Fs.node) :
  MigrateRemaining.destPath m = MigrateRemaining.destDir m ++ [c] ->
  thrown (Fs.writeFileSync (MigrateRemaining.destPath m) d n)
  = match Fs.statIsDirectory (MigrateRemaining.destDir m) n with
    | Throw e => Some e
    | Return false => Some ENOTDIR
    | Return true =>
      if Fs.is_dir (MigrateRemaining.destPath m) n then Some EISDIR else None
    end.
Proof.
  intros H. pose proof (put_thrown (MigrateRemaining.destDir m) c d n) as Hp.
  rewrite <- writeFileSync_snoc, <- H in Hp. exact Hp.
Qed.

(** One turn of the loop completes exactly when nothing stands in the way
    of the pair. *)
Lemma copy_one_completes (m : MigrateRemaining.mapping) (w : world) :
  placed m ->
  completes (exec (MigrateRemaining.copy_one m tt) w) = pair_ok (fs w) m.
Proof.
  intros Hm. pose proof Hm as [(r & c & Hdir & Hdest) Hsrc].
  rewrite exec_copy_one. cbv zeta. unfold ensure_dir, pair_ok.
  destruct (Fs.existsSync (MigrateRemaining.destDir m) (fs w)) eqn:Hex; cbn [orb andb].
  - fold (src_exists (fs w) m). destruct (src_exists (fs w) m); [|done].
    cbn [negb orb]. rewrite is_file_read.
    destruct (Fs.readFileSync _ (fs w)) as [content|e]; [|done]. cbn [andb].
    pose proof (mkdir_exists _ _ Hex) as Hmk. unfold can_make.
    pose proof (write_thrown_at m c content (fs w) Hdest) as Hp.
    destruct (Fs.mkdirSync _ (fs w)).
    + apply stat_is_dir in Hmk. rewrite Hmk in Hp.
      destruct (Fs.writeFileSync _ content (fs w)); cbn [thrown] in Hp;
        by destruct (Fs.is_dir (MigrateRemaining.destPath m) (fs w)).
    + destruct (Fs.writeFileSync _ content (fs w)); [|done]. cbn [thrown] in Hp.
      destruct (Fs.statIsDirectory _ (fs w)) as [[|]|] eqn:Es; try done.
      apply stat_is_dir in Es. congruence.
  - unfold can_make. destruct (Fs.mkdirSync _ (fs w)) as [n0|e0] eqn:Em; [|done].
    cbn [set_fs fs andb].
    assert (beside (fs w) n0) as Hb.
    { intros q Hq. symmetry. rewrite Hdir in Em.
      eapply mkdir_walk_apart; [done|]. by apply apart_app_r. }
    fold (src_exists n0 m).
    rewrite (beside_src_exists _ _ m Hm Hb), (beside_is_file _ _ m Hm Hb).
    destruct (src_exists n0 m); [|done]. cbn [negb orb].
    rewrite is_file_read.
    destruct (Fs.readFileSync _ n0) as [content|e]; [|done]. cbn [andb].
    pose proof (write_thrown_at m c content n0 Hdest) as Hp.
    pose proof (mkdir_is_dir _ _ _ Em) as Hd. apply stat_is_dir in Hd.
    pose proof (mkdir_child_is_dir _ c _ _ Em) as Hc. rewrite <- Hdest in Hc.
    rewrite Hd, Hc in Hp.
    destruct (Fs.writeFileSync _ content n0); cbn [thrown] in Hp;
      by destruct (Fs.is_dir (MigrateRemaining.destPath m) (fs w)).
Qed.

(** What a turn that does not throw does to the filesystem: it may make
    the destination directory, then it may write the destination. *)
Lemma copy_one_steps (m : MigrateRemaining.mapping) (w w' : world) t :
  exec (MigrateRemaining.copy_one m tt) w = (t, Return tt, w') ->
  exists n0,
    (n0 = fs w \/ Fs.mkdirSync (MigrateRemaining.destDir m) (fs w) = Return n0)
    /\ (fs w' = n0
        \/ exists d, Fs.writeFileSync (MigrateRemaining.destPath m) d n0 = Return (fs w')).
Proof.
  rewrite exec_copy_one. cbv zeta.
  assert (exists t0 r0 w0,
             ensure_dir (MigrateRemaining.destDir m) w = (t0, r0, w0)
             /\ (fs w0 = fs w
                 \/ Fs.mkdirSync (MigrateRemaining.destDir m) (fs w) = Return (fs w0)))
    as (t0 & r0 & w0 & -> & H0).
  { unfold ensure_dir. destruct (Fs.existsSync _ (fs w)).
    - eexists _, _, _. split; [done|by left].
    - destruct (Fs.mkdirSync _ (fs w)) as [n|e] eqn:E.
      + eexists _, _, _. split; [done|by right].
      + eexists _, _, _. split; [done|by left]. }
  destruct r0 as [[]|e0]; [|done]. intros Hrun. exists (fs w0).
  split; [destruct H0 as [->|H0]; [by left|by right]|].
  destruct (Fs.existsSync (MigrateRemaining.srcPath m) (fs w0)).
  - destruct (Fs.readFileSync _ (fs w0)) as [content|e]; [|done].
    destruct (Fs.writeFileSync _ content (fs w0)) as [n|e] eqn:Ew; [|done].
    injection Hrun as _ <-. right. by exists content.
  - injection Hrun as _ <-. by left.
Qed.

Lemma forallb_eq_in {T} (f g : T -> bool) (l : list T) :
  (forall x, x ∈ l -> f x = g x) -> forallb f l = forallb g l.
Proof.
  induction l as [|x l IH]; intros H; cbn; [done|].
  rewrite (H x (list_elem_of_here _ _)), IH; [done|].
  intros y Hy. apply H. by apply list_elem_of_further.
Qed.

Lemma pair_ok_turn (m m' : MigrateRemaining.mapping) (w w' : world) t :
  m ∈ MigrateRemaining.mappings -> m' ∈ MigrateRemaining.mappings ->
  exec (MigrateRemaining.copy_one m tt) w = (t, Return tt, w') ->
  pair_ok (fs w') m' = pair_ok (fs w) m'.
Proof.
  intros Hm Hm' (n0 & H0 & H1)%copy_one_steps.
  assert (pair_ok n0 m' = pair_ok (fs w) m') as <-
      by (destruct H0 as [->|H0]; [done|exact (pair_ok_mkdir m m' _ _ Hm Hm' H0)]).
  destruct H1 as [->|[d H1]]; [done|exact (pair_ok_write m m' _ _ d Hm Hm' H1)].
Qed.

Lemma copy_loop_completes (ms : list MigrateRemaining.mapping) :
  (forall m, m ∈ ms -> m ∈ MigrateRemaining.mappings) ->
  forall w,
    completes (exec (forEach ms MigrateRemaining.copy_one tt) w)
    = forallb (pair_ok (fs w)) ms.
Proof.
  unfold exec. induction ms as [|m ms IH]; intros Hin w; [done|].
  pose proof mappings_placed as Hpl. rewrite Forall_forall in Hpl.
  pose proof (Hin _ (list_elem_of_here _ _)) as Hm.
  rewrite run_forEach_cons. cbn [forallb].
  pose proof (copy_one_completes m w (Hpl _ Hm)) as H1. unfold exec in H1.
  destruct (run node_handle (MigrateRemaining.copy_one m tt) w) as [[t [[]|e]] w1]
    eqn:E1; cbn in H1; rewrite <- H1; [|done].
  cbn [andb].
  specialize (IH (fun x Hx => Hin x (list_elem_of_further _ _ _ Hx)) w1).
  rewrite (forallb_eq_in _ (pair_ok (fs w1))).
  - rewrite <- IH.
    by destruct (run node_handle (forEach ms MigrateRemaining.copy_one tt) w1)
      as [[t2 r2] w2].
  - intros m' Hm'. symmetry. eapply pair_ok_turn; [exact Hm| |exact E1].
    apply Hin. by apply list_elem_of_further.
Qed.

(** X11.  [migrate_remaining.js] runs to completion exactly when, for
    every pair of the list: something is at the pair's destination
    directory or the directory can be made; and, if the pair's source is
    there, the source is a regular file, the destination directory is a
    directory or can be made, and the destination is not a directory.  In
    every other case the run throws.  (A destination directory that is a
    regular file is no obstacle for a pair whose source is missing: the
    pair gets its warning.) *)
Theorem remaining_completes_iff_ready (w : world) :
  completes (exec MigrateRemaining.main w) = remaining_ready (fs w).
Proof. apply (copy_loop_completes MigrateRemaining.mappings (fun m Hm => Hm)). Qed.

Lemma remaining_completes_iff_ready_witness :
  (completes (exec MigrateRemaining.main Cases.core_is_a_file)
   = remaining_ready (fs Cases.core_is_a_file)
   /\ remaining_ready (fs Cases.core_is_a_file) = true)
  /\ (completes (exec MigrateRemaining.main Cases.db_readme_is_directory)
      = remaining_ready (fs Cases.db_readme_is_directory)
      /\ remaining_ready (fs Cases.db_readme_is_directory) = false).
Proof.
  split; split.
  - apply (remaining_completes_iff_ready Cases.core_is_a_file).
  - vm_compute. reflexivity.
  - apply (remaining_completes_iff_ready Cases.db_readme_is_directory).
  - vm_compute. reflexivity.
Defined.

(** ** The primary script under any behaviour of the filesystem *)

Section AnyFilesystem.

Context {W : Type}.
Variable handle : forall R, call R -> W -> outcome R * W.

(** A turn that does not throw either leaves the list as it is, writing
    and printing nothing, or writes one page, prints one line and adds
    the topic to the list. *)
Lemma turn_any (mw : string) (acc l : list string) (w w' : W) (t : list event) :
  run handle (Migrate.migrate_one mw acc) w = (t, Return l, w') ->
  (l = acc /\ printed t = [] /\ writes t = [])
  \/ (exists content,
         l = acc ++ [mw] /\ printed t = ["Migrated " +:+ mw]
         /\ writes t = [(targetPath mw, content)]).
Proof.
  unfold Migrate.migrate_one, targetPath.
  cbn [run perform mbind prog_mbind prog_bind event_of].
  destruct (handle _ (StatIsDirectory _) w) as [[[|]|e] w1]; [| |done].
  - cbn [run perform mbind prog_mbind prog_bind event_of].
    destruct (handle _ (ExistsSync _) w1) as [[[|]|e] w2]; [| |done].
    + cbn [run perform mbind prog_mbind prog_bind event_of].
      destruct (handle _ (ReadFileSync _) w2) as [[content|e] w3]; [|done].
      cbn [run perform mbind prog_mbind prog_bind event_of].
      destruct (handle _ (WriteFileSync _ _) w3) as [[[]|e] w4]; [|done].
      cbn [run perform mbind prog_mbind prog_bind event_of].
      destruct (handle _ (ConsoleLog _) w4) as [[[]|e] w5]; [|done].
      intros [= <- <- _]. right. by exists content.
    + intros [= <- <- _]. by left.
  - intros [= <- <- _]. by left.
Qed.

Lemma loop_any (names : list string) :
  forall (acc l : list string) (w w' : W) (t : list event),
    run handle (forEach names Migrate.migrate_one acc) w = (t, Return l, w') ->
    exists done,
      l = acc ++ done /\ done `sublist_of` names
      /\ printed t = map (fun mw => "Migrated " +:+ mw) done
      /\ map fst (writes t) = map targetPath done.
Proof.
  induction names as [|mw names IH]; intros acc l w w' t Hrun.
  - injection Hrun as <- <- _. exists []. by rewrite app_nil_r.
  - rewrite run_forEach_cons in Hrun.
    destruct (run handle (Migrate.migrate_one mw acc) w) as [[t1 [s'|e]] w1] eqn:E1;
      [|done].
    destruct (run handle (forEach names Migrate.migrate_one s') w1)
      as [[t2 r2] w2] eqn:E2.
    injection Hrun as <- -> _.
    destruct (IH _ _ _ _ _ E2) as (done & -> & Hsub & Hp & Hw).
    rewrite printed_app, writes_app, map_app, Hp, Hw.
    destruct (turn_any _ _ _ _ _ _ E1) as [(-> & -> & ->)|(c & -> & -> & ->)].
    + exists done. split_and!; [done|by apply sublist_cons|done|done].
    + exists (mw :: done). rewrite <- app_assoc.
      split_and!; [done|by apply sublist_skip|done|done].
Qed.

Lemma collect_any (w w' : W) (t : list event) (l : list string) :
  run handle Migrate.collect w = (t, Return l, w') ->
  exists names,
    EvReaddir Migrate.sourceDir (Return names) ∈ t
    /\ l `sublist_of` names
    /\ printed t = map (fun mw => "Migrated " +:+ mw) l
    /\ map fst (writes t) = map targetPath l.
Proof.
  unfold Migrate.collect.
  cbn [run perform mbind prog_mbind prog_bind event_of].
  destruct (handle _ (ExistsSync _) w) as [[[|]|e] w1]; [| |done];
    cbn [negb run perform mbind prog_mbind prog_bind event_of mret prog_ret].
  - destruct (handle _ (ReaddirSync _) w1) as [[names|e] w2]; [|done].
    cbn [prog_bind].
    destruct (run handle (forEach names Migrate.migrate_one []) w2)
      as [[t1 r1] w3] eqn:El.
    intros [= <- -> _].
    destruct (loop_any _ _ _ _ _ _ El) as (done & -> & Hsub & Hp & Hw).
    exists names. split_and!; [|done|done|done].
    apply elem_of_cons. right. apply elem_of_cons. by left.
  - destruct (handle _ (MkdirSync _) w1) as [[[]|e] w2]; [|done].
    cbn [run perform mbind prog_mbind prog_bind event_of].
    destruct (handle _ (ReaddirSync _) w2) as [[names|e] w3]; [|done].
    cbn [prog_bind].
    destruct (run handle (forEach names Migrate.migrate_one []) w3)
      as [[t1 r1] w4] eqn:El.
    intros [= <- -> _].
    destruct (loop_any _ _ _ _ _ _ El) as (done & -> & Hsub & Hp & Hw).
    exists names. split_and!; [|done|done|done].
    apply elem_of_cons. right. apply elem_of_cons. right.
    apply elem_of_cons. by left.
Qed.

Lemma main_any (w w' : W) (t : list event) :
  run handle Migrate.main w = (t, Return tt, w') ->
  exists names l pages,
    EvReaddir Migrate.sourceDir (Return names) ∈ t
    /\ l `sublist_of` names
    /\ writes t = pages ++ [(Path.join Migrate.targetDir "index.md", Migrate.indexContent l)]
    /\ map fst pages = map targetPath l
    /\ printed t = map (fun mw => "Migrated " +:+ mw) l
                   ++ ["Middleware List for Sidebar:"; JSON_stringify l].
Proof.
  unfold Migrate.main. rewrite run_bind.
  destruct (run handle Migrate.collect w) as [[t1 [l|e]] w1] eqn:E1; [|done].
  destruct (collect_any _ _ _ _ E1) as (names & Hin & Hsub & Hp & Hw).
  unfold Migrate.write_index, Migrate.sidebar.
  cbn [run perform mbind prog_mbind prog_bind event_of].
  destruct (handle _ (WriteFileSync _ _) w1) as [[[]|e] w2]; [|done].
  cbn [run perform mbind prog_mbind prog_bind event_of].
  destruct (handle _ (ReadFileSync _) w2) as [[config|e] w3]; [|done].
  cbn [run perform mbind prog_mbind prog_bind event_of].
  destruct (handle _ (ConsoleLog _) w3) as [[[]|e] w4]; [|done].
  cbn [run perform mbind prog_mbind prog_bind event_of].
  destruct (handle _ (ConsoleLog _) w4) as [[[]|e] w5]; [|done].
  intros [= <- _]. exists names, l, (writes t1). split_and!.
  - apply elem_of_app. by left.
  - done.
  - by rewrite writes_app.
  - done.
  - by rewrite printed_app, Hp.
Qed.

End AnyFilesystem.

(** X12.  Under any behaviour of the filesystem, when a run of the primary
    script completes its outputs name the same topics in the same order:
    there is a list of topics, picked in order from what the listing of
    the source directory returned, such that the pages written are the
    pages of these topics, the [Migrated] lines are their lines, the index
    written last is the index of this list, and the JSON text printed
    after the header is the text of this list. *)
Theorem outputs_name_the_same_topics
        (W : Type) (handle : forall R, call R -> W -> outcome R * W)
        (w w' : W) (t : list event) :
  run handle Migrate.main w = (t, Return tt, w') ->
  exists names l pages,
    EvReaddir Migrate.sourceDir (Return names) ∈ t
    /\ l `sublist_of` names
    /\ writes t = pages ++ [(Path.join Migrate.targetDir "index.md", Migrate.indexContent l)]
    /\ map fst pages = map targetPath l
    /\ printed t = map (fun mw => "Migrated " +:+ mw) l
                   ++ ["Middleware List for Sidebar:"; JSON_stringify l].
Proof. apply main_any. Qed.

Lemma outputs_name_the_same_topics_witness :
  let t := (exec Migrate.main Sample.auth_and_empty).1.1 in
  exists names l pages,
    EvReaddir Migrate.sourceDir (Return names) ∈ t
    /\ l `sublist_of` names
    /\ writes t = pages ++ [(Path.join Migrate.targetDir "index.md", Migrate.indexContent l)]
    /\ map fst pages = map targetPath l
    /\ printed t = map (fun mw => "Migrated " +:+ mw) l
                   ++ ["Middleware List for Sidebar:"; JSON_stringify l].
Proof.
  cbv zeta.
  apply (outputs_name_the_same_topics
           world node_handle Sample.auth_and_empty
           (exec Migrate.main Sample.auth_and_empty).2).
  vm_compute. reflexivity.
Defined.

(** ** [migrate_remaining.js] under any behaviour of the filesystem *)

Section AnyFilesystemRemaining.

Context {W : Type}.
Variable handle : forall R, call R -> W -> outcome R * W.

(** A turn that does not throw prints one line: the success line after
    writing the destination, or the warning after writing nothing. *)
Lemma copy_one_any (m : MigrateRemaining.mapping) (w w' : W) (t : list event) :
  run handle (MigrateRemaining.copy_one m tt) w = (t, Return tt, w') ->
  exists copied : bool,
    printed t = [line_for copied m]
    /\ map fst (writes t) = if copied then [MigrateRemaining.destPath m] else [].
Proof.
  unfold MigrateRemaining.copy_one.
  cbn [run perform mbind prog_mbind prog_bind event_of].
  destruct (handle _ (ExistsSync (MigrateRemaining.destDir m)) w) as [[[|]|e] w1];
    [| |done]; cbn [negb run perform mbind prog_mbind prog_bind event_of mret prog_ret].
  - destruct (handle _ (ExistsSync (MigrateRemaining.srcPath m)) w1)
      as [[[|]|e] w2]; [| |done];
      cbn [run perform mbind prog_mbind prog_bind event_of].
    + destruct (handle _ (ReadFileSync _) w2) as [[content|e] w3]; [|done].
      cbn [run perform mbind prog_mbind prog_bind event_of].
      destruct (handle _ (WriteFileSync _ _) w3) as [[[]|e] w4]; [|done].
      cbn [run perform mbind prog_mbind prog_bind event_of].
      destruct (handle _ (ConsoleLog _) w4) as [[[]|e] w5]; [|done].
      intros [= <- _]. by exists true.
    + destruct (handle _ (ConsoleLog _) w2) as [[[]|e] w3]; [|done].
      intros [= <- _]. by exists false.
  - destruct (handle _ (MkdirSync _) w1) as [[[]|e] w1']; [|done].
    cbn [run perform mbind prog_mbind prog_bind event_of].
    destruct (handle _ (ExistsSync (MigrateRemaining.srcPath m)) w1')
      as [[[|]|e] w2]; [| |done];
      cbn [run perform mbind prog_mbind prog_bind event_of].
    + destruct (handle _ (ReadFileSync _) w2) as [[content|e] w3]; [|done].
      cbn [run perform mbind prog_mbind prog_bind event_of].
      destruct (handle _ (WriteFileSync _ _) w3) as [[[]|e] w4]; [|done].
      cbn [run perform mbind prog_mbind prog_bind event_of].
      destruct (handle _ (ConsoleLog _) w4) as [[[]|e] w5]; [|done].
      intros [= <- _]. by exists true.
    + destruct (handle _ (ConsoleLog _) w2) as [[[]|e] w3]; [|done].
      intros [= <- _]. by exists false.
Qed.

Lemma copy_loop_any (ms : list MigrateRemaining.mapping) :
  forall (w w' : W) (t : list event),
    run handle (forEach ms MigrateRemaining.copy_one tt) w = (t, Return tt, w') ->
    exists copied : list bool,
      length copied = length ms
      /\ printed t = zip_with line_for copied ms
      /\ map fst (writes t) = map MigrateRemaining.destPath (chosen copied ms).
Proof.
  induction ms as [|m ms IH]; intros w w' t Hrun.
  - injection Hrun as <- _. by exists [].
  - rewrite run_forEach_cons in Hrun.
    destruct (run handle (MigrateRemaining.copy_one m tt) w) as [[t1 [[]|e]] w1] eqn:E1;
      [|done].
    destruct (run handle (forEach ms MigrateRemaining.copy_one tt) w1)
      as [[t2 r2] w2] eqn:E2.
    injection Hrun as <- -> _.
    destruct (IH _ _ _ E2) as (bs & Hlen & Hp & Hw).
    destruct (copy_one_any _ _ _ _ E1) as (b & Hp1 & Hw1).
    exists (b :: bs). cbn [length zip_with chosen].
    rewrite printed_app, writes_app, !map_app, Hp, Hw, Hp1, Hw1.
    split_and!; [by rewrite Hlen|done|by destruct b].
Qed.

End AnyFilesystemRemaining.

(** X13.  Under any behaviour of the filesystem, a run of
    [migrate_remaining.js] that completes has printed exactly one line
    per pair, in the order of the list, each line the pair's success line
    or its warning; it has written the destinations of exactly the pairs
    that got their success line, in the order of the list, and nothing
    else. *)
Theorem one_line_per_pair
        (W : Type) (handle : forall R, call R -> W -> outcome R * W)
        (w w' : W) (t : list event) :
  run handle MigrateRemaining.main w = (t, Return tt, w') ->
  exists copied : list bool,
    length copied = length MigrateRemaining.mappings
    /\ printed t = zip_with line_for copied MigrateRemaining.mappings
    /\ map fst (writes t)
       = map MigrateRemaining.destPath (chosen copied MigrateRemaining.mappings).
Proof. apply copy_loop_any. Qed.

Lemma one_line_per_pair_witness :
  let t := (exec MigrateRemaining.main Sample.two_sources).1.1 in
  exists copied : list bool,
    length copied = length MigrateRemaining.mappings
    /\ printed t = zip_with line_for copied MigrateRemaining.mappings
    /\ map fst (writes t)
       = map MigrateRemaining.destPath (chosen copied MigrateRemaining.mappings).
Proof.
  cbv zeta.
  apply (one_line_per_pair world node_handle Sample.two_sources
                           (exec MigrateRemaining.main Sample.two_sources).2).
  vm_compute. reflexivity.
Defined.

(** ** The directories [migrate_remaining.js] makes *)

(** What a turn makes: nothing, or the destination directory of its pair,
    which was not there and is there afterwards. *)
Lemma copy_one_mkdirs (m : MigrateRemaining.mapping) (w w' : world) t r :
  exec (MigrateRemaining.copy_one m tt) w = (t, r, w') ->
  mkdirs t = []
  \/ (mkdirs t = [MigrateRemaining.destDir m]
      /\ Fs.existsSync (MigrateRemaining.destDir m) (fs w) = false
      /\ Fs.is_dir (MigrateRemaining.destDir m) (fs w') = true).
Proof.
  rewrite exec_copy_one. cbv zeta. unfold ensure_dir.
  destruct (Fs.existsSync (MigrateRemaining.destDir m) (fs w)) eqn:Hex.
  - destruct (Fs.existsSync (MigrateRemaining.srcPath m) (fs w));
      [|intros [= <- _ _]; by left].
    destruct (Fs.readFileSync _ (fs w)) as [content|e]; [|intros [= <- _ _]; by left].
    destruct (Fs.writeFileSync _ content (fs w)) as [n|e]; intros [= <- _ _]; by left.
  - destruct (Fs.mkdirSync _ (fs w)) as [n0|e0] eqn:Em; [|intros [= <- _ _]; by left].
    pose proof (mkdir_is_dir _ _ _ Em) as Hd. cbn [set_fs fs].
    destruct (Fs.existsSync (MigrateRemaining.srcPath m) n0);
      [|intros [= <- _ <-]; by right].
    destruct (Fs.readFileSync _ n0) as [content|e]; [|intros [= <- _ <-]; by right].
    destruct (Fs.writeFileSync _ content n0) as [n|e] eqn:Ew; intros [= <- _ <-];
      [|by right].
    right. split_and!; [done|done|]. cbn [fs].
    by rewrite (writeFileSync_is_dir _ _ _ _ _ Ew).
Qed.

Lemma is_dir_exists (p : path) (n : Fs.node) :
  Fs.is_dir p n = true -> Fs.existsSync p n = true.
Proof. intros H. by rewrite exists_kinds, H. Qed.

Lemma copy_loop_mkdirs (ms : list MigrateRemaining.mapping) :
  forall w t r w',
    exec (forEach ms MigrateRemaining.copy_one tt) w = (t, r, w') ->
    NoDup (mkdirs t)
    /\ forall p, p ∈ mkdirs t ->
         Fs.existsSync p (fs w) = false
         /\ Fs.is_dir p (fs w') = true
         /\ exists m, m ∈ ms /\ p = MigrateRemaining.destDir m.
Proof.
  unfold exec. induction ms as [|m ms IH]; intros w t r w' Hrun.
  - injection Hrun as <- _ _. split; [constructor|]. by intros p ?%elem_of_nil.
  - rewrite run_forEach_cons in Hrun.
    destruct (run node_handle (MigrateRemaining.copy_one m tt) w) as [[t1 r1] w1] eqn:E1.
    pose proof (copy_one_mkdirs m w w1 t1 r1 E1) as H1.
    assert (forall p, p ∈ mkdirs t1 ->
              Fs.existsSync p (fs w) = false /\ Fs.is_dir p (fs w1) = true
              /\ exists m', m' ∈ m :: ms /\ p = MigrateRemaining.destDir m') as H1'.
    { destruct H1 as [->|(-> & Hex & Hd)]; [by intros p ?%elem_of_nil|].
      intros p ->%list_elem_of_singleton. split_and!; [done|done|].
      exists m. split; [apply list_elem_of_here|done]. }
    destruct r1 as [[]|e].
    + destruct (run node_handle (forEach ms MigrateRemaining.copy_one tt) w1)
        as [[t2 r2] w2] eqn:E2.
      injection Hrun as <- _ <-.
      destruct (IH _ _ _ _ E2) as [Hnd H2]. rewrite mkdirs_app. split.
      * apply NoDup_app. split_and!; [|intros p Hp1 Hp2|done].
        -- destruct H1 as [->|(-> & _)]; [constructor|apply NoDup_singleton].
        -- destruct (H1' p Hp1) as (_ & Hd%is_dir_exists & _).
           destruct (H2 p Hp2) as (Hex & _). congruence.
      * intros p [Hp|Hp]%elem_of_app.
        -- destruct (H1' p Hp) as (Hex & Hd & Hm). split_and!; [done| |done].
           destruct (exec_kind _ _ _ _ _ p E2 (is_dir_exists _ _ Hd)) as (_ & -> & _).
           exact Hd.
        -- destruct (H2 p Hp) as (Hex & Hd & m' & Hm' & ->). split_and!; [|done|].
           ++ destruct (Fs.existsSync (MigrateRemaining.destDir m') (fs w)) eqn:Hw;
                [|done].
              destruct (exec_kind _ _ _ _ _ _ E1 Hw) as (Hw1 & _). congruence.
           ++ exists m'. split; [by apply list_elem_of_further|done].
    + injection Hrun as <- _ <-. split; [|exact H1'].
      destruct H1 as [->|(-> & _)]; [constructor|apply NoDup_singleton].
Qed.

(** * The migration list and its outputs *)

(** ** Names in the JSON text *)








(** ** Names in the sidebar items *)






(** ** Which entries are migrated *)




(** * The sidebar block *)

(** ** What the primary script prints, whatever the filesystem does *)

Section AnyFilesystemLines.

Context {W : Type}.
Variable handle : forall R, call R -> W -> outcome R * W.





End AnyFilesystemLines.

(** ** The block is built and not printed *)







(** * [migrate_remaining.js], pair by pair *)

(** ** Splitting the loop *)

Section RunSplit.

Context {W : Type}.
Variable handle : forall R, call R -> W -> outcome R * W.

Lemma run_forEach_app {A S} (l1 l2 : list A) (body : A -> S -> prog S) :
  forall (s : S) (w : W),
    run handle (forEach (l1 ++ l2) body s) w
    = match run handle (forEach l1 body s) w with
      | (t, Return s', w') =>
        let '(t2, r2, w2) := run handle (forEach l2 body s') w' in (t ++ t2, r2, w2)
      | (t, Throw e, w') => (t, Throw e, w')
      end.
Proof.
  induction l1 as [|x l1 IH]; intros s w.
  - cbn [app forEach run]. by destruct (run handle (forEach l2 body s) w) as [[? ?] ?].
  - rewrite <- app_comm_cons, !run_forEach_cons.
    destruct (run handle (body x s) w) as [[t [s'|e]] w']; [|done].
    rewrite IH.
    destruct (run handle (forEach l1 body s') w') as [[t' [s''|e]] w'']; [|done].
    destruct (run handle (forEach l2 body s'') w'') as [[t2 r2] w2].
    by rewrite app_assoc.
Qed.

End RunSplit.

Lemma taken_in {T} (k : nat) (l : list T) (x : T) : x ∈ take k l -> x ∈ l.
Proof. intros H. rewrite <- (take_drop k l). apply elem_of_app. by left. Qed.

Lemma split_in_mappings (ms1 ms2 : list MigrateRemaining.mapping) :
  MigrateRemaining.mappings = ms1 ++ ms2 ->
  (forall x, x ∈ ms1 -> x ∈ MigrateRemaining.mappings)
  /\ (forall x, x ∈ ms2 -> x ∈ MigrateRemaining.mappings).
Proof. intros ->. split; intros x Hx; apply elem_of_app; tauto. Qed.

Lemma split_placed (ms1 ms2 : list MigrateRemaining.mapping) :
  MigrateRemaining.mappings = ms1 ++ ms2 -> Forall placed ms1 /\ Forall placed ms2.
Proof. intros H. apply Forall_app. rewrite <- H. apply mappings_placed. Qed.



(** ** The lines and the destination of one pair *)






(** ** The directories a run creates *)

(** What leads to a directory is a directory. *)
Lemma is_dir_prefix (q r : path) :
  forall n, Fs.is_dir (q ++ r) n = true -> Fs.is_dir q n = true.
Proof.
  unfold Fs.is_dir. induction q as [|c q IH]; intros n H.
  - cbn [app] in H. destruct n as [d|es]; [|done]. destruct r; by cbv in H.
  - cbn [app] in H. rewrite walk_cons in *. destruct n as [d|es]; [done|].
    destruct (Fs.assoc c es); [by apply IH|done].
Qed.

Lemma mkdirs_cons (ev : event) (t : list event) (p : path) :
  p ∈ mkdirs t -> p ∈ mkdirs (ev :: t).
Proof.
  intros H. unfold mkdirs in *. cbn [omap list_omap].
  destruct (mkdir_of ev); [by apply list_elem_of_further|done].
Qed.

(** Whatever the script and however its run ends, a directory that is
    there at the end and was not there at the start is on the path of a
    [mkdirSync] that went through. *)
Lemma exec_new_dirs {A} (m : prog A) :
  forall w t r w' q,
    exec m w = (t, r, w') ->
    Fs.is_dir q (fs w') = true -> Fs.is_dir q (fs w) = false ->
    exists p, p ∈ mkdirs t /\ q `prefix_of` p.
Proof.
  unfold exec.
  induction m as [a|R c k IH]; intros w t r w' q Hrun H1 H0; cbn in Hrun.
  - injection Hrun as _ _ <-. congruence.
  - destruct (node_handle R c w) as [[x|e] w0] eqn:Hc.
    + destruct (run node_handle (k x) w0) as [[t0 r0] w1] eqn:Hk.
      injection Hrun as <- <- <-.
      destruct (decide (Fs.is_dir q (fs w0) = Fs.is_dir q (fs w))) as [E|E].
      * rewrite <- E in H0. destruct (IH _ _ _ _ _ _ Hk H1 H0) as (p & Hp & Hq).
        exists p. split; [by apply mkdirs_cons|done].
      * destruct c; cbn in Hc; try (by injection Hc as _ <-).
        -- destruct (Fs.mkdirSync p (fs w)) as [n|] eqn:Em; [|done].
           injection Hc as <- <-. cbn [set_fs fs] in E.
           destruct (decide (q `prefix_of` p)) as [Hq|Hq].
           ++ exists p. split; [|done]. unfold mkdirs. cbn. apply list_elem_of_here.
           ++ destruct E. by eapply mkdir_is_dir_other.
        -- destruct (Fs.writeFileSync p data (fs w)) as [n|] eqn:Ew; [|done].
           injection Hc as <- <-. cbn [set_fs fs] in E.
           destruct E. by eapply writeFileSync_is_dir.
    + injection Hrun as _ _ <-.
      assert (fs w0 = fs w) as E; [|rewrite E in H1; congruence].
      destruct c; cbn in Hc; try discriminate; try (by injection Hc as _ <-).
      * destruct (Fs.mkdirSync p (fs w)); [done|]. by injection Hc as _ <-.
      * destruct (Fs.writeFileSync p data (fs w)); [done|]. by injection Hc as _ <-.
Qed.

(** X14.  Whatever the outcome of a run of [migrate_remaining.js]: every
    [mkdirSync] that goes through is for the destination directory of a
    pair of the list, at which nothing was when the run started, and the
    same path is never made twice, although several pairs share a
    destination directory.  With the [recursive] option such a call also
    creates the directories that are missing on the way: at the end of the
    run every path that leads to a directory so made is a directory.  And
    these are all the directories the run creates: a directory that is
    there at the end and was not at the start is the destination directory
    of a pair, made by the run, or leads to it. *)
Theorem directories_made_once (w w' : world) (t : list event) (r : outcome unit) :
  exec MigrateRemaining.main w = (t, r, w') ->
  NoDup (mkdirs t)
  /\ (forall p, p ∈ mkdirs t ->
        Fs.existsSync p (fs w) = false
        /\ (forall q, q `prefix_of` p -> Fs.is_dir q (fs w') = true)
        /\ exists m, m ∈ MigrateRemaining.mappings /\ p = MigrateRemaining.destDir m)
  /\ (forall q, Fs.is_dir q (fs w') = true -> Fs.is_dir q (fs w) = false ->
        exists m, m ∈ MigrateRemaining.mappings
                  /\ MigrateRemaining.destDir m ∈ mkdirs t
                  /\ q `prefix_of` MigrateRemaining.destDir m).
Proof.
  intros Hrun. destruct (copy_loop_mkdirs _ _ _ _ _ Hrun) as [Hnd Hall].
  split_and!; [done| |].
  - intros p Hp. destruct (Hall p Hp) as (H0 & H1 & Hm). split_and!; [done| |done].
    intros q [s ->]. by eapply is_dir_prefix.
  - intros q H1 H0. destruct (exec_new_dirs _ _ _ _ _ q Hrun H1 H0) as (p & Hp & Hq).
    destruct (Hall p Hp) as (_ & _ & m & Hm & ->). by exists m.
Qed.

(** [docs] holds nothing at the start: the run makes five directories with
    five calls, among them [docs/core], which four pairs share; the
    missing [docs/guide] is a directory at the end. *)
Lemma directories_made_once_witness :
  let w := Sample.two_sources in
  let t := (exec MigrateRemaining.main w).1.1 in
  let w' := (exec MigrateRemaining.main w).2 in
  (NoDup (mkdirs t)
   /\ (forall p, p ∈ mkdirs t ->
         Fs.existsSync p (fs w) = false
         /\ (forall q, q `prefix_of` p -> Fs.is_dir q (fs w') = true)
         /\ exists m, m ∈ MigrateRemaining.mappings /\ p = MigrateRemaining.destDir m)
   /\ (forall q, Fs.is_dir q (fs w') = true -> Fs.is_dir q (fs w) = false ->
         exists m, m ∈ MigrateRemaining.mappings
                   /\ MigrateRemaining.destDir m ∈ mkdirs t
                   /\ q `prefix_of` MigrateRemaining.destDir m))
  /\ length (mkdirs t) = 5
  /\ Fs.is_dir (docs ++ ["guide"]) (fs w) = false
  /\ Fs.is_dir (docs ++ ["guide"]) (fs w') = true.
Proof.
  cbv zeta. split.
  - apply (directories_made_once Sample.two_sources _ _
                                 (exec MigrateRemaining.main Sample.two_sources).1.2).
    vm_compute. reflexivity.
  - split_and!; vm_compute; reflexivity.
Defined.

(** ** Where a source is looked for *)

Lemma sources_distinct : NoDup (map MigrateRemaining.srcPath MigrateRemaining.mappings).
Proof. apply (bool_decide_unpack _). by vm_compute. Qed.

Lemma source_is_no_destination_directory (m m' : MigrateRemaining.mapping) :
  placed m -> placed m' -> MigrateRemaining.destDir m' <> MigrateRemaining.srcPath m.
Proof.
  intros [_ [_ Hm]] [(r & c & Hdir & _) _] E. apply Hm. rewrite <- E, Hdir.
  by apply prefix_app_r.
Qed.

(** A turn for another pair does not look for the source of [m]. *)
Lemma turn_never_checks (p : path) (m' : MigrateRemaining.mapping)
      (w w' : world) (t : list event) (r : outcome unit) :
  MigrateRemaining.destDir m' <> p -> MigrateRemaining.srcPath m' <> p ->
  exec (MigrateRemaining.copy_one m' tt) w = (t, r, w') ->
  Forall (fun ev => ~ checks p ev) t.
Proof.
  intros Hd Hs. rewrite exec_copy_one. cbv zeta. unfold ensure_dir.
  destruct (Fs.existsSync (MigrateRemaining.destDir m') (fs w)).
  - destruct (Fs.existsSync (MigrateRemaining.srcPath m') (fs w)).
    + destruct (Fs.readFileSync _ (fs w)) as [content|e].
      * destruct (Fs.writeFileSync _ content (fs w)) as [n|e]; intros [= <- _ _];
          repeat (apply Forall_cons_2; [intros [x Hx]; congruence|]); apply Forall_nil_2.
      * intros [= <- _ _].
        repeat (apply Forall_cons_2; [intros [x Hx]; congruence|]); apply Forall_nil_2.
    + intros [= <- _ _].
      repeat (apply Forall_cons_2; [intros [x Hx]; congruence|]); apply Forall_nil_2.
  - destruct (Fs.mkdirSync _ (fs w)) as [n0|e0].
    + cbn [set_fs fs]. destruct (Fs.existsSync (MigrateRemaining.srcPath m') n0).
      * destruct (Fs.readFileSync _ n0) as [content|e].
        -- destruct (Fs.writeFileSync _ content n0) as [n|e]; intros [= <- _ _];
             repeat (apply Forall_cons_2; [intros [x Hx]; congruence|]); apply Forall_nil_2.
        -- intros [= <- _ _].
           repeat (apply Forall_cons_2; [intros [x Hx]; congruence|]); apply Forall_nil_2.
      * intros [= <- _ _].
        repeat (apply Forall_cons_2; [intros [x Hx]; congruence|]); apply Forall_nil_2.
    + intros [= <- _ _].
      repeat (apply Forall_cons_2; [intros [x Hx]; congruence|]); apply Forall_nil_2.
Qed.

Lemma loop_never_checks (p : path) (ms : list MigrateRemaining.mapping) :
  (forall m', m' ∈ ms ->
              MigrateRemaining.destDir m' <> p /\ MigrateRemaining.srcPath m' <> p) ->
  forall w t r w',
    exec (forEach ms MigrateRemaining.copy_one tt) w = (t, r, w') ->
    Forall (fun ev => ~ checks p ev) t.
Proof.
  unfold exec. induction ms as [|m' ms IH]; intros Hne w t r w' Hrun.
  - injection Hrun as <- _ _. apply Forall_nil_2.
  - rewrite run_forEach_cons in Hrun.
    destruct (Hne m' (list_elem_of_here _ _)) as [Hd Hs].
    destruct (run node_handle (MigrateRemaining.copy_one m' tt) w)
      as [[t1 [[]|e]] w1] eqn:E1.
    + destruct (run node_handle (forEach ms MigrateRemaining.copy_one tt) w1)
        as [[t2 r2] w2] eqn:E2.
      injection Hrun as <- _ _. apply Forall_app. split.
      * by eapply turn_never_checks.
      * eapply IH; [|exact E2]. intros x Hx. apply Hne. by apply list_elem_of_further.
    + injection Hrun as <- _ _. by eapply turn_never_checks.
Qed.

(** The pairs before and after [m] in the list have other sources. *)
Lemma others_never_check (ms1 ms2 : list MigrateRemaining.mapping)
      (m : MigrateRemaining.mapping) :
  MigrateRemaining.mappings = ms1 ++ m :: ms2 ->
  forall m', m' ∈ ms1 \/ m' ∈ ms2 ->
    MigrateRemaining.destDir m' <> MigrateRemaining.srcPath m
    /\ MigrateRemaining.srcPath m' <> MigrateRemaining.srcPath m.
Proof.
  intros Hsplit m' Hm'.
  pose proof mappings_placed as Hpl. rewrite Forall_forall in Hpl.
  assert (m ∈ MigrateRemaining.mappings) as Hm
      by (rewrite Hsplit; apply elem_of_app; right; apply list_elem_of_here).
  assert (m' ∈ MigrateRemaining.mappings) as Hm'in.
  { rewrite Hsplit. apply elem_of_app. destruct Hm' as [?|?]; [by left|right].
    by apply list_elem_of_further. }
  split; [by apply source_is_no_destination_directory; apply Hpl|].
  intros E. pose proof sources_distinct as Hnd. rewrite Hsplit, map_app in Hnd.
  cbn [map] in Hnd. apply NoDup_app in Hnd as (_ & Hnd1 & Hnd2).
  apply NoDup_cons in Hnd2 as [Hnd2 _]. destruct Hm' as [Hm'|Hm'].
  - apply (Hnd1 (MigrateRemaining.srcPath m)); [|apply list_elem_of_here].
    rewrite <- E. apply list_elem_of_fmap. by exists m'.
  - apply Hnd2. rewrite <- E. apply list_elem_of_fmap. by exists m'.
Qed.

(** ** Cutting a trace at an event *)

Lemma cut_after_fresh {T} (P : T -> Prop) (l1 l2 ta tb : list T) (ev : T) :
  P ev -> Forall (fun x => ~ P x) l1 -> l1 ++ l2 = ta ++ ev :: tb ->
  exists sa, ta = l1 ++ sa /\ l2 = sa ++ ev :: tb.
Proof.
  intros Hev Hl1 H. apply app_eq_app in H as [l [[-> H]|[-> ->]]].
  - destruct l as [|x l].
    + exists []. by rewrite !app_nil_r.
    + injection H as <- _. apply Forall_app in Hl1 as [_ Hl1].
      apply Forall_cons in Hl1 as [Hx _]. done.
  - by exists l.
Qed.

Lemma cut_before_fresh {T} (P : T -> Prop) (l1 l2 ta tb : list T) (ev : T) :
  P ev -> Forall (fun x => ~ P x) l2 -> l1 ++ l2 = ta ++ ev :: tb ->
  exists sb, l1 = ta ++ ev :: sb.
Proof.
  intros Hev Hl2 H. apply app_eq_app in H as [l [[-> H]|[-> ->]]].
  - destruct l as [|x l].
    + cbn in H. subst l2. apply Forall_cons in Hl2 as [Hx _]. done.
    + injection H as <- _. by exists l.
  - apply Forall_app in Hl2 as [_ Hl2]. apply Forall_cons in Hl2 as [Hx _]. done.
Qed.

(** ** The calls of one turn, in order *)

Ltac no_check :=
  repeat (apply Forall_cons_2; [intros [? ?]; congruence|]); apply Forall_nil_2.

(** A turn looks for the destination directory first.  If nothing is
    there it makes the directory, and the turn ends there when that
    fails.  Only then does it look for the source, once. *)
Lemma turn_shape (m : MigrateRemaining.mapping) (w wm : world)
      (tm : list event) (rm : outcome unit) :
  placed m ->
  exec (MigrateRemaining.copy_one m tt) w = (tm, rm, wm) ->
  exists rest,
    tm = EvExists (MigrateRemaining.destDir m)
                  (Return (Fs.existsSync (MigrateRemaining.destDir m) (fs w))) :: rest
    /\ (Fs.existsSync (MigrateRemaining.destDir m) (fs w) = true ->
        exists tail,
          rest = EvExists (MigrateRemaining.srcPath m) (Return (src_exists (fs w) m)) :: tail
          /\ Forall (fun ev => ~ checks (MigrateRemaining.srcPath m) ev) tail)
    /\ (Fs.existsSync (MigrateRemaining.destDir m) (fs w) = false ->
        exists made rest',
          rest = EvMkdir (MigrateRemaining.destDir m) made :: rest'
          /\ (made = Return tt <-> can_make (MigrateRemaining.destDir m) (fs w) = true)
          /\ (forall e, made = Throw e -> rest' = [] /\ rm = Throw e)
          /\ (made = Return tt ->
              Fs.is_dir (MigrateRemaining.destDir m) (fs wm) = true
              /\ exists tail,
                  rest' = EvExists (MigrateRemaining.srcPath m)
                                   (Return (src_exists (fs w) m)) :: tail
                  /\ Forall (fun ev => ~ checks (MigrateRemaining.srcPath m) ev) tail
                  /\ (src_exists (fs w) m = false ->
                      tail = [EvLog (MigrateRemaining.warning m) (Return tt)]
                      /\ rm = Return tt))).
Proof.
  intros Hpl. pose proof Hpl as [(p & c & Hdir & Hdest) Hsrc].
  rewrite exec_copy_one. cbv zeta. unfold ensure_dir, src_exists.
  destruct (Fs.existsSync (MigrateRemaining.destDir m) (fs w)) eqn:Hex.
  - destruct (Fs.existsSync (MigrateRemaining.srcPath m) (fs w)).
    + destruct (Fs.readFileSync _ (fs w)) as [content|e].
      * destruct (Fs.writeFileSync _ content (fs w)) as [n|e]; intros [= <- <- <-];
          eexists; (split_and!; [reflexivity| |done]); intros _; eexists;
          (split; [reflexivity|no_check]).
      * intros [= <- <- <-]. eexists. split_and!; [reflexivity| |done].
        intros _. eexists. split; [reflexivity|no_check].
    + intros [= <- <- <-]. eexists. split_and!; [reflexivity| |done].
      intros _. eexists. split; [reflexivity|no_check].
  - unfold can_make.
    destruct (Fs.mkdirSync (MigrateRemaining.destDir m) (fs w)) as [n|e] eqn:Em.
    + assert (Fs.existsSync (MigrateRemaining.srcPath m) n
              = Fs.existsSync (MigrateRemaining.srcPath m) (fs w)) as Hsame.
      { unfold Fs.existsSync. rewrite Hdir in Em.
        rewrite (mkdir_walk_apart _ _ _ _ Em); [done|]. by apply apart_app_r. }
      pose proof (mkdir_is_dir _ _ _ Em) as Hd.
      cbn [set_fs fs]. rewrite Hsame.
      destruct (Fs.existsSync (MigrateRemaining.srcPath m) (fs w)).
      * destruct (Fs.readFileSync _ n) as [content|e].
        -- destruct (Fs.writeFileSync _ content n) as [n'|e] eqn:Ew; intros [= <- <- <-];
             eexists; (split_and!; [reflexivity|done|]); intros _;
             exists (Return tt); eexists;
             (split_and!; [reflexivity|done|done|]); intros _;
             (split; [|eexists; split_and!; [reflexivity|no_check|done]]); [|done].
           cbn [fs]. by rewrite (writeFileSync_is_dir _ _ _ _ _ Ew).
        -- intros [= <- <- <-]. eexists. split_and!; [reflexivity|done|]. intros _.
           exists (Return tt). eexists. split_and!; [reflexivity|done|done|]. intros _.
           split; [done|]. eexists. split_and!; [reflexivity|no_check|done].
      * intros [= <- <- <-]. eexists. split_and!; [reflexivity|done|]. intros _.
        exists (Return tt). eexists. split_and!; [reflexivity|done|done|]. intros _.
        split; [done|]. eexists. split_and!; [reflexivity|no_check|done].
    + intros [= <- <- <-]. eexists. split_and!; [reflexivity|done|]. intros _.
      exists (Throw e), []. split_and!; [reflexivity|done| |done].
      by intros e' [= ->].
Qed.

(** Where a turn looks for the source, it has just dealt with the
    destination directory. *)
Lemma turn_order (m : MigrateRemaining.mapping) (w wm : world)
      (tm : list event) (rm : outcome unit) :
  placed m ->
  exec (MigrateRemaining.copy_one m tt) w = (tm, rm, wm) ->
  forall ta x tb,
    tm = ta ++ EvExists (MigrateRemaining.srcPath m) x :: tb ->
    ta = [EvExists (MigrateRemaining.destDir m) (Return true)]
    \/ ta = [EvExists (MigrateRemaining.destDir m) (Return false);
             EvMkdir (MigrateRemaining.destDir m) (Return tt)].
Proof.
  intros Hpl Hrun ta x tb Hcut.
  pose proof (source_is_no_destination_directory m m Hpl Hpl) as Hne.
  assert (forall (tail sa sb : list event) y,
             Forall (fun ev => ~ checks (MigrateRemaining.srcPath m) ev) tail ->
             sa ++ EvExists (MigrateRemaining.srcPath m) y :: sb <> tail) as Hfresh.
  { intros tail sa sb y HF <-. apply Forall_app in HF as [_ HF].
    apply Forall_cons in HF as [HF _]. apply HF. by exists y. }
  destruct (turn_shape m w wm tm rm Hpl Hrun) as (rest & -> & Htrue & Hfalse).
  destruct ta as [|a ta]; cbn [app] in Hcut; [injection Hcut as E _; by destruct Hne|].
  injection Hcut as <- Hcut.
  destruct (Fs.existsSync (MigrateRemaining.destDir m) (fs w)).
  - destruct (Htrue eq_refl) as (tail & -> & HF).
    destruct ta as [|b ta]; [by left|]. cbn [app] in Hcut. injection Hcut as _ Hcut.
    symmetry in Hcut. by apply Hfresh in Hcut.
  - destruct (Hfalse eq_refl) as (made & rest' & -> & _ & Hthrow & Hmade).
    destruct ta as [|b ta]; cbn [app] in Hcut; [done|]. injection Hcut as <- Hcut.
    destruct made as [[]|e].
    + destruct (Hmade eq_refl) as (_ & tail & -> & HF & _).
      destruct ta as [|c ta]; [by right|]. cbn [app] in Hcut. injection Hcut as _ Hcut.
      symmetry in Hcut. by apply Hfresh in Hcut.
    + destruct (Hthrow e eq_refl) as [-> _]. by destruct ta.
Qed.

(** ** The run up to a pair *)

(** A run either throws before the turn of [m], or in it, or goes on with
    the pairs after [m]. *)
Lemma main_at_pair (w w' : world) (t : list event) (r : outcome unit)
      (ms1 ms2 : list MigrateRemaining.mapping) (m : MigrateRemaining.mapping) :
  exec MigrateRemaining.main w = (t, r, w') ->
  MigrateRemaining.mappings = ms1 ++ m :: ms2 ->
  (exists e, exec (forEach ms1 MigrateRemaining.copy_one tt) w = (t, Throw e, w')
             /\ r = Throw e)
  \/ (exists t1 w1 tm rm wm,
         exec (forEach ms1 MigrateRemaining.copy_one tt) w = (t1, Return tt, w1)
         /\ exec (MigrateRemaining.copy_one m tt) w1 = (tm, rm, wm)
         /\ ((exists e, rm = Throw e /\ t = t1 ++ tm /\ r = Throw e /\ w' = wm)
             \/ (rm = Return tt
                 /\ exists t2,
                     exec (forEach ms2 MigrateRemaining.copy_one tt) wm = (t2, r, w')
                     /\ t = t1 ++ tm ++ t2))).
Proof.
  intros Hrun Hsplit. unfold MigrateRemaining.main in Hrun. rewrite Hsplit in Hrun.
  unfold exec in *. rewrite run_forEach_app in Hrun.
  destruct (run node_handle (forEach ms1 MigrateRemaining.copy_one tt) w)
    as [[t1 [[]|e]] w1] eqn:E1.
  - right. rewrite run_forEach_cons in Hrun.
    destruct (run node_handle (MigrateRemaining.copy_one m tt) w1)
      as [[tm [[]|e]] wm] eqn:Em.
    + destruct (run node_handle (forEach ms2 MigrateRemaining.copy_one tt) wm)
        as [[t2 r2] w2] eqn:E2.
      injection Hrun as <- <- <-. exists t1, w1, tm, (Return tt), wm.
      split_and!; [done|done|]. right. split; [done|]. by exists t2.
    + injection Hrun as <- <- <-. exists t1, w1, tm, (Throw e), wm.
      split_and!; [done|done|]. left. by exists e.
  - left. injection Hrun as <- <- <-. by exists e.
Qed.

(** The loop writes at destinations only: what is above them holds the
    files it held. *)
Lemma loop_short_files (ms : list MigrateRemaining.mapping) :
  (forall x, x ∈ ms -> x ∈ MigrateRemaining.mappings) ->
  forall w t r w' q,
    exec (forEach ms MigrateRemaining.copy_one tt) w = (t, r, w') ->
    length q < 8 -> Fs.file_at q (fs w') = Fs.file_at q (fs w).
Proof.
  intros Hin w t r w' q Hrun Hq.
  assert (Forall placed ms) as Hpl.
  { apply Forall_forall. intros x Hx. pose proof mappings_placed as H.
    rewrite Forall_forall in H. by apply H, Hin. }
  rewrite (exec_file_at _ _ _ _ _ q Hrun).
  destruct (copy_loop_prefix _ Hpl _ _ _ _ Hrun) as (k & _ & _ & _ & ->).
  apply last_write_other, Forall_forall. intros [p d] (x & E & Hx)%list_elem_of_fmap.
  injection E as -> _. cbn [fst]. intros <-.
  apply list_elem_of_In, filter_In in Hx as [Hx%list_elem_of_In%taken_in _].
  destruct (mappings_lengths x (Hin x Hx)) as [_ L]. lia.
Qed.

(** After a loop that completes, something is at the destination directory
    of [m] exactly when something was there at the start or a pair of the
    loop has that directory. *)
Lemma loop_exists_dir (ms : list MigrateRemaining.mapping)
      (m : MigrateRemaining.mapping) (w w' : world) (t : list event) :
  (forall x, x ∈ ms -> x ∈ MigrateRemaining.mappings) ->
  m ∈ MigrateRemaining.mappings ->
  exec (forEach ms MigrateRemaining.copy_one tt) w = (t, Return tt, w') ->
  Fs.existsSync (MigrateRemaining.destDir m) (fs w')
  = Fs.existsSync (MigrateRemaining.destDir m) (fs w)
    || bool_decide (MigrateRemaining.destDir m ∈ map MigrateRemaining.destDir ms).
Proof.
  intros Hin Hm Hrun.
  assert (Forall placed ms) as Hpl.
  { apply Forall_forall. intros x Hx. pose proof mappings_placed as H.
    rewrite Forall_forall in H. by apply H, Hin. }
  destruct (mappings_lengths m Hm) as [L _].
  destruct (Fs.existsSync (MigrateRemaining.destDir m) (fs w)) eqn:H0; cbn [orb].
  - by destruct (exec_kind _ _ _ _ _ _ Hrun H0) as [H _].
  - case_bool_decide as Hd.
    + apply list_elem_of_fmap in Hd as (m' & -> & Hm').
      by destruct (copy_loop_settles _ Hpl _ _ _ Hrun m' Hm') as [H _].
    + destruct (Fs.existsSync (MigrateRemaining.destDir m) (fs w')) eqn:H1; [|done].
      exfalso. rewrite exists_kinds in H0, H1.
      apply orb_false_elim in H0 as [H0d H0f].
      assert (is_file (MigrateRemaining.destDir m) (fs w') = false) as H1f.
      { unfold is_file in *.
        rewrite (loop_short_files ms Hin _ _ _ _ _ Hrun); [done|lia]. }
      rewrite H1f, orb_false_r in H1.
      destruct (exec_new_dirs _ _ _ _ _ _ Hrun H1 H0d) as (p & Hp & Hq).
      destruct (copy_loop_mkdirs _ _ _ _ _ Hrun) as [_ Hall].
      destruct (Hall p Hp) as (_ & _ & m' & Hm' & ->).
      destruct (mappings_lengths m' (Hin m' Hm')) as [L' _].
      apply prefix_length_eq in Hq; [|lia].
      apply Hd. rewrite Hq. apply list_elem_of_fmap. by exists m'.
Qed.

(** Whether the destination directory of a pair can be made does not
    change in the loop. *)
Lemma loop_can_make (ms : list MigrateRemaining.mapping)
      (m : MigrateRemaining.mapping) (w w' : world) (t : list event) (r : outcome unit) :
  (forall x, x ∈ ms -> x ∈ MigrateRemaining.mappings) ->
  m ∈ MigrateRemaining.mappings ->
  exec (forEach ms MigrateRemaining.copy_one tt) w = (t, r, w') ->
  can_make (MigrateRemaining.destDir m) (fs w')
  = can_make (MigrateRemaining.destDir m) (fs w).
Proof.
  intros Hin Hm Hrun. destruct (mappings_lengths m Hm) as [L _].
  apply can_make_same. intros k. unfold is_file.
  rewrite (loop_short_files ms Hin _ _ _ _ _ Hrun); [done|].
  rewrite length_take. lia.
Qed.

(** Nothing is written to the destination of a pair whose source is not
    there. *)
Lemma skipped_pair_not_written (w w' : world) (t : list event) (r : outcome unit)
      (m : MigrateRemaining.mapping) :
  exec MigrateRemaining.main w = (t, r, w') ->
  m ∈ MigrateRemaining.mappings ->
  src_exists (fs w) m = false ->
  forall d, (MigrateRemaining.destPath m, d) ∉ writes t.
Proof.
  intros Hrun Hm Hex d.
  destruct (copy_loop_prefix _ mappings_placed _ _ _ _ Hrun) as (k & _ & _ & _ & ->).
  intros (m' & E & Hm')%list_elem_of_fmap.
  apply list_elem_of_In, filter_In in Hm' as [Hm'%list_elem_of_In%taken_in Hex'].
  assert (m = m') as <-; [|congruence].
  eapply NoDup_map_eq; [exact destinations_distinct| | |].
  - by apply list_elem_of_In.
  - by apply list_elem_of_In.
  - apply (f_equal fst) in E. exact E.
Qed.

(** C9.  Take a pair of the list of [migrate_remaining.js] and a run of
    the script, however it ends.  Wherever the run looks for the source of
    the pair, the call just before it found the pair's destination
    directory, or the two calls just before it looked for the directory,
    found nothing and made it.  If nothing stands in the way of the pairs
    before this one, the run reaches the pair and its first call for it
    looks for the destination directory, which is there exactly when
    something was at that path at the start or an earlier pair has the
    same directory.  If it is not there the next call makes it, which
    goes through exactly when no regular file is on the way, and ends the
    run with its error otherwise; once made, the directory, which was not
    there at the start, is there at the end of the run, and only then is
    the source looked for.  That holds also when the source does not
    exist: the pair then gets its warning and nothing is written to its
    destination, and the directory has been made all the same. *)
Theorem destination_directory_made_first
        (w w' : world) (t : list event) (r : outcome unit)
        (ms1 ms2 : list MigrateRemaining.mapping) (m : MigrateRemaining.mapping) :
  exec MigrateRemaining.main w = (t, r, w') ->
  MigrateRemaining.mappings = ms1 ++ m :: ms2 ->
  let dir := MigrateRemaining.destDir m in
  let source := MigrateRemaining.srcPath m in
  let there := Fs.existsSync dir (fs w)
               || bool_decide (dir ∈ map MigrateRemaining.destDir ms1) in
  (forall ta x tb,
      t = ta ++ EvExists source x :: tb ->
      (exists ta', ta = ta' ++ [EvExists dir (Return true)])
      \/ (exists ta', ta = ta' ++ [EvExists dir (Return false); EvMkdir dir (Return tt)]))
  /\ (forallb (pair_ok (fs w)) ms1 = true ->
      exists t1 w1 rest,
        exec (forEach ms1 MigrateRemaining.copy_one tt) w = (t1, Return tt, w1)
        /\ t = t1 ++ EvExists dir (Return there) :: rest
        /\ (there = true ->
            exists rest', rest = EvExists source (Return (src_exists (fs w) m)) :: rest')
        /\ (there = false ->
            exists made rest',
              rest = EvMkdir dir made :: rest'
              /\ (made = Return tt <-> can_make dir (fs w) = true)
              /\ (forall e, made = Throw e -> rest' = [] /\ r = Throw e)
              /\ (made = Return tt ->
                  Fs.is_dir dir (fs w) = false
                  /\ Fs.is_dir dir (fs w') = true
                  /\ exists rest'',
                      rest' = EvExists source (Return (src_exists (fs w) m)) :: rest''
                      /\ (src_exists (fs w) m = false ->
                          (exists t2,
                              rest'' = EvLog (MigrateRemaining.warning m) (Return tt) :: t2)
                          /\ (forall d, (MigrateRemaining.destPath m, d) ∉ writes t))))).
Proof.
  intros Hrun Hsplit dir source there.
  destruct (split_in_mappings _ _ Hsplit) as [Hin1 Hin2].
  destruct (split_placed _ _ Hsplit) as [Hpl1 Hpl2].
  pose proof (Hin2 m (list_elem_of_here _ _)) as Hm.
  assert (placed m) as Hpl by (by apply Forall_cons in Hpl2 as [? _]).
  assert (forall x, x ∈ ms2 -> x ∈ MigrateRemaining.mappings) as Hin2'
      by (intros x Hx; by apply Hin2, list_elem_of_further).
  pose proof (skipped_pair_not_written _ _ _ _ m Hrun Hm) as Hnone.
  assert (forall ws ts rs ws', exec (forEach ms1 MigrateRemaining.copy_one tt) ws
                               = (ts, rs, ws') ->
                               Forall (fun ev => ~ checks source ev) ts) as Hfresh1.
  { intros ws ts rs ws'. apply loop_never_checks. intros m' Hm'.
    apply (others_never_check ms1 ms2 m Hsplit). by left. }
  assert (forall ws ts rs ws', exec (forEach ms2 MigrateRemaining.copy_one tt) ws
                               = (ts, rs, ws') ->
                               Forall (fun ev => ~ checks source ev) ts) as Hfresh2.
  { intros ws ts rs ws'. apply loop_never_checks. intros m' Hm'.
    apply (others_never_check ms1 ms2 m Hsplit). by right. }
  destruct (main_at_pair _ _ _ _ _ _ _ Hrun Hsplit)
    as [(e & E1 & ->)|(t1 & w1 & tm & rm & wm & E1 & Em & Hrest)].
  { split.
    - intros ta x tb ->. pose proof (Hfresh1 _ _ _ _ E1) as HF.
      apply Forall_app in HF as [_ HF]. apply Forall_cons in HF as [HF _].
      destruct HF. by exists x.
    - intros Hok. pose proof (copy_loop_completes _ Hin1 w) as Hc.
      rewrite E1, Hok in Hc. done. }
  pose proof (Hfresh1 _ _ _ _ E1) as HF1.
  pose proof (turn_order m w1 wm tm rm Hpl Em) as Horder.
  destruct (turn_shape m w1 wm tm rm Hpl Em) as (rest0 & Htm & Htrue & Hfalse).
  assert (Fs.existsSync dir (fs w1) = there) as Hthere
      by (apply (loop_exists_dir ms1 m w w1 t1 Hin1 Hm E1)).
  assert (can_make dir (fs w1) = can_make dir (fs w)) as Hmake
      by (apply (loop_can_make ms1 m w w1 t1 _ Hin1 Hm E1)).
  assert (src_exists (fs w1) m = src_exists (fs w) m) as Hsrc.
  { destruct (copy_loop_calls (fs w) ms1 Hpl1 Hin1 w (beside_refl _)) as [_ Hb].
    rewrite E1 in Hb. cbn [snd] in Hb. symmetry. by apply beside_src_exists. }
  fold dir source in Htm, Htrue, Hfalse, Horder.
  rewrite Hthere in Htm, Htrue, Hfalse. rewrite Hsrc in Htrue, Hfalse.
  rewrite Hmake in Hfalse.
  assert (there = false -> Fs.is_dir dir (fs w) = false) as Habsent.
  { unfold there. intros [H _]%orb_false_elim. rewrite exists_kinds in H.
    by apply orb_false_elim in H as [H _]. }
  destruct Hrest as [(e & -> & -> & -> & ->)|(-> & t2 & E2 & ->)].
  - split.
    + intros ta x tb Hcut.
      destruct (cut_after_fresh (checks source) t1 tm ta tb _
                                (ex_intro _ x eq_refl) HF1 Hcut) as (sa & -> & Hsa).
      destruct (Horder _ _ _ Hsa) as [-> | ->]; [left|right]; by exists t1.
    + intros _. exists t1, w1, rest0. split_and!; [done|by rewrite Htm|..].
      * intros Ht. destruct (Htrue Ht) as (tail & -> & _). by eexists.
      * intros Ht. destruct (Hfalse Ht) as (made & rest' & -> & Hiff & Hthrow & Hmade).
        exists made, rest'. split_and!; [done|done|done|].
        intros Hm1. destruct (Hmade Hm1) as (Hd & tail & -> & _ & Hwarn).
        split_and!; [by apply Habsent|done|]. exists tail. split; [done|].
        intros Hex. destruct (Hwarn Hex) as [-> _]. split; [by eexists|by apply Hnone].
  - pose proof (Hfresh2 _ _ _ _ E2) as HF2. split.
    + intros ta x tb Hcut.
      destruct (cut_after_fresh (checks source) t1 (tm ++ t2) ta tb _
                                (ex_intro _ x eq_refl) HF1 Hcut) as (sa & -> & Hsa).
      destruct (cut_before_fresh (checks source) tm t2 sa tb _
                                 (ex_intro _ x eq_refl) HF2 Hsa) as (sb & Hsb).
      destruct (Horder _ _ _ Hsb) as [-> | ->]; [left|right]; by exists t1.
    + intros _. exists t1, w1, (rest0 ++ t2).
      split_and!; [done|by rewrite Htm|..].
      * intros Ht. destruct (Htrue Ht) as (tail & -> & _). by eexists.
      * intros Ht. destruct (Hfalse Ht) as (made & rest' & -> & Hiff & Hthrow & Hmade).
        exists made, (rest' ++ t2). split_and!; [done|done| |].
        -- intros e He. by destruct (Hthrow e He) as [_ ?].
        -- intros Hm1. destruct (Hmade Hm1) as (Hd & tail & -> & _ & Hwarn).
           split_and!; [by apply Habsent| |].
           ++ assert (Fs.existsSync dir (fs wm) = true) as Hex
                  by (rewrite exists_kinds, Hd; done).
              destruct (exec_kind _ _ _ _ _ _ E2 Hex) as (_ & -> & _). done.
           ++ exists (tail ++ t2). split; [done|].
              intros Hex. destruct (Hwarn Hex) as [-> _].
              split; [by eexists|by apply Hnone].
Qed.

(** [docs] holds nothing at the start and the source of the fifth pair is
    missing.  The four pairs before it share [docs/core]; when the fifth
    pair's turn comes [docs/monitoring] is not there, is made, and only
    then is the missing source looked for and the warning printed. *)
Lemma destination_directory_made_first_witness :
  let w := Sample.two_sources in
  let t := (exec MigrateRemaining.main w).1.1 in
  let r := (exec MigrateRemaining.main w).1.2 in
  let w' := (exec MigrateRemaining.main w).2 in
  let ms1 := take 4 MigrateRemaining.mappings in
  let m := Sample.monitoring in
  let ms2 := drop 5 MigrateRemaining.mappings in
  let dir := MigrateRemaining.destDir m in
  let source := MigrateRemaining.srcPath m in
  let there := Fs.existsSync dir (fs w)
               || bool_decide (dir ∈ map MigrateRemaining.destDir ms1) in
  ((forall ta x tb,
       t = ta ++ EvExists source x :: tb ->
       (exists ta', ta = ta' ++ [EvExists dir (Return true)])
       \/ (exists ta', ta = ta' ++ [EvExists dir (Return false); EvMkdir dir (Return tt)]))
   /\ (forallb (pair_ok (fs w)) ms1 = true ->
       exists t1 w1 rest,
         exec (forEach ms1 MigrateRemaining.copy_one tt) w = (t1, Return tt, w1)
         /\ t = t1 ++ EvExists dir (Return there) :: rest
         /\ (there = true ->
             exists rest', rest = EvExists source (Return (src_exists (fs w) m)) :: rest')
         /\ (there = false ->
             exists made rest',
               rest = EvMkdir dir made :: rest'
               /\ (made = Return tt <-> can_make dir (fs w) = true)
               /\ (forall e, made = Throw e -> rest' = [] /\ r = Throw e)
               /\ (made = Return tt ->
                   Fs.is_dir dir (fs w) = false
                   /\ Fs.is_dir dir (fs w') = true
                   /\ exists rest'',
                       rest' = EvExists source (Return (src_exists (fs w) m)) :: rest''
                       /\ (src_exists (fs w) m = false ->
                           (exists t2,
                               rest'' = EvLog (MigrateRemaining.warning m) (Return tt) :: t2)
                           /\ (forall d, (MigrateRemaining.destPath m, d) ∉ writes t))))))
  /\ forallb (pair_ok (fs w)) ms1 = true
  /\ there = false
  /\ can_make dir (fs w) = true
  /\ src_exists (fs w) m = false
  /\ Fs.is_dir dir (fs w') = true.
Proof.
  cbv zeta. split.
  - apply (destination_directory_made_first
             Sample.two_sources
             (exec MigrateRemaining.main Sample.two_sources).2
             (exec MigrateRemaining.main Sample.two_sources).1.1
             (exec MigrateRemaining.main Sample.two_sources).1.2
             (take 4 MigrateRemaining.mappings)
             (drop 5 MigrateRemaining.mappings)
             Sample.monitoring).
    + vm_compute. reflexivity.
    + reflexivity.
  - split_and!; vm_compute; reflexivity.
Defined.

(** * Failures in the primary script *)

(** ** Calls that do not throw *)

Section QuietChecks.

Context {W : Type}.
Variable handle : forall R, call R -> W -> outcome R * W.

(** [fs.existsSync] and [console.log] return. *)
Hypothesis exists_returns :
  forall p w, exists b w', handle _ (ExistsSync p) w = (Return b, w').
Hypothesis log_returns :
  forall l w, exists w', handle _ (ConsoleLog l) w = (Return tt, w').

(** A run that throws ends with a failing call, which is neither. *)
Lemma run_throw_call {A} (m : prog A) :
  forall w t e w',
    run handle m w = (t, Throw e, w') ->
    exists t1 ev, t = t1 ++ [ev] /\ failure ev = Some e /\ throwing_call ev.
Proof.
  induction m as [a|R c k IH]; intros w t e w' Hrun; cbn in Hrun; [done|].
  destruct (handle R c w) as [[x|e0] w0] eqn:Hc.
  - destruct (run handle (k x) w0) as [[t0 r0] w1] eqn:Hk.
    injection Hrun as <- -> <-.
    destruct (IH _ _ _ _ _ Hk) as (t1 & ev & -> & He & Hev).
    by exists (event_of c (Return x) :: t1), ev.
  - injection Hrun as <- <- <-. exists [], (event_of c (Throw e0)).
    split; [done|]. destruct c; cbn; try done.
    + destruct (exists_returns p w) as (b & w'' & H). congruence.
    + destruct (log_returns line w) as (w'' & H). congruence.
Qed.

End QuietChecks.

Lemma guarded_exists_returns (locked : list path) (p : path) (w : world) :
  exists b w', guarded_handle locked _ (ExistsSync p) w = (Return b, w').
Proof. cbn. destruct (blocked locked p); by eexists _, _. Qed.

Lemma guarded_log_returns (locked : list path) (l : string) (w : world) :
  exists w', guarded_handle locked _ (ConsoleLog l) w = (Return tt, w').
Proof. cbn. by eexists. Qed.

(** With no directory locked the model is the tree model. *)
Lemma guarded_nil {R} (c : call R) (w : world) :
  guarded_handle [] R c w = node_handle R c w.
Proof. by destruct c. Qed.

(** ** What is written stays *)

Lemma writes_cons_in (ev : event) (t : list event) (pd : path * string) :
  pd ∈ writes (ev :: t) -> write_of ev = Some pd \/ pd ∈ writes t.
Proof.
  unfold writes. cbn [omap list_omap]. destruct (write_of ev) as [pd'|]; [|by right].
  intros [->|H]%elem_of_cons; [by left|by right].
Qed.

(** Whatever the script and however its run ends, a path it has written
    holds a regular file at the end. *)
Lemma written_stays {A} (m : prog A) :
  forall w t r w' p d,
    exec m w = (t, r, w') -> (p, d) ∈ writes t -> is_file p (fs w') = true.
Proof.
  unfold exec.
  induction m as [a|R c k IH]; intros w t r w' p d Hrun Hin; cbn in Hrun.
  - injection Hrun as <- _ _. by apply elem_of_nil in Hin.
  - destruct (node_handle R c w) as [[x|e] w0] eqn:Hc.
    + destruct (run node_handle (k x) w0) as [[t0 r0] w1] eqn:Hk.
      injection Hrun as <- <- <-.
      apply writes_cons_in in Hin as [Hev|Hin]; [|by eapply IH].
      destruct c; cbn in Hev; try done. injection Hev as -> ->. cbn in Hc.
      destruct (Fs.writeFileSync p d (fs w)) as [n|] eqn:Ew; [|done].
      injection Hc as _ <-.
      assert (is_file p (fs (set_fs w n)) = true) as Hf.
      { unfold is_file. cbn [set_fs fs].
        rewrite (writeFileSync_file_at _ _ _ _ p Ew). by rewrite decide_True. }
      assert (Fs.existsSync p (fs (set_fs w n)) = true) as Hex
          by (rewrite exists_kinds, Hf; apply orb_true_r).
      destruct (exec_kind _ _ _ _ _ _ Hk Hex) as (_ & _ & ->). exact Hf.
    + injection Hrun as <- _ _. apply writes_cons_in in Hin as [Hev|Hin].
      * by destruct c.
      * by apply elem_of_nil in Hin.
Qed.

(** ** What makes the primary script throw *)

Lemma forallb_false {T} (f : T -> bool) (l : list T) :
  forallb f l = false <-> exists x, x ∈ l /\ f x = false.
Proof.
  induction l as [|a l IH]; cbn [forallb].
  - split; [done|]. intros (x & Hx & _). by apply elem_of_nil in Hx.
  - rewrite andb_false_iff, IH. split.
    + intros [H|(x & Hx & H)].
      * exists a. split; [apply list_elem_of_here|done].
      * exists x. split; [by apply list_elem_of_further|done].
    + intros (x & [->|Hx]%elem_of_cons & H); [by left|right]. by exists x.
Qed.

(** On a well-formed tree the run completes exactly when nothing stands in
    its way. *)
Lemma main_completes (w : world) :
  Fs.wf (fs w) = true -> completes (exec Migrate.main w) = ready (fs w).
Proof.
  intros Hwf%wf_proper_source. rewrite exec_main. unfold setup, ready.
  destruct (Fs.existsSync Migrate.targetDir (fs w)) eqn:Hex.
  - pose proof (mkdir_exists _ _ Hex) as Hm.
    pose proof (finish_completes w Hwf) as Hf.
    destruct (exec finish w) as [[t0 r0] w0]. rewrite completes_cons, Hf.
    destruct (Fs.mkdirSync Migrate.targetDir (fs w)); rewrite Hm;
      by destruct (Fs.readdirSync Migrate.sourceDir (fs w)).
  - destruct (Fs.mkdirSync Migrate.targetDir (fs w)) as [n|e] eqn:Em; [|done].
    pose proof (mkdir_outside _ _ Em) as Ho.
    pose proof (finish_completes (set_fs w n) (outside_proper_source _ _ Ho Hwf)) as Hf.
    destruct (exec finish (set_fs w n)) as [[t0 r0] w0].
    rewrite !completes_cons, Hf. cbn [set_fs fs].
    rewrite <- (outside_listing _ _ Ho).
    destruct (Fs.readdirSync Migrate.sourceDir (fs w)) as [names|e]; [|done].
    rewrite (mkdir_is_dir _ _ _ Em). cbn [andb].
    unfold index_md. rewrite (mkdir_child_is_dir _ _ _ _ Em).
    assert (is_file Migrate.configPath n = is_file Migrate.configPath (fs w)) as ->
        by (unfold is_file, Fs.file_at; by rewrite (Ho _ config_apart_target)).
    do 2 f_equal. apply forallb_eq. intros mw. unfold topic_ok, is_file, Fs.file_at.
    rewrite <- (outside_migrated _ _ mw Ho), (Ho _ (source_apart _)).
    unfold page_path. by rewrite (mkdir_child_is_dir _ _ _ _ Em).
Qed.

(** The ways in which something can stand in the way of the run. *)
Lemma not_ready_cases (n : Fs.node) :
  ready n = false
  <-> can_make Migrate.targetDir n = false
      \/ (exists e, Fs.readdirSync Migrate.sourceDir n = Throw e)
      \/ (exists mw, mw ∈ listing n /\ migrated n mw = true
                     /\ is_file (Migrate.sourceDir ++ [mw; "README.md"]) n = false)
      \/ (exists mw, mw ∈ listing n /\ migrated n mw = true
                     /\ Fs.is_dir (page_path mw) n = true)
      \/ Fs.is_dir index_md n = true
      \/ is_file Migrate.configPath n = false.
Proof.
  unfold ready, can_make, listing.
  destruct (Fs.mkdirSync Migrate.targetDir n) as [n'|e0].
  - destruct (Fs.readdirSync Migrate.sourceDir n) as [names|e1].
    + rewrite !andb_false_iff, forallb_false, negb_false_iff. split.
      * intros [[(mw & Hmw & Hok)|H]|H]; [|tauto|tauto].
        unfold topic_ok in Hok. apply orb_false_elim in Hok as [Hmig Hok].
        apply negb_false_iff in Hmig. apply andb_false_iff in Hok as [Hok|Hok].
        -- right. right. left. by exists mw.
        -- right. right. right. left. apply negb_false_iff in Hok. by exists mw.
      * intros [H|[[e H]|[(mw & Hmw & Hmig & H)|[(mw & Hmw & Hmig & H)|[H|H]]]]];
          [done|done| | |tauto|tauto].
        -- left. left. exists mw. split; [done|]. unfold topic_ok. by rewrite Hmig, H.
        -- left. left. exists mw. split; [done|]. unfold topic_ok.
           rewrite Hmig, H. apply andb_false_r.
    + split; [intros _; right; left; by exists e1|done].
  - split; [intros _; by left|done].
Qed.

(** The first call of the script looks for the target directory, whatever
    the filesystem does. *)
Lemma main_first_call {W : Type} (handle : forall R, call R -> W -> outcome R * W)
      (w w' : W) (t : list event) (r : outcome unit) :
  run handle Migrate.main w = (t, r, w') ->
  exists x t', t = EvExists Migrate.targetDir x :: t'.
Proof.
  unfold Migrate.main, Migrate.collect.
  cbn [run perform mbind prog_mbind prog_bind event_of].
  destruct (handle bool (ExistsSync Migrate.targetDir) w) as [[b|e] w0].
  - match goal with
    | |- context [run handle ?m w0] => destruct (run handle m w0) as [[t0 r0] w1]
    end.
    intros [= <- _ _]. by eexists _, _.
  - intros [= <- _ _]. by eexists _, _.
Qed.

(** When the source directory lies below a directory that cannot be
    searched, listing it fails with [EACCES] and that ends the run, before
    anything is written or printed. *)
Lemma denied_listing (locked : list path) (w w' : world)
      (t : list event) (r : outcome unit) :
  blocked locked Migrate.sourceDir = true ->
  blocked locked Migrate.targetDir = false ->
  Fs.existsSync Migrate.targetDir (fs w) = true
  \/ can_make Migrate.targetDir (fs w) = true ->
  run (guarded_handle locked) Migrate.main w = (t, r, w') ->
  r = Throw EACCES
  /\ last t = Some (EvReaddir Migrate.sourceDir (Throw EACCES))
  /\ writes t = [] /\ printed t = [].
Proof.
  intros Hs Ht Hmk. unfold Migrate.main, Migrate.collect.
  cbn [run perform mbind prog_mbind prog_bind event_of guarded_handle].
  rewrite Ht. cbn [node_handle].
  destruct (Fs.existsSync Migrate.targetDir (fs w)) eqn:Hex; cbn [negb].
  - cbn [run perform mbind prog_mbind prog_bind event_of guarded_handle mret prog_ret].
    rewrite Hs. by intros [= <- <- <-].
  - destruct Hmk as [?|Hmk]; [congruence|]. unfold can_make in Hmk.
    cbn [run perform mbind prog_mbind prog_bind event_of guarded_handle].
    rewrite Ht. cbn [node_handle].
    destruct (Fs.mkdirSync Migrate.targetDir (fs w)) as [n|e]; [|done].
    cbn [run perform mbind prog_mbind prog_bind event_of guarded_handle].
    rewrite Hs. by intros [= <- <- <-].
Qed.

(** C8, as stated, fails: a failure that meets [fs.existsSync] does not
    propagate.  In the example of the specification, take the search
    permission of [auth/] away.  Its [README.md] is there and reading it
    would fail with [EACCES]; but the script asks [existsSync] first, which
    answers [false], and the topic is skipped as if it had no [README.md]:
    no call fails, the run completes, and the index lists no topic. *)
Lemma denied_readme_is_not_reported :
  let locked := [Migrate.sourceDir ++ ["auth"]] in
  let readme := Migrate.sourceDir ++ ["auth"; "README.md"] in
  let x := run (guarded_handle locked) Migrate.main Sample.auth_and_empty in
  Fs.file_at readme (fs Sample.auth_and_empty) = Some "# Auth"
  /\ guarded_handle locked _ (ReadFileSync readme) Sample.auth_and_empty
     = (Throw EACCES, Sample.auth_and_empty)
  /\ In (EvExists readme (Return false)) x.1.1
  /\ x.1.2 = Return tt
  /\ Forall (fun ev => failure ev = None) x.1.1
  /\ writes x.1.1 = [(index_md, Migrate.indexContent [])]
  /\ printed x.1.1 = ["Middleware List for Sidebar:"; JSON_stringify []].
Proof.
  cbv zeta. split_and!; try (vm_compute; reflexivity).
  - vm_compute. tauto.
  - vm_compute. repeat constructor.
Qed.

(** C8, amended.  The primary script handles no failure of the calls that
    report one by throwing.  Whatever the filesystem does, a run starts by
    looking for the target directory; a call that fails is the last call
    of the run and its error is the result of the run, so that nothing is
    retried and nothing is called afterwards; and a run that throws throws
    the error of its last call.  A failure that meets [fs.existsSync] is
    not among these: that call answers [false] and the run goes on, so
    that the call a run ends at is never [existsSync], nor [console.log].
    Permission denied on the way to the source directory does propagate:
    the listing fails with [EACCES], which ends the run before anything is
    written or printed.  On a well-formed tree the run throws exactly
    when: the target directory is not a directory and cannot be made, a
    regular file being there or on the way; or the source directory cannot
    be listed; or a topic's [README.md] is not a regular file; or a
    topic's page is a directory; or [index.md] is a directory; or the site
    configuration is not a regular file.  Nothing written is rolled back:
    at the end of a run, thrown or not, the files on disk are those of the
    start overwritten by the writes that went through, and every path
    written holds a regular file. *)
Theorem failure_ends_the_run :
  (forall (W : Type) (handle : forall R, call R -> W -> outcome R * W)
          (w w' : W) (t : list event) (r : outcome unit),
      run handle Migrate.main w = (t, r, w') ->
      (exists x t', t = EvExists Migrate.targetDir x :: t')
      /\ (forall t1 ev e t2,
             t = t1 ++ ev :: t2 -> failure ev = Some e -> t2 = [] /\ r = Throw e)
      /\ (forall e, r = Throw e -> exists t1 ev, t = t1 ++ [ev] /\ failure ev = Some e))
  /\ (forall (locked : list path) (w w' : world) (t : list event) (r : outcome unit),
         run (guarded_handle locked) Migrate.main w = (t, r, w') ->
         (forall e, r = Throw e ->
                    exists t1 ev, t = t1 ++ [ev] /\ failure ev = Some e /\ throwing_call ev)
         /\ (blocked locked Migrate.sourceDir = true ->
             blocked locked Migrate.targetDir = false ->
             Fs.existsSync Migrate.targetDir (fs w) = true
             \/ can_make Migrate.targetDir (fs w) = true ->
             r = Throw EACCES
             /\ last t = Some (EvReaddir Migrate.sourceDir (Throw EACCES))
             /\ writes t = [] /\ printed t = []))
  /\ (forall (w w' : world) (t : list event) (r : outcome unit),
         Fs.wf (fs w) = true ->
         exec Migrate.main w = (t, r, w') ->
         ((exists e, r = Throw e)
          <-> can_make Migrate.targetDir (fs w) = false
              \/ (exists e, Fs.readdirSync Migrate.sourceDir (fs w) = Throw e)
              \/ (exists mw,
                     mw ∈ listing (fs w) /\ migrated (fs w) mw = true
                     /\ is_file (Migrate.sourceDir ++ [mw; "README.md"]) (fs w) = false)
              \/ (exists mw,
                     mw ∈ listing (fs w) /\ migrated (fs w) mw = true
                     /\ Fs.is_dir (page_path mw) (fs w) = true)
              \/ Fs.is_dir index_md (fs w) = true
              \/ is_file Migrate.configPath (fs w) = false)
         /\ (forall q,
                Fs.file_at q (fs w') = last_write (writes t) q (Fs.file_at q (fs w)))
         /\ (forall p d, (p, d) ∈ writes t -> is_file p (fs w') = true)).
Proof.
  split_and!.
  - intros W handle w w' t r Hrun. split_and!.
    + by eapply main_first_call.
    + intros t1 ev e t2 Ht He. by eapply run_failure_last.
    + intros e ->. by eapply run_throw_last.
  - intros locked w w' t r Hrun. split.
    + intros e ->.
      eapply (run_throw_call (guarded_handle locked)); [| |exact Hrun].
      * apply guarded_exists_returns.
      * apply guarded_log_returns.
    + intros Hs Ht Hmk. by eapply denied_listing.
  - intros w w' t r Hwf Hrun. split_and!.
    + rewrite <- not_ready_cases, <- (main_completes w Hwf), Hrun.
      unfold completes. cbn [fst snd]. destruct r as [[]|e]; split; try done.
      * by intros [e ?].
      * intros _. by exists e.
    + intros q. by eapply exec_file_at.
    + intros p d. by eapply written_stays.
Qed.

(** A checkout without the site configuration: reading it is the last
    call and fails with [ENOENT], which is the result of the run; the page
    and the index written before stay.  With the search permission of
    [documentation] taken away, the listing of the source directory fails
    with [EACCES] instead, and nothing is written. *)
Lemma failure_ends_the_run_witness :
  let w := Sample.no_config in
  let t := (exec Migrate.main w).1.1 in
  let r := (exec Migrate.main w).1.2 in
  let w' := (exec Migrate.main w).2 in
  (((exists e, r = Throw e)
    <-> can_make Migrate.targetDir (fs w) = false
        \/ (exists e, Fs.readdirSync Migrate.sourceDir (fs w) = Throw e)
        \/ (exists mw,
               mw ∈ listing (fs w) /\ migrated (fs w) mw = true
               /\ is_file (Migrate.sourceDir ++ [mw; "README.md"]) (fs w) = false)
        \/ (exists mw,
               mw ∈ listing (fs w) /\ migrated (fs w) mw = true
               /\ Fs.is_dir (page_path mw) (fs w) = true)
        \/ Fs.is_dir index_md (fs w) = true
        \/ is_file Migrate.configPath (fs w) = false)
   /\ (forall q,
          Fs.file_at q (fs w') = last_write (writes t) q (Fs.file_at q (fs w)))
   /\ (forall p d, (p, d) ∈ writes t -> is_file p (fs w') = true))
  /\ ((exists x t', t = EvExists Migrate.targetDir x :: t')
      /\ (forall t1 ev e t2,
             t = t1 ++ ev :: t2 -> failure ev = Some e -> t2 = [] /\ r = Throw e)
      /\ (forall e, r = Throw e -> exists t1 ev, t = t1 ++ [ev] /\ failure ev = Some e))
  /\ (let locked := [take 6 Migrate.sourceDir] in
      let x := run (guarded_handle locked) Migrate.main w in
      (forall e, x.1.2 = Throw e ->
                 exists t1 ev, x.1.1 = t1 ++ [ev] /\ failure ev = Some e /\ throwing_call ev)
      /\ (blocked locked Migrate.sourceDir = true ->
          blocked locked Migrate.targetDir = false ->
          Fs.existsSync Migrate.targetDir (fs w) = true
          \/ can_make Migrate.targetDir (fs w) = true ->
          x.1.2 = Throw EACCES
          /\ last x.1.1 = Some (EvReaddir Migrate.sourceDir (Throw EACCES))
          /\ writes x.1.1 = [] /\ printed x.1.1 = []))
  /\ blocked [take 6 Migrate.sourceDir] Migrate.sourceDir = true
  /\ blocked [take 6 Migrate.sourceDir] Migrate.targetDir = false
  /\ can_make Migrate.targetDir (fs w) = true
  /\ is_file Migrate.configPath (fs w) = false
  /\ r = Throw ENOENT
  /\ last t = Some (EvRead Migrate.configPath (Throw ENOENT))
  /\ writes t = [(page_path "auth", "# Auth"); (index_md, Migrate.indexContent ["auth"])]
  /\ Fs.file_at (page_path "auth") (fs w') = Some "# Auth"
  /\ Fs.file_at index_md (fs w') = Some (Migrate.indexContent ["auth"]).
Proof.
  cbv zeta. split; [|split; [|split]].
  - apply (proj2 (proj2 failure_ends_the_run)
                 Sample.no_config
                 (exec Migrate.main Sample.no_config).2
                 (exec Migrate.main Sample.no_config).1.1
                 (exec Migrate.main Sample.no_config).1.2).
    + vm_compute. reflexivity.
    + vm_compute. reflexivity.
  - apply (proj1 failure_ends_the_run world node_handle
                 Sample.no_config
                 (exec Migrate.main Sample.no_config).2
                 (exec Migrate.main Sample.no_config).1.1
                 (exec Migrate.main Sample.no_config).1.2).
    vm_compute. reflexivity.
  - apply (proj1 (proj2 failure_ends_the_run)
                 [take 6 Migrate.sourceDir] Sample.no_config
                 (run (guarded_handle [take 6 Migrate.sourceDir])
                      Migrate.main Sample.no_config).2).
    vm_compute. reflexivity.
  - split_and!; vm_compute; reflexivity.
Defined.
